(** * Inventory service: item and photo lifecycle

    A shallow embedding of the two variants of the inventory service:
    - [Flat]: main.js, the collection held in memory and rewritten to
      inventory.json after every mutation;
    - [Rel]: the variant whose records live in a relational table reached
      through [pool.query].

    The handlers are translated statement by statement into a small
    state-and-trace monad.  JavaScript values, objects and the built-in
    coercions the handlers call ([Number], [parseInt], truthiness, [??],
    [+] on strings, template literals) are modelled in [JS]. *)

From Stdlib Require Import ZArith QArith String Ascii List Lia.
From stdpp Require Import base option list strings pretty gmap sorting.

Local Open Scope string_scope.
Local Open Scope list_scope.
Local Open Scope Z_scope.

(** ** JavaScript values and coercions *)

Module JS.

(** A JS number as the handlers meet it.  Finite values are kept as exact
    rationals; [binary64] below rounds a mathematical value to the nearest
    double, so [Fin q] always holds a representable value. *)
Inductive jsnum :=
| NaN
| Inf (neg : bool)
| Fin (q : Q).

(** Primitive values.  [VNum] holds the integer-valued numbers the service
    stores (ids) and reads where an id is sent as a number.  What else a
    JSON body could carry is outside the model: fractions, arrays, nested
    objects, and the numbers too large for a double ([1e999] parses to
    [Infinity], which [JSON.stringify] writes back as [null]).  Where a
    statement depends on a name or a description coming back from
    inventory.json as it went in, it is made for textual fields. *)
Inductive value :=
| VUndefined
| VNull
| VBool (b : bool)
| VNum (z : Z)
| VStr (s : string).

Global Instance value_eq_dec : EqDecision value.
Proof. solve_decision. Defined.

(** Strings are sequences of 8-bit code units (the Latin-1 range of JS's
    UTF-16 code units). *)

(** StrWhiteSpaceChar: TAB, LF, VT, FF, CR, SP, NBSP. *)
Definition is_ws (c : ascii) : bool :=
  let n := Z.of_nat (nat_of_ascii c) in
  ((9 <=? n) && (n <=? 13)) || (n =? 32) || (n =? 160).

Fixpoint trim_start (s : string) : string :=
  match s with
  | String c s' => if is_ws c then trim_start s' else s
  | EmptyString => s
  end.

Definition trim (s : string) : string :=
  String.rev (trim_start (String.rev (trim_start s))).

(** Value of [c] as a digit in the given radix (0-9, then letters). *)
Definition digit_of (radix : Z) (c : ascii) : option Z :=
  let n := Z.of_nat (nat_of_ascii c) in
  let d := if (48 <=? n) && (n <=? 57) then n - 48
           else if (97 <=? n) && (n <=? 122) then n - 87
           else if (65 <=? n) && (n <=? 90) then n - 55
           else radix in
  if d <? radix then Some d else None.

(** Longest prefix of radix digits: accumulated value, digit count, rest. *)
Fixpoint span_digits (radix : Z) (s : string) (acc cnt : Z) : Z * Z * string :=
  match s with
  | String c s' =>
      match digit_of radix c with
      | Some d => span_digits radix s' (acc * radix + d) (cnt + 1)
      | None => (acc, cnt, s)
      end
  | EmptyString => (acc, cnt, s)
  end.

(** Nearest integer to n/d (n >= 0, d > 0), ties to even. *)
Definition round_half_even (n d : Z) : Z :=
  let q := n / d in
  let r := n mod d in
  if 2 * r <? d then q
  else if d <? 2 * r then q + 1
  else if Z.even q then q else q + 1.

(** The double nearest to n/d (n >= 0, d > 0), with the given sign.
    Zero keeps no sign: [-0 === 0]. *)
Definition binary64 (neg : bool) (n d : Z) : jsnum :=
  if n =? 0 then Fin 0
  else
    let e0 := Z.log2 n - Z.log2 d in
    let below := if 0 <=? e0 then n <? d * 2 ^ e0 else n * 2 ^ (- e0) <? d in
    let e := if below then e0 - 1 else e0 in
    let ex := Z.max e (-1022) in
    let sh := 52 - ex in
    let m := if 0 <=? sh then round_half_even (n * 2 ^ sh) d
             else round_half_even n (d * 2 ^ (- sh)) in
    if (1023 <? ex) || ((ex =? 1023) && (m =? 2 ^ 53)) then Inf neg
    else
      let s := if neg then -1 else 1 in
      if 0 <=? sh then Fin (Qred (Qmake (s * m) (Z.to_pos (2 ^ sh))))
      else Fin (inject_Z (s * m * 2 ^ (- sh))).

(** [m * 10^e] as a double. *)
Definition decimal64 (neg : bool) (m e : Z) : jsnum :=
  if 0 <=? e then binary64 neg (m * 10 ^ e) 1 else binary64 neg m (10 ^ (- e)).

Definition strip_sign (s : string) : bool * string :=
  match s with
  | String "-" s' => (true, s')
  | String "+" s' => (false, s')
  | _ => (false, s)
  end.

(** ExponentPart_opt at the end of a decimal literal. *)
Definition exponent_part (s : string) : option Z :=
  match s with
  | EmptyString => Some 0
  | String c s' =>
      if (Ascii.eqb c "e" || Ascii.eqb c "E")%bool then
        let '(neg, ds) := strip_sign s' in
        match span_digits 10 ds 0 0 with
        | (v, cnt, EmptyString) =>
            if 0 <? cnt then Some (if neg then - v else v) else None
        | _ => None
        end
      else None
  end.

(** StrUnsignedDecimalLiteral. *)
Definition unsigned_decimal (neg : bool) (s : string) : jsnum :=
  if String.eqb s "Infinity" then Inf neg
  else
    let '(i, ni, r1) := span_digits 10 s 0 0 in
    let '(m, nf, r2) :=
      match r1 with
      | String "." r => span_digits 10 r i 0
      | _ => (i, 0, r1)
      end in
    if ni + nf =? 0 then NaN
    else match exponent_part r2 with
         | Some e => decimal64 neg m (e - nf)
         | None => NaN
         end.

(** NonDecimalIntegerLiteral: 0x, 0o, 0b prefixes, no sign. *)
Definition non_decimal (s : string) : option jsnum :=
  match s with
  | String "0" (String p ds) =>
      let radix :=
        if (Ascii.eqb p "x" || Ascii.eqb p "X")%bool then Some 16
        else if (Ascii.eqb p "o" || Ascii.eqb p "O")%bool then Some 8
        else if (Ascii.eqb p "b" || Ascii.eqb p "B")%bool then Some 2
        else None in
      match radix with
      | Some r =>
          match span_digits r ds 0 0 with
          | (v, cnt, EmptyString) =>
              Some (if 0 <? cnt then binary64 false v 1 else NaN)
          | _ => Some NaN
          end
      | None => None
      end
  | _ => None
  end.

(** [Number(s)] on a string: StringToNumber. *)
Definition Number (s : string) : jsnum :=
  let t := trim s in
  if String.eqb t "" then Fin 0
  else match non_decimal t with
       | Some n => n
       | None => let '(neg, u) := strip_sign t in unsigned_decimal neg u
       end.

(** [parseInt(s)] on a string, radix argument absent. *)
Definition parseInt_string (s : string) : jsnum :=
  let '(neg, u) := strip_sign (trim_start s) in
  let '(radix, ds) :=
    match u with
    | String "0" (String p r) =>
        if (Ascii.eqb p "x" || Ascii.eqb p "X")%bool then (16, r) else (10, u)
    | _ => (10, u)
    end in
  let '(v, cnt, _) := span_digits radix ds 0 0 in
  if 0 <? cnt then binary64 neg v 1 else NaN.

(** A string given where a string is expected ([parseInt(x)], template
    literals, [x + "..."]): ToString.  Integers print in plain decimal:
    that is what JS prints for every integer up to 2^53, the range of the
    ids.  (Beyond it JS prints the shortest digits that read back as the
    same double, and an exponent from 10^21 on.) *)
Definition to_string (v : value) : string :=
  match v with
  | VUndefined => "undefined"
  | VNull => "null"
  | VBool true => "true"
  | VBool false => "false"
  | VNum z => pretty z
  | VStr s => s
  end.

Definition parseInt (v : value) : jsnum := parseInt_string (to_string v).

(** [v ? a : b], [!v], [if (v)]. *)
Definition truthy (v : value) : bool :=
  match v with
  | VUndefined | VNull => false
  | VBool b => b
  | VNum z => negb (z =? 0)
  | VStr s => negb (String.eqb s "")
  end.

(** [a ?? b]. *)
Definition nullish_or (a b : value) : value :=
  match a with
  | VUndefined | VNull => b
  | _ => a
  end.

(** [v === n] for a number [n]. *)
Definition strict_eq_num (v : value) (n : jsnum) : bool :=
  match v, n with
  | VNum z, Fin q => Qeq_bool (inject_Z z) q
  | _, _ => false
  end.

(** [v === "..."]. *)
Definition strict_eq_str (v : value) (s : string) : bool :=
  match v with
  | VStr t => String.eqb t s
  | _ => false
  end.

(** [v + s] for a string [s]: concatenation after ToString. *)
Definition plus_str (v : value) (s : string) : value :=
  VStr (to_string v +:+ s).

(** [n += 1] on an integer counter held in a double: exact up to 2^53,
    where n + 1 rounds back to n. *)
Definition add1 (n : Z) : Z := if n <? 2 ^ 53 then n + 1 else n.

(** Objects: own enumerable properties in insertion order. *)
Abbreviation obj := (list (string * value)).

Fixpoint get_prop (o : obj) (k : string) : value :=
  match o with
  | [] => VUndefined
  | (k', v) :: o' => if String.eqb k' k then v else get_prop o' k
  end.

(** [o.k = v]: an existing key keeps its place, a new one goes last. *)
Fixpoint set_prop (o : obj) (k : string) (v : value) : obj :=
  match o with
  | [] => [(k, v)]
  | (k', v') :: o' =>
      if String.eqb k' k then (k, v) :: o' else (k', v') :: set_prop o' k v
  end.

(** The rest object of [const { k, ...rest } = o]. *)
Definition without_prop (o : obj) (k : string) : obj :=
  List.filter (fun kv => negb (String.eqb (fst kv) k)) o.

(** What [JSON.stringify] keeps of an object: properties holding
    [undefined] are dropped. *)
Definition to_json (o : obj) : obj :=
  List.filter (fun kv => if decide (snd kv = VUndefined) then false else true) o.

(** [path.join(dir, name)] for a plain file name. *)
Definition path_join (dir name : string) : string := dir +:+ "/" +:+ name.

End JS.

Import JS.

(** ** What both variants share: documents, queries, effects, responses *)

(** The JSON document in inventory.json: [{ nextId, list }]. *)
Record snapshot := { snap_nextId : Z; snap_list : list obj }.

(** The statements handed to [pool.query], with their parameters. *)
Inductive query :=
| Insert (inventory_name description photo : value)
| SelectAll
| SelectById (id : value)
| UpdateMeta (inventory_name description id : value)
| UpdatePhoto (photo id : value)
| DeleteById (id : value).

(** Effects on the outside, in the order the handler issues them. *)
Inductive event :=
| Unlink (path : string)
| WriteDb (doc : snapshot)
| Sql (q : query) (ok : bool).

Inductive json :=
| JString (s : string)
| JObject (o : obj)
| JArray (l : list obj).

Inductive body :=
| Empty
| Text (s : string)
| Json (j : json)
| ErrorMessage
| File (path : string)
| ErrorPage.             (* what Express's default error handler writes *)

Record response := { status : Z; content : body }.

(** What a handler reads of a request: [req.params.id], [req.body] (an
    object, as the body parsers leave it), and the name multer gave to the
    uploaded photo ([req.file.filename]) when a photo came with the
    request; [req.file.path] is that name joined to the upload directory. *)
Record request := {
  params_id : string;
  req_body : obj;
  req_file : option string
}.

Inductive route :=
| PostRegister
| GetInventory
| GetInventoryId
| PutInventoryId
| GetInventoryIdPhoto
| PutInventoryIdPhoto
| DeleteInventoryId
| PostSearch.

(** The paths a trace unlinks, in order. *)
Definition unlinks (t : list event) : list string :=
  omap (fun e => match e with Unlink p => Some p | _ => None end) t.

(** State and trace monad of a handler run. *)
Definition M (S A : Type) : Type := S -> A * S * list event.

Definition ret {S A} (a : A) : M S A := fun s => (a, s, []).

Definition bind {S A B} (m : M S A) (k : A -> M S B) : M S B :=
  fun s =>
    let '(a, s1, t1) := m s in
    let '(b, s2, t2) := k a s1 in
    (b, s2, t1 ++ t2).

Notation "'let*' x ':=' m 'in' k" := (bind m (fun x => k))
  (at level 10, x name, m at level 100, k at level 200).
Notation "m ';;' k" := (bind m (fun _ => k))
  (at level 100, k at level 200, right associativity).

Definition gets {S A} (f : S -> A) : M S A := fun s => (f s, s, []).
Definition modify {S} (f : S -> S) : M S unit := fun s => (tt, f s, []).

Fixpoint mapM {S A B} (f : A -> M S B) (l : list A) : M S (list B) :=
  match l with
  | [] => ret []
  | a :: l' => let* b := f a in let* bs := mapM f l' in ret (b :: bs)
  end.

Definition send {S} (code : Z) (b : body) : M S response :=
  ret {| status := code; content := b |}.

(** ** The flat-file variant (main.js) *)

Module Flat.

(** Command-line options, [uploadsPath = path.join(cache, "uploads")], and
    Express's part in serving a photo.

    [res.sendFile(p, { root: __dirname })] looks [p] up under the directory
    of main.js, whereas [existsSync], multer and [unlinkSync] read the same
    [p] from the working directory.  Whether both name one file, and what
    Express answers when it finds none, depends on where the service is
    started, on the cache path and on the Express version, none of which
    the source fixes.  So the answer is a parameter: [sendFile p fs] is the
    response to [res.sendFile(p, { root: __dirname })] when the uploads
    directory holds the files [fs]. *)
Record config := {
  host : string;
  port : string;
  uploadsPath : string;
  sendFile : string -> gset string -> response
}.

(** Item objects live in a heap and are held by reference: [find] hands out
    the very object that sits in [inventory.list], and the handlers assign
    to its properties. *)
Abbreviation loc := nat.

Record state := {
  heap : list obj;
  inv_nextId : Z;          (* inventory.nextId *)
  inv_list : list loc;     (* inventory.list *)
  dbFile : snapshot;       (* contents of inventory.json *)
  files : gset string      (* paths present in the uploads directory *)
}.

Definition with_heap (h : list obj) (s : state) : state :=
  {| heap := h; inv_nextId := inv_nextId s; inv_list := inv_list s;
     dbFile := dbFile s; files := files s |}.
Definition with_nextId (n : Z) (s : state) : state :=
  {| heap := heap s; inv_nextId := n; inv_list := inv_list s;
     dbFile := dbFile s; files := files s |}.
Definition with_list (l : list loc) (s : state) : state :=
  {| heap := heap s; inv_nextId := inv_nextId s; inv_list := l;
     dbFile := dbFile s; files := files s |}.
Definition with_dbFile (d : snapshot) (s : state) : state :=
  {| heap := heap s; inv_nextId := inv_nextId s; inv_list := inv_list s;
     dbFile := d; files := files s |}.
Definition with_files (f : gset string) (s : state) : state :=
  {| heap := heap s; inv_nextId := inv_nextId s; inv_list := inv_list s;
     dbFile := dbFile s; files := f |}.

(** Start-up on an empty cache directory: inventory.json is created with
    [{ nextId: 1, list: [] }] and read back. *)
Definition init : state :=
  {| heap := []; inv_nextId := 1; inv_list := [];
     dbFile := {| snap_nextId := 1; snap_list := [] |}; files := ∅ |}.

Definition deref (s : state) (l : loc) : obj := default [] (heap s !! l).

Definition read (l : loc) : M state obj := gets (fun s => deref s l).

Definition assign (l : loc) (k : string) (v : value) : M state unit :=
  modify (fun s => with_heap (alter (fun o => set_prop o k v) l (heap s)) s).

(** A new object: a fresh reference. *)
Definition alloc (o : obj) : M state loc :=
  fun s => (length (heap s), with_heap (heap s ++ [o]) s, []).

(** [JSON.stringify(inventory)]. *)
Definition stringify (s : state) : snapshot :=
  {| snap_nextId := inv_nextId s;
     snap_list := List.map (fun l => to_json (deref s l)) (inv_list s) |}.

(** [fs.writeFileSync(dbFile, JSON.stringify(inventory))]. *)
Definition writeFileSync : M state unit :=
  fun s => let d := stringify s in (tt, with_dbFile d s, [WriteDb d]).

Definition existsSync (p : string) : M state bool :=
  gets (fun s => bool_decide (p ∈ files s)).

(** [fs.unlinkSync(p)].  Every call is made on a path that [existsSync] has
    just confirmed or that multer has just written. *)
Definition unlinkSync (p : string) : M state unit :=
  fun s => (tt, with_files (files s ∖ {[p]}) s, [Unlink p]).

(** [inventory.list.find((v) => v.id === n)]. *)
Definition find (n : jsnum) : M state (option loc) :=
  gets (fun s =>
    List.find (fun l => strict_eq_num (get_prop (deref s l) "id") n) (inv_list s)).

Definition not_found : M state response :=
  send 404 (Json (JString "Inventory with this id not found")).

Definition json_obj (code : Z) (l : loc) : M state response :=
  let* o := read l in send code (Json (JObject (to_json o))).

Section Handlers.
Variable cfg : config.

Definition formatItemResponse (item : loc) : M state loc :=
  let* o := read item in
  let photoUrl :=
    if truthy (get_prop o "photo")
    then VStr ("http://" +:+ host cfg +:+ ":" +:+ port cfg +:+ "/inventory/"
               +:+ to_string (get_prop o "id") +:+ "/photo")
    else VNull in
  alloc (set_prop o "photo" photoUrl).

(** app.post("/register") *)
Definition register (req : request) : M state response :=
  let inventory_name := get_prop (req_body req) "inventory_name" in
  let description := get_prop (req_body req) "description" in
  if negb (truthy inventory_name) then send 400 (Text "Name required")
  else
    let description := if negb (truthy description) then VStr "" else description in
    let* id := gets inv_nextId in
    modify (with_nextId (add1 id));;
    let photo := match req_file req with Some f => VStr f | None => VNull end in
    let* item := alloc [("id", VNum id); ("inventory_name", inventory_name);
                        ("description", description); ("photo", photo)] in
    modify (fun s => with_list (inv_list s ++ [item]) s);;
    writeFileSync;;
    let* v := formatItemResponse item in
    json_obj 200 v.

(** app.get("/inventory") *)
Definition list_all (req : request) : M state response :=
  let* l := gets inv_list in
  let* inventories := mapM formatItemResponse l in
  let* os := mapM read inventories in
  send 200 (Json (JArray (List.map to_json os))).

(** app.get("/inventory/:id") *)
Definition get_item (req : request) : M state response :=
  let id := params_id req in
  let* item := find (Number id) in
  match item with
  | Some item => let* v := formatItemResponse item in json_obj 200 v
  | None => not_found
  end.

(** app.put("/inventory/:id") *)
Definition update (req : request) : M state response :=
  let inventory_name := get_prop (req_body req) "inventory_name" in
  let description := get_prop (req_body req) "description" in
  let id := params_id req in
  let* item := find (Number id) in
  match item with
  | None =>
      match req_file req with
      | Some f => unlinkSync (path_join (uploadsPath cfg) f)
      | None => ret tt
      end;;
      not_found
  | Some item =>
      let* o := read item in
      assign item "inventory_name" (nullish_or inventory_name (get_prop o "inventory_name"));;
      let* o := read item in
      assign item "description" (nullish_or description (get_prop o "description"));;
      writeFileSync;;
      let* v := formatItemResponse item in
      json_obj 200 v
  end.

(** app.get("/inventory/:id/photo") *)
Definition get_photo (req : request) : M state response :=
  let id := params_id req in
  let* item := find (Number id) in
  match item with
  | None => not_found
  | Some item =>
      let* o := read item in
      if decide (get_prop o "photo" = VNull)
      then send 404 (Json (JString "Inventory has no photo"))
      else
        let photoPath := path_join (uploadsPath cfg) (to_string (get_prop o "photo")) in
        let* there := existsSync photoPath in
        if negb there then send 404 (Text "Photo not found")
        else
          let* fs := gets files in
          ret (sendFile cfg photoPath fs)
  end.

(** app.put("/inventory/:id/photo") *)
Definition replace_photo (req : request) : M state response :=
  let id := params_id req in
  let* item := find (Number id) in
  match item with
  | None =>
      match req_file req with
      | Some f => unlinkSync (path_join (uploadsPath cfg) f)
      | None => ret tt
      end;;
      not_found
  | Some item =>
      let* o := read item in
      (if truthy (get_prop o "photo") then
         let oldPhotoPath := path_join (uploadsPath cfg) (to_string (get_prop o "photo")) in
         let* there := existsSync oldPhotoPath in
         if there then unlinkSync oldPhotoPath else ret tt
       else ret tt);;
      assign item "photo" (match req_file req with Some f => VStr f | None => VNull end);;
      writeFileSync;;
      let* v := formatItemResponse item in
      json_obj 200 v
  end.

(** app.delete("/inventory/:id") *)
Definition delete (req : request) : M state response :=
  let id := params_id req in
  let* item := find (Number id) in
  match item with
  | None => not_found
  | Some item =>
      let* o := read item in
      (if truthy (get_prop o "photo") then
         let photoPath := path_join (uploadsPath cfg) (to_string (get_prop o "photo")) in
         let* there := existsSync photoPath in
         if there then unlinkSync photoPath else ret tt
       else ret tt);;
      modify (fun s =>
        with_list (List.filter (fun i => negb (Nat.eqb i item)) (inv_list s)) s);;
      writeFileSync;;
      send 200 Empty
  end.

(** app.post("/search") *)
Definition search (req : request) : M state response :=
  let id := get_prop (req_body req) "id" in
  let has_photo := get_prop (req_body req) "has_photo" in
  let* item := find (parseInt id) in
  match item with
  | None => not_found
  | Some item =>
      let* formatted := formatItemResponse item in
      let* fo := read formatted in
      let photo := get_prop fo "photo" in
      let* responseItem := alloc (without_prop fo "photo") in
      (if strict_eq_str has_photo "on" then
         let* r := read responseItem in
         if truthy photo then
           assign responseItem "description"
             (plus_str (get_prop r "description") (" [Photo:" +:+ to_string photo +:+ "]"))
         else
           assign responseItem "description"
             (plus_str (get_prop r "description") " [No photo available]")
       else ret tt);;
      json_obj 200 responseItem
  end.

(** [upload.single("photo")]: multer has written the received photo into
    the uploads directory before the handler runs. *)
Definition upload_single (req : request) : M state request :=
  match req_file req with
  | Some f =>
      modify (fun s => with_files ({[path_join (uploadsPath cfg) f]} ∪ files s) s);;
      ret req
  | None => ret req
  end.

(** A route without the upload middleware never sees a [req.file]. *)
Definition no_upload (req : request) : request :=
  {| params_id := params_id req; req_body := req_body req; req_file := None |}.

Definition serve (r : route) (req : request) : M state response :=
  match r with
  | PostRegister => let* req := upload_single req in register req
  | GetInventory => list_all (no_upload req)
  | GetInventoryId => get_item (no_upload req)
  | PutInventoryId => update (no_upload req)
  | GetInventoryIdPhoto => get_photo (no_upload req)
  | PutInventoryIdPhoto => let* req := upload_single req in replace_photo req
  | DeleteInventoryId => delete (no_upload req)
  | PostSearch => search (no_upload req)
  end.

End Handlers.

(** The process stops and starts again: [inventory] is parsed anew from
    inventory.json, into fresh objects. *)
Definition restart (s : state) : state :=
  {| heap := heap s ++ snap_list (dbFile s);
     inv_nextId := snap_nextId (dbFile s);
     inv_list := seq (length (heap s)) (length (snap_list (dbFile s)));
     dbFile := dbFile s;
     files := files s |}.

End Flat.

(** ** The relational variant *)

Module Rel.

(** Modelled from the spec: the table behind [pool] (the module ./db and the
    schema are not among the sources).  Per the spec's Item Repository an
    item record holds an integer id the store assigns on creation ("assigns
    next id"), a name, a description and an optional photo reference; the
    three text columns are taken as nullable. *)
Record row := {
  id : Z;
  inventory_name : option string;
  description : option string;
  photo : option string
}.

(** [CACHE_DIR], and what the handlers leave to others:
    - [int_in]: how the database reads the text of a parameter compared with
      the integer id column ([None]: it rejects the text and the query
      fails);
    - [scan]: the order in which the database lists rows.  A [SELECT *]
      without ORDER BY promises all rows and no order (the spec says as
      much of the relational list), so the order is the database's choice,
      and [scan_all] is all that is known of it;
    - [sendFile]: Express's answer to
      [res.sendFile(p, { root: __dirname })] when the cache directory holds
      the given files; it looks [p] up under the directory of the script,
      not under the working directory from which [existsSync] reads it. *)
Record config := {
  CACHE : string;
  int_in : string -> option Z;
  scan : list row -> list row;
  scan_all : ∀ l, scan l ≡ₚ l;
  sendFile : string -> gset string -> response
}.

Record state := {
  rows : list row;
  serial : Z;              (* the next id the table assigns *)
  faults : list bool;      (* per coming query: does it fail? *)
  files : gset string      (* paths present in the cache directory *)
}.

Definition with_table (r : list row) (n : Z) (s : state) : state :=
  {| rows := r; serial := n; faults := faults s; files := files s |}.
Definition with_faults (f : list bool) (s : state) : state :=
  {| rows := rows s; serial := serial s; faults := f; files := files s |}.
Definition with_files (f : gset string) (s : state) : state :=
  {| rows := rows s; serial := serial s; faults := faults s; files := f |}.

Definition init : state :=
  {| rows := []; serial := 1; faults := []; files := ∅ |}.

(** A query parameter as the driver sends it: [null] and [undefined] become
    NULL, everything else its text. *)
Definition param (v : value) : option string :=
  match v with
  | VUndefined | VNull => None
  | _ => Some (to_string v)
  end.

Definition column (c : option string) : value :=
  match c with
  | Some s => VStr s
  | None => VNull
  end.

(** A result row as the object the driver returns. *)
Definition row_obj (r : row) : obj :=
  [("id", VNum (id r)); ("inventory_name", column (inventory_name r));
   ("description", column (description r)); ("photo", column (photo r))].

(** The rows a [WHERE id = $1] selects: none for NULL, an error for a text
    the database does not read as an integer. *)
Definition where_id (cfg : config) (idv : value) : option (row -> bool) :=
  match param idv with
  | None => Some (fun _ => false)
  | Some s =>
      match int_in cfg s with
      | Some k => Some (fun r => id r =? k)
      | None => None
      end
  end.

(** Modelled from the spec: what each statement handed to [pool.query]
    returns and does to the table ([None] is an error).  INSERT assigns the
    next id and returns the new row; [SELECT *] returns all rows in the
    order the database chooses; UPDATE and DELETE act on every row the
    WHERE clause selects.  The list [rows] stands for the table's contents:
    its order is never an answer's order, and a [WHERE id = $1] selects by
    the key INSERT assigns, so at most one row in any table built by
    INSERT. *)
Definition exec (cfg : config) (q : query) (s : state) : option (list row * state) :=
  match q with
  | Insert n d p =>
      let r := {| id := serial s; inventory_name := param n;
                  description := param d; photo := param p |} in
      Some ([r], with_table (rows s ++ [r]) (serial s + 1) s)
  | SelectAll => Some (scan cfg (rows s), s)
  | SelectById i =>
      match where_id cfg i with
      | Some sel => Some (List.filter sel (rows s), s)
      | None => None
      end
  | UpdateMeta n d i =>
      match where_id cfg i with
      | Some sel =>
          Some ([], with_table
                 (List.map (fun r => if sel r then
                    {| id := id r; inventory_name := param n;
                       description := param d; photo := photo r |} else r) (rows s))
                 (serial s) s)
      | None => None
      end
  | UpdatePhoto p i =>
      match where_id cfg i with
      | Some sel =>
          Some ([], with_table
                 (List.map (fun r => if sel r then
                    {| id := id r; inventory_name := inventory_name r;
                       description := description r; photo := param p |} else r) (rows s))
                 (serial s) s)
      | None => None
      end
  | DeleteById i =>
      match where_id cfg i with
      | Some sel =>
          Some ([], with_table (List.filter (fun r => negb (sel r)) (rows s)) (serial s) s)
      | None => None
      end
  end.

(** [await pool.query(...)]: [None] when the query throws, because the
    fault plan says so or because the statement is in error. *)
Definition pool_query (cfg : config) (q : query) : M state (option (list row)) :=
  fun s =>
    let '(fail, s1) :=
      match faults s with
      | f :: fs => (f, with_faults fs s)
      | [] => (false, s)
      end in
    if fail then (None, s1, [Sql q false])
    else match exec cfg q s1 with
         | Some (rs, s2) => (Some rs, s2, [Sql q true])
         | None => (None, s1, [Sql q false])
         end.

Definition existsSync (p : string) : M state bool :=
  gets (fun s => bool_decide (p ∈ files s)).

Definition unlinkSync (p : string) : M state unit :=
  fun s => (tt, with_files (files s ∖ {[p]}) s, [Unlink p]).

Definition not_found : M state response :=
  send 404 (Json (JString "Inventory with this id not found")).

(** [res.status(500).json(err.message)] *)
Definition server_error : M state response := send 500 ErrorMessage.

Definition json_obj (code : Z) (o : obj) : M state response :=
  send code (Json (JObject (to_json o))).

Definition formatItemResponse (item : obj) : obj :=
  let photoUrl :=
    if truthy (get_prop item "photo")
    then VStr ("/inventory/" +:+ to_string (get_prop item "id") +:+ "/photo")
    else VNull in
  set_prop item "photo" photoUrl.

(** The object [search] answers with for an item. *)
Definition search_view (has_photo : value) (item : obj) : obj :=
  let formatted := formatItemResponse item in
  let photo := get_prop formatted "photo" in
  let responseItem := without_prop formatted "photo" in
  if strict_eq_str has_photo "on" then
    if truthy photo then
      set_prop responseItem "description"
        (plus_str (get_prop responseItem "description")
                  (" [Photo: " +:+ to_string photo +:+ " ]"))
    else
      set_prop responseItem "description"
        (plus_str (get_prop responseItem "description") " [No photo available]")
  else responseItem.

Section Handlers.
Variable cfg : config.

(** [if (req.file) fs.unlinkSync(req.file.path)] *)
Definition discard_upload (req : request) : M state unit :=
  match req_file req with
  | Some f => unlinkSync (path_join (CACHE cfg) f)
  | None => ret tt
  end.

(** [(await pool.query(`SELECT * FROM inventory WHERE id = $1;`, [id])).rows[0]] *)
Definition select_item (idv : value) : M state (option (option obj)) :=
  let* r := pool_query cfg (SelectById idv) in
  ret (match r with
       | Some rs => Some (row_obj <$> head rs)
       | None => None
       end).

(** app.post("/register") *)
Definition register (req : request) : M state response :=
  let inventory_name := get_prop (req_body req) "inventory_name" in
  let description := get_prop (req_body req) "description" in
  if negb (truthy inventory_name) then
    discard_upload req;;
    send 400 (Text "Name required")
  else
    let description := if negb (truthy description) then VStr "" else description in
    let photo := match req_file req with Some f => VStr f | None => VNull end in
    let* r := pool_query cfg (Insert inventory_name description photo) in
    match r with
    | Some (r0 :: _) =>
        json_obj 200 (formatItemResponse
          [("id", VNum (id r0)); ("inventory_name", inventory_name);
           ("description", description); ("photo", photo)])
    | _ =>
        discard_upload req;;
        server_error
    end.

(** app.get("/inventory") *)
Definition list_all (req : request) : M state response :=
  let* r := pool_query cfg SelectAll in
  match r with
  | Some inventories =>
      send 200 (Json (JArray (List.map (fun r => to_json (formatItemResponse (row_obj r)))
                                       inventories)))
  | None => server_error
  end.

(** app.get("/inventory/:id") *)
Definition get_item (req : request) : M state response :=
  let id := params_id req in
  let* r := select_item (VStr id) in
  match r with
  | Some (Some item) => json_obj 200 (formatItemResponse item)
  | Some None => not_found
  | None => server_error
  end.

(** app.put("/inventory/:id") *)
Definition update (req : request) : M state response :=
  let inventory_name := get_prop (req_body req) "inventory_name" in
  let description := get_prop (req_body req) "description" in
  let id := params_id req in
  let* r := select_item (VStr id) in
  match r with
  | Some (Some item) =>
      let item := set_prop item "inventory_name"
                    (nullish_or inventory_name (get_prop item "inventory_name")) in
      let item := set_prop item "description"
                    (nullish_or description (get_prop item "description")) in
      let* u := pool_query cfg (UpdateMeta (get_prop item "inventory_name")
                                           (get_prop item "description") (VStr id)) in
      match u with
      | Some _ => json_obj 200 (formatItemResponse item)
      | None => server_error
      end
  | Some None => not_found
  | None => server_error
  end.

(** app.get("/inventory/:id/photo") *)
Definition get_photo (req : request) : M state response :=
  let id := params_id req in
  let* r := select_item (VStr id) in
  match r with
  | Some (Some item) =>
      if decide (get_prop item "photo" = VNull)
      then send 404 (Json (JString "Inventory has no photo"))
      else
        let photoPath := path_join (CACHE cfg) (to_string (get_prop item "photo")) in
        let* there := existsSync photoPath in
        if negb there then send 404 (Text "Photo not found")
        else
          let* fs := gets files in
          ret (sendFile cfg photoPath fs)
  | Some None => not_found
  | None => server_error
  end.

(** app.put("/inventory/:id/photo") *)
Definition replace_photo (req : request) : M state response :=
  let id := params_id req in
  let* r := select_item (VStr id) in
  match r with
  | Some (Some item) =>
      (if truthy (get_prop item "photo") then
         let oldPhotoPath := path_join (CACHE cfg) (to_string (get_prop item "photo")) in
         let* there := existsSync oldPhotoPath in
         if there then unlinkSync oldPhotoPath else ret tt
       else ret tt);;
      let item := set_prop item "photo"
                    (match req_file req with Some f => VStr f | None => VNull end) in
      let* u := pool_query cfg (UpdatePhoto (get_prop item "photo") (VStr id)) in
      match u with
      | Some _ => json_obj 200 (formatItemResponse item)
      | None => discard_upload req;; server_error
      end
  | Some None => discard_upload req;; not_found
  | None => discard_upload req;; server_error
  end.

(** app.delete("/inventory/:id") *)
Definition delete (req : request) : M state response :=
  let id := params_id req in
  let* r := select_item (VStr id) in
  match r with
  | Some (Some item) =>
      (if truthy (get_prop item "photo") then
         let photoPath := path_join (CACHE cfg) (to_string (get_prop item "photo")) in
         let* there := existsSync photoPath in
         if there then unlinkSync photoPath else ret tt
       else ret tt);;
      let* d := pool_query cfg (DeleteById (VStr id)) in
      match d with
      | Some _ => send 200 Empty
      | None => server_error
      end
  | Some None => not_found
  | None => server_error
  end.

(** app.post("/search") *)
Definition search (req : request) : M state response :=
  let id := get_prop (req_body req) "id" in
  let has_photo := get_prop (req_body req) "has_photo" in
  let* r := select_item id in
  match r with
  | Some (Some item) =>
      let formatted := formatItemResponse item in
      let photo := get_prop formatted "photo" in
      let responseItem := without_prop formatted "photo" in
      let responseItem :=
        if strict_eq_str has_photo "on" then
          if truthy photo then
            set_prop responseItem "description"
              (plus_str (get_prop responseItem "description")
                        (" [Photo: " +:+ to_string photo +:+ " ]"))
          else
            set_prop responseItem "description"
              (plus_str (get_prop responseItem "description") " [No photo available]")
        else responseItem in
      json_obj 200 responseItem
  | Some None => not_found
  | None => server_error
  end.

Definition upload_single (req : request) : M state request :=
  match req_file req with
  | Some f =>
      modify (fun s => with_files ({[path_join (CACHE cfg) f]} ∪ files s) s);;
      ret req
  | None => ret req
  end.

Definition no_upload (req : request) : request :=
  {| params_id := params_id req; req_body := req_body req; req_file := None |}.

Definition serve (r : route) (req : request) : M state response :=
  match r with
  | PostRegister => let* req := upload_single req in register req
  | GetInventory => list_all (no_upload req)
  | GetInventoryId => get_item (no_upload req)
  | PutInventoryId => update (no_upload req)
  | GetInventoryIdPhoto => get_photo (no_upload req)
  | PutInventoryIdPhoto => let* req := upload_single req in replace_photo req
  | DeleteInventoryId => delete (no_upload req)
  | PostSearch => search (no_upload req)
  end.

End Handlers.

(** The block [if (item.photo) { ... unlinkSync(...) }] of [replace_photo]
    and [delete]: the state it leaves and the effect it has. *)
Definition drop_photo (cfg : config) (o : obj) (s : state) : state * list event :=
  if truthy (get_prop o "photo") then
    let p := path_join (CACHE cfg) (to_string (get_prop o "photo")) in
    if bool_decide (p ∈ files s)
    then (with_files (files s ∖ {[p]}) s, [Unlink p])
    else (s, [])
  else (s, []).

(** The store once multer has saved the photo that came with a request. *)
Definition uploaded (cfg : config) (req : request) (s : state) : state :=
  match req_file req with
  | Some f => with_files ({[path_join (CACHE cfg) f]} ∪ files s) s
  | None => s
  end.

End Rel.

(** ** Histories of the flat-file store *)

Module FlatRun.
Import Flat.

(** What happens to a running service: a request is served, or the process
    is restarted. *)
Inductive op :=
| Call (r : route) (req : request)
| Reboot.

Definition step (cfg : config) (o : op) (s : state) : state :=
  match o with
  | Call r req => snd (fst (serve cfg r req s))
  | Reboot => restart s
  end.

Definition run (cfg : config) (ops : list op) (s : state) : state :=
  fold_left (fun s o => step cfg o s) ops s.

(** The [id] a response body carries. *)
Definition body_id (r : response) : value :=
  match content r with
  | Json (JObject o) => get_prop o "id"
  | _ => VUndefined
  end.

(** The id a step hands out: that of the item a successful registration
    answers with. *)
Definition issued (cfg : config) (o : op) (s : state) : list value :=
  match o with
  | Call PostRegister req =>
      let r := fst (fst (serve cfg PostRegister req s)) in
      if status r =? 200 then [body_id r] else []
  | _ => []
  end.

(** The ids handed out over a history, in order. *)
Fixpoint assigned (cfg : config) (ops : list op) (s : state) : list value :=
  match ops with
  | [] => []
  | o :: ops' => issued cfg o s ++ assigned cfg ops' (step cfg o s)
  end.

Definition item_id (s : state) (l : loc) : value := get_prop (deref s l) "id".

(** The ids of the items in the store, in list order. *)
Definition stored_ids (s : state) : list value := item_id s <$> inv_list s.

(** The store's structural invariant. *)
Record wf (s : state) : Prop := {
  wf_locs : ∀ l, l ∈ inv_list s → (l < length (heap s))%nat;
  wf_nodup : NoDup (inv_list s);
  wf_disk : dbFile s = stringify s;
  wf_next : 1 <= inv_nextId s <= 2 ^ 53;
  wf_ids : inv_nextId s < 2 ^ 53 →
           (∀ l, l ∈ inv_list s →
                 ∃ k, item_id s l = VNum k ∧ 1 <= k < inv_nextId s) ∧
           (∀ l1 l2, l1 ∈ inv_list s → l2 ∈ inv_list s →
                     item_id s l1 = item_id s l2 → l1 = l2)
}.

(** [s'] differs from [s] by freshly allocated objects only. *)
Definition extends (s s' : state) : Prop :=
  (∃ more, heap s' = heap s ++ more) ∧ inv_nextId s' = inv_nextId s ∧
  inv_list s' = inv_list s ∧ dbFile s' = dbFile s ∧ files s' = files s.

(** *** The handlers' outcomes, written out *)

(** The id of the object at a location depends on the heap only. *)
Definition heap_id (h : list obj) (l : loc) : value :=
  get_prop (default [] (h !! l)) "id".

(** What [find] returns. *)
Definition found (n : jsnum) (s : state) : option loc :=
  List.find (fun l => strict_eq_num (get_prop (deref s l) "id") n) (inv_list s).

(** The item a successful [register] creates. *)
Definition new_item (req : request) (s : state) : obj :=
  [("id", VNum (inv_nextId s));
   ("inventory_name", get_prop (req_body req) "inventory_name");
   ("description",
    if negb (truthy (get_prop (req_body req) "description")) then VStr ""
    else get_prop (req_body req) "description");
   ("photo", match req_file req with Some f => VStr f | None => VNull end)].

(** The store after a successful [register], before the response is built. *)
Definition registered (req : request) (s : state) : state :=
  let s2 := with_list (inv_list s ++ [length (heap s)])
              (with_heap (heap s ++ [new_item req s])
                 (with_nextId (add1 (inv_nextId s)) s)) in
  with_dbFile (stringify s2) s2.

(** The store after [update] has found its item and written the file. *)
Definition updated (req : request) (item : loc) (s : state) : state :=
  let s1 := with_heap (alter (fun o => set_prop o "inventory_name"
              (nullish_or (get_prop (req_body req) "inventory_name")
                          (get_prop (deref s item) "inventory_name"))) item (heap s)) s in
  let s2 := with_heap (alter (fun o => set_prop o "description"
              (nullish_or (get_prop (req_body req) "description")
                          (get_prop (deref s1 item) "description"))) item (heap s1)) s1 in
  with_dbFile (stringify s2) s2.

Definition absent : response :=
  {| status := 404; content := Json (JString "Inventory with this id not found") |}.

Section Outcomes.
Variable cfg : config.

(** The object [formatItemResponse] builds from an item. *)
Definition formatted (o : obj) : obj :=
  set_prop o "photo"
    (if truthy (get_prop o "photo")
     then VStr ("http://" +:+ host cfg +:+ ":" +:+ port cfg +:+ "/inventory/"
                +:+ to_string (get_prop o "id") +:+ "/photo")
     else VNull).

(** The block [if (item.photo) { ... unlinkSync(...) }] of [replace_photo]
    and [delete]: the state it leaves and the effect it has. *)
Definition drop_photo (o : obj) (s : state) : state * list event :=
  if truthy (get_prop o "photo") then
    let p := path_join (uploadsPath cfg) (to_string (get_prop o "photo")) in
    if bool_decide (p ∈ files s)
    then (with_files (files s ∖ {[p]}) s, [Unlink p])
    else (s, [])
  else (s, []).

(** The store after [replace_photo] has found its item and written the file. *)
Definition replaced (req : request) (item : loc) (s : state) : state :=
  let s1 := (drop_photo (deref s item) s).1 in
  let s2 := with_heap (alter (fun o => set_prop o "photo"
              (match req_file req with Some f => VStr f | None => VNull end))
              item (heap s1)) s1 in
  with_dbFile (stringify s2) s2.

(** The store after [delete] has found its item and written the file. *)
Definition deleted (item : loc) (s : state) : state :=
  let s1 := (drop_photo (deref s item) s).1 in
  let s2 := with_list (List.filter (fun i => negb (Nat.eqb i item)) (inv_list s1)) s1 in
  with_dbFile (stringify s2) s2.

(** The store once multer has saved the photo that came with a request. *)
Definition uploaded (req : request) (s : state) : state :=
  match req_file req with
  | Some f => with_files ({[path_join (uploadsPath cfg) f]} ∪ files s) s
  | None => s
  end.

(** The object [search] answers with for an item. *)
Definition search_view (has_photo : value) (o : obj) : obj :=
  let photo := get_prop (formatted o) "photo" in
  let responseItem := without_prop (formatted o) "photo" in
  if strict_eq_str has_photo "on" then
    if truthy photo then
      set_prop responseItem "description"
        (plus_str (get_prop responseItem "description")
                  (" [Photo:" +:+ to_string photo +:+ "]"))
    else
      set_prop responseItem "description"
        (plus_str (get_prop responseItem "description") " [No photo available]")
  else responseItem.

(** The response that shows an item, and the store once it is built. *)
Definition answer (s : state) (item : loc) : response :=
  {| status := 200; content := Json (JObject (to_json (formatted (deref s item)))) |}.

Definition answered (s : state) (item : loc) : state :=
  with_heap (heap s ++ [formatted (deref s item)]) s.

End Outcomes.

End FlatRun.

(** ** The contract both variants are meant to implement

    Written from the specification's Item Repository, Lifecycle Manager and
    Response Formatter: one collection of items with a counter, and the
    client-visible result of each operation.  The photo locator is built by
    a function the HTTP layer supplies. *)

Module Contract.

Record state := { items : list obj; nextId : Z }.

Inductive call :=
| Create (name description photo_ref : value)
| Get (id : Z)
| ListAll
| UpdateMetadata (id : Z) (name description : value)
| SetPhotoRef (id : Z) (photo_ref : value)
| Delete (id : Z)
| Search (id : Z) (include_photo_hint : bool).

Definition has_id (k : Z) (o : obj) : bool :=
  strict_eq_num (get_prop o "id") (Fin (inject_Z k)).

Definition lookup_item (k : Z) (st : state) : option obj :=
  List.find (has_id k) (items st).

(** Partial update: a field not supplied keeps its value. *)
Definition with_metadata (name description : value) (o : obj) : obj :=
  let o := set_prop o "inventory_name" (nullish_or name (get_prop o "inventory_name")) in
  set_prop o "description" (nullish_or description (get_prop o "description")).

Definition with_photo_ref (photo_ref : value) (o : obj) : obj :=
  set_prop o "photo" photo_ref.

Definition amend (k : Z) (f : obj -> obj) (st : state) : state :=
  {| items := List.map (fun o => if has_id k o then f o else o) (items st);
     nextId := nextId st |}.

(** The store after a call. *)
Definition next (c : call) (st : state) : state :=
  match c with
  | Create name description photo_ref =>
      if negb (truthy name) then st
      else
        {| items := items st ++
             [[("id", VNum (nextId st)); ("inventory_name", name);
               ("description", if negb (truthy description) then VStr "" else description);
               ("photo", photo_ref)]];
           nextId := nextId st + 1 |}
  | Get _ | ListAll | Search _ _ => st
  | UpdateMetadata k name description => amend k (with_metadata name description) st
  | SetPhotoRef k photo_ref => amend k (with_photo_ref photo_ref) st
  | Delete k =>
      {| items := List.filter (fun o => negb (has_id k o)) (items st);
         nextId := nextId st |}
  end.

Section Replies.
(** The URL-building function of the HTTP layer. *)
Variable url : string -> string.

(** The client view of an item: the photo reference becomes a locator. *)
Definition view (o : obj) : obj :=
  set_prop o "photo"
    (if truthy (get_prop o "photo")
     then VStr (url ("/inventory/" +:+ to_string (get_prop o "id") +:+ "/photo"))
     else VNull).

Definition show (o : obj) : response :=
  {| status := 200; content := Json (JObject (to_json (view o))) |}.

Definition not_found : response :=
  {| status := 404; content := Json (JString "Inventory with this id not found") |}.

(** The search view: no photo field, and with the hint a marker appended to
    the description. *)
Definition search_view (include_photo_hint : bool) (o : obj) : obj :=
  let v := view o in
  let photo := get_prop v "photo" in
  let r := without_prop v "photo" in
  if include_photo_hint then
    set_prop r "description"
      (plus_str (get_prop r "description")
         (if truthy photo then " [Photo: " +:+ to_string photo +:+ "]"
          else " [No photo available]"))
  else r.

(** The client-visible result of a call. *)
Definition reply (c : call) (st : state) : response :=
  match c with
  | Create name description photo_ref =>
      if negb (truthy name) then {| status := 400; content := Text "Name required" |}
      else show [("id", VNum (nextId st)); ("inventory_name", name);
                 ("description", if negb (truthy description) then VStr "" else description);
                 ("photo", photo_ref)]
  | Get k =>
      match lookup_item k st with
      | Some o => show o
      | None => not_found
      end
  | ListAll =>
      {| status := 200;
         content := Json (JArray (List.map (fun o => to_json (view o)) (items st))) |}
  | UpdateMetadata k name description =>
      match lookup_item k st with
      | Some o => show (with_metadata name description o)
      | None => not_found
      end
  | SetPhotoRef k photo_ref =>
      match lookup_item k st with
      | Some o => show (with_photo_ref photo_ref o)
      | None => not_found
      end
  | Delete k =>
      match lookup_item k st with
      | Some _ => {| status := 200; content := Empty |}
      | None => not_found
      end
  | Search k hint =>
      match lookup_item k st with
      | Some o => {| status := 200; content := Json (JObject (to_json (search_view hint o))) |}
      | None => not_found
      end
  end.

End Replies.

(** The one case in which the variants word their answer differently: a
    search with the hint that finds an item with a photo. *)
Definition hint_with_photo (c : call) (st : state) : bool :=
  match c with
  | Search k true =>
      match lookup_item k st with
      | Some o => truthy (get_prop o "photo")
      | None => false
      end
  | _ => false
  end.

End Contract.

(** ** Each variant against the contract *)

Module Refine.

(** The contract call a request stands for, [k] being the integer its id
    denotes.  Fetching the photo bytes is not among the contract's calls. *)
Definition as_call (r : route) (req : request) (k : Z) : option Contract.call :=
  let name := get_prop (req_body req) "inventory_name" in
  let description := get_prop (req_body req) "description" in
  let photo := match req_file req with Some f => VStr f | None => VNull end in
  match r with
  | PostRegister => Some (Contract.Create name description photo)
  | GetInventory => Some Contract.ListAll
  | GetInventoryId => Some (Contract.Get k)
  | PutInventoryId => Some (Contract.UpdateMetadata k name description)
  | GetInventoryIdPhoto => None
  | PutInventoryIdPhoto => Some (Contract.SetPhotoRef k photo)
  | DeleteInventoryId => Some (Contract.Delete k)
  | PostSearch =>
      Some (Contract.Search k (strict_eq_str (get_prop (req_body req) "has_photo") "on"))
  end.

(** A name or description as a form sends it: a string, or nothing. *)
Definition textual (v : value) : bool :=
  match v with
  | VUndefined | VNull | VStr _ => true
  | _ => false
  end.

Definition textual_fields (req : request) : bool :=
  textual (get_prop (req_body req) "inventory_name") &&
  textual (get_prop (req_body req) "description").

(** The request's id, as the flat-file variant coerces it, is the integer [k]. *)
Definition flat_reads (r : route) (req : request) (k : Z) : Prop :=
  match r with
  | PostRegister | GetInventory => True
  | PostSearch => parseInt (get_prop (req_body req) "id") = Fin (inject_Z k)
  | _ => Number (params_id req) = Fin (inject_Z k)
  end.

(** The request's id, as the database reads the parameter, is the integer [k]. *)
Definition rel_reads (cfg : Rel.config) (r : route) (req : request) (k : Z) : Prop :=
  match r with
  | PostRegister | GetInventory => True
  | PostSearch =>
      ∃ s, Rel.param (get_prop (req_body req) "id") = Some s ∧ Rel.int_in cfg s = Some k
  | _ => Rel.int_in cfg (params_id req) = Some k
  end.

(** The items a store holds, as the contract sees them. *)
Definition flat_table (s : Flat.state) : Contract.state :=
  {| Contract.items := Flat.deref s <$> Flat.inv_list s;
     Contract.nextId := Flat.inv_nextId s |}.

Definition rel_table (s : Rel.state) : Contract.state :=
  {| Contract.items := Rel.row_obj <$> Rel.rows s;
     Contract.nextId := Rel.serial s |}.

(** The locator each variant builds. *)
Definition flat_url (cfg : Flat.config) (path : string) : string :=
  "http://" +:+ Flat.host cfg +:+ ":" +:+ Flat.port cfg +:+ path.

Definition rel_url (path : string) : string := path.

(** Two stores hold the same items and the same counter, in whatever order
    each backend keeps them. *)
Definition same_items (a b : Contract.state) : Prop :=
  Contract.items a ≡ₚ Contract.items b ∧ Contract.nextId a = Contract.nextId b.

Global Instance same_items_dec a b : Decision (same_items a b).
Proof. unfold same_items. apply _. Defined.

(** Two responses are the same, or are lists of the same entries in two
    orders. *)
Definition same_up_to_order (r1 r2 : response) : Prop :=
  match content r1, content r2 with
  | Json (JArray l1), Json (JArray l2) => status r1 = status r2 ∧ l1 ≡ₚ l2
  | _, _ => r1 = r2
  end.

End Refine.

(** ** Orderings of effects, and markers in descriptions *)

Module Order.




(** [s] ends with [suffix]. *)
Definition ends_with (suffix s : string) : bool :=
  String.prefix (String.rev suffix) (String.rev s).

(** A property of a response's JSON object. *)
Definition body_prop (r : response) (k : string) : value :=
  match content r with
  | Json (JObject o) => get_prop o k
  | _ => VUndefined
  end.

(** [s] with every occurrence of [base] taken out, reading left to right. *)
Fixpoint erase_from (fuel : nat) (base s : string) : string :=
  match fuel with
  | O => s
  | S fuel' =>
      if String.prefix base s
      then erase_from fuel' base (String.substring (String.length base)
                                    (String.length s - String.length base) s)
      else match s with
           | EmptyString => EmptyString
           | String c s' => String c (erase_from fuel' base s')
           end
  end.

Definition erase (base s : string) : string := erase_from (String.length s) base s.

Definition erase_value (base : string) (v : value) : value :=
  match v with
  | VStr s => VStr (erase base s)
  | _ => v
  end.

Definition erase_obj (base : string) (o : obj) : obj :=
  List.map (fun kv => (fst kv, erase_value base (snd kv))) o.

(** A response with the photo locator's base taken out of its body. *)
Definition without_base (base : string) (r : response) : response :=
  {| status := status r;
     content := match content r with
                | Json (JObject o) => Json (JObject (erase_obj base o))
                | Json (JArray l) => Json (JArray (List.map (erase_obj base) l))
                | b => b
                end |}.

End Order.

(** ** Stored items, their photo files, and uploads *)

Module Store.
Import Flat FlatRun.

(** A value that is neither [undefined] nor [null]. *)
Definition present (v : value) : bool :=
  match v with
  | VUndefined | VNull => false
  | _ => true
  end.

(** An item as the handlers keep it: [{ id, inventory_name, description,
    photo }] in this order, a number for id, a name and a description that
    are set, [null] or a file name for photo. *)
Definition shaped (o : obj) : bool :=
  match o with
  | [(k1, VNum _); (k2, n); (k3, d); (k4, p)] =>
      String.eqb k1 "id" && String.eqb k2 "inventory_name" &&
      String.eqb k3 "description" && String.eqb k4 "photo" &&
      present n && present d &&
      match p with VNull | VStr _ => true | _ => false end
  | _ => false
  end.

(** Every stored item has this shape. *)
Definition shaped_all (s : state) : Prop :=
  ∀ l, l ∈ inv_list s → shaped (deref s l) = true.

(** A history in which every request sends its name and its description as
    text, the way a form does, or not at all. *)
Definition textual_op (o : op) : bool :=
  match o with
  | Call _ req => Refine.textual_fields req
  | Reboot => true
  end.

Definition textual_history (ops : list op) : bool := forallb textual_op ops.

(** An item whose name and description are strings. *)
Definition text_shaped (o : obj) : bool :=
  match o with
  | [(k1, VNum _); (k2, VStr _); (k3, VStr _); (k4, p)] =>
      String.eqb k1 "id" && String.eqb k2 "inventory_name" &&
      String.eqb k3 "description" && String.eqb k4 "photo" &&
      match p with VNull | VStr _ => true | _ => false end
  | _ => false
  end.

Definition text_shaped_all (s : state) : Prop :=
  ∀ l, l ∈ inv_list s → text_shaped (deref s l) = true.

(** The number an item carries as its id. *)
Definition id_of (o : obj) : Z :=
  match get_prop o "id" with
  | VNum k => k
  | _ => 0
  end.

(** The ids of the stored items, as numbers, in list order. *)
Definition id_numbers (s : state) : list Z := id_of <$> (deref s <$> inv_list s).

(** The file an item's photo reference names: [path.join(uploadsPath,
    item.photo)]. *)
Definition photo_file (cfg : config) (o : obj) : option string :=
  match get_prop o "photo" with
  | VStr f => Some (path_join (uploadsPath cfg) f)
  | _ => None
  end.

(** The files the stored items reference, in list order. *)
Definition referenced (cfg : config) (s : state) : list string :=
  omap (fun l => photo_file cfg (deref s l)) (inv_list s).

(** Every photo reference names a file that is on disk, and no two items
    reference the same file. *)
Definition photos_kept (cfg : config) (s : state) : Prop :=
  (∀ l p, l ∈ inv_list s → photo_file cfg (deref s l) = Some p → p ∈ files s) ∧
  (∀ l1 l2 p, l1 ∈ inv_list s → l2 ∈ inv_list s →
              photo_file cfg (deref s l1) = Some p →
              photo_file cfg (deref s l2) = Some p → l1 = l2).

(** The routes that run [upload.single("photo")]. *)
Definition takes_upload (r : route) : bool :=
  match r with
  | PostRegister | PutInventoryIdPhoto => true
  | _ => false
  end.

(** The file multer writes for a request: [req.file.path]. *)
Definition upload_path (cfg : config) (r : route) (req : request) : option string :=
  if takes_upload r then path_join (uploadsPath cfg) <$> req_file req else None.

(** Multer names each upload with a name no file in the uploads directory
    bears at that moment (it draws 16 random bytes). *)
Fixpoint fresh_uploads (cfg : config) (ops : list op) (s : state) : bool :=
  match ops with
  | [] => true
  | o :: ops' =>
      match o with
      | Call r req =>
          match upload_path cfg r req with
          | Some p => bool_decide (p ∉ files s)
          | None => true
          end
      | Reboot => true
      end && fresh_uploads cfg ops' (step cfg o s)
  end.

(** The routes that only read the inventory. *)
Definition reads_only (r : route) : bool :=
  match r with
  | GetInventory | GetInventoryId | GetInventoryIdPhoto | PostSearch => true
  | _ => false
  end.

(** A registration that [register] turns down. *)
Definition rejected (r : route) (req : request) : bool :=
  match r with
  | PostRegister => negb (truthy (get_prop (req_body req) "inventory_name"))
  | _ => false
  end.

(** What may follow the digits [parseInt] reads: nothing, or a character
    that is no decimal digit. *)
Definition stops (t : string) : bool :=
  match t with
  | EmptyString => true
  | String c _ =>
      match digit_of 10 c with
      | Some _ => false
      | None => true
      end
  end.

(** The store a request leaves behind, the objects built for the response
    aside. *)
Definition effect (cfg : config) (r : route) (req : request) (s : state) : state :=
  match r with
  | PostRegister =>
      if truthy (get_prop (req_body req) "inventory_name")
      then registered req (uploaded cfg req s)
      else uploaded cfg req s
  | PutInventoryId =>
      match found (Number (params_id req)) s with
      | Some item => updated req item s
      | None => s
      end
  | PutInventoryIdPhoto =>
      let u := uploaded cfg req s in
      match found (Number (params_id req)) u with
      | Some item => replaced cfg req item u
      | None =>
          match req_file req with
          | Some f => with_files (files u ∖ {[path_join (uploadsPath cfg) f]}) u
          | None => u
          end
      end
  | DeleteInventoryId =>
      match found (Number (params_id req)) s with
      | Some item => deleted cfg item s
      | None => s
      end
  | _ => s
  end.

End Store.

(** ** The relational variant when queries fail *)

Module Faults.
Import Rel.

(** The files the rows reference. *)
Definition referenced (cfg : config) (s : state) : list string :=
  omap (fun r => path_join (CACHE cfg) <$> photo r) (rows s).

(** The file multer writes for a request. *)
Definition upload_path (cfg : config) (r : route) (req : request) : option string :=
  if Store.takes_upload r then path_join (CACHE cfg) <$> req_file req else None.

(** The value a route hands to [WHERE id = $1]. *)
Definition id_param (r : route) (req : request) : value :=
  match r with
  | PostSearch => get_prop (req_body req) "id"
  | _ => VStr (params_id req)
  end.

(** The first statement a route issues. *)
Definition first_query (r : route) (req : request) : query :=
  match r with
  | PostRegister =>
      Insert (get_prop (req_body req) "inventory_name")
             (if negb (truthy (get_prop (req_body req) "description")) then VStr ""
              else get_prop (req_body req) "description")
             (match req_file req with Some f => VStr f | None => VNull end)
  | GetInventory => SelectAll
  | _ => SelectById (id_param r req)
  end.

(** The fault plan makes the coming query throw. *)
Definition planned_fault (s : state) : bool :=
  match faults s with
  | true :: _ => true
  | _ => false
  end.

(** The store once a query has used up its entry of the fault plan. *)
Definition spent (s : state) : state := with_faults (tail (faults s)) s.

(** The store after [if (req.file) fs.unlinkSync(req.file.path)]. *)
Definition discarded (cfg : config) (req : request) (s : state) : state :=
  match req_file req with
  | Some f => with_files (files s ∖ {[path_join (CACHE cfg) f]}) s
  | None => s
  end.

(** The first query of the request throws: the fault plan says so, or the
    database does not read the id. *)
Definition first_query_fails (cfg : config) (r : route) (req : request) (s : state) : bool :=
  match faults s with
  | true :: _ => true
  | _ =>
      match first_query r req with
      | SelectById i =>
          match where_id cfg i with
          | Some _ => false
          | None => true
          end
      | _ => false
      end
  end.

End Faults.

(** ** A concrete deployment, for worked examples *)

Module Example.

(** The service started in its own directory with a relative cache path,
    as the Dockerfile starts it ([WORKDIR /app], [-c ./cache]): under
    [__dirname] Express finds the very file the process names [p]. *)
Definition in_place (p : string) (fs : gset string) : response :=
  if bool_decide (p ∈ fs) then {| status := 200; content := File p |}
  else {| status := 404; content := ErrorPage |}.

Definition flat_cfg : Flat.config :=
  {| Flat.host := "localhost"; Flat.port := "3000"; Flat.uploadsPath := "cache/uploads";
     Flat.sendFile := in_place |}.

(** A database that reads plain decimal numerals and rejects anything else. *)
Definition decimal (s : string) : option Z :=
  match span_digits 10 s 0 0 with
  | (v, cnt, EmptyString) => if 0 <? cnt then Some v else None
  | _ => None
  end.

(** A database that lists its rows oldest first, and one that lists them
    newest first. *)
Definition rel_cfg : Rel.config :=
  {| Rel.CACHE := "cache"; Rel.int_in := decimal;
     Rel.scan := fun l => l; Rel.scan_all := fun l => Permutation_refl l;
     Rel.sendFile := in_place |}.

Definition rel_cfg_newest_first : Rel.config :=
  {| Rel.CACHE := "cache"; Rel.int_in := decimal;
     Rel.scan := @List.rev Rel.row;
     Rel.scan_all := fun l => Permutation_sym (Permutation_rev l);
     Rel.sendFile := in_place |}.

Definition req (id : string) (fields : obj) (file : option string) : request :=
  {| params_id := id; req_body := fields; req_file := file |}.

(** A saw registered with a photo, on each variant. *)
Definition saw : request := req "" [("inventory_name", VStr "Saw")] (Some "8f3a").

Definition flat_saw : Flat.state := FlatRun.run flat_cfg [FlatRun.Call PostRegister saw] Flat.init.

Definition rel_saw : Rel.state := (Rel.serve rel_cfg PostRegister saw Rel.init).1.2.

(** A drill registered without a photo. *)
Definition drill : request :=
  req "" [("inventory_name", VStr "Drill"); ("description", VStr "cordless")] None.

Definition flat_drill : Flat.state :=
  FlatRun.run flat_cfg [FlatRun.Call PostRegister drill] Flat.init.

Definition rel_drill : Rel.state := (Rel.serve rel_cfg PostRegister drill Rel.init).1.2.

(** A short history: two registrations, a deletion, a third registration. *)
Definition history : list FlatRun.op :=
  [FlatRun.Call PostRegister saw; FlatRun.Call PostRegister drill;
   FlatRun.Call DeleteInventoryId (req "1" [] None); FlatRun.Call PostRegister saw].

(** The same history, and a restart at its end. *)
Definition history_then_restart : list FlatRun.op := history ++ [FlatRun.Reboot].

(** Requests against the saw. *)
Definition new_photo : request := req "1" [] (Some "b7c1").
Definition by_id : request := req "1" [] None.
Definition by_hex_id : request := req "0x1" [] None.
Definition hinted_search : request :=
  req "" [("id", VStr "1"); ("has_photo", VStr "on")] None.
Definition rename : request := req "1" [("inventory_name", VStr "Hand saw")] None.
Definition unname : request := req "1" [("inventory_name", VStr "")] None.
Definition unnamed : request := req "" [("description", VStr "no name")] (Some "c09d").

(** The saw, then the drill. *)
Definition flat_both : Flat.state :=
  FlatRun.run flat_cfg [FlatRun.Call PostRegister saw; FlatRun.Call PostRegister drill]
    Flat.init.

(** More requests: by the drill's id, by an id that is no numeral, a search
    whose id has text after the digits, and the fault plan "the first query
    succeeds, the second throws" laid on the saw's table. *)
Definition by_id_2 : request := req "2" [] None.
Definition by_id_3 : request := req "3" [] None.
Definition by_word : request := req "abc" [] None.
Definition sloppy_search : request := req "" [("id", VStr "1 saw")] None.
Definition rel_saw_failing : Rel.state := Rel.with_faults [false; true] rel_saw.

(** The saw, then the drill, in the relational table; and a request for the
    list. *)
Definition rel_both : Rel.state := (Rel.serve rel_cfg PostRegister drill rel_saw).1.2.
Definition everything : request := req "" [] None.

End Example.

(** * Proofs *)

(** ** Facts about objects *)

Lemma get_set_prop_eq (o : obj) k v : get_prop (set_prop o k v) k = v.
Proof.
  induction o as [|[k' v'] o IH]; simpl.
  - by rewrite String.eqb_refl.
  - destruct (String.eqb k' k) eqn:E; simpl.
    + by rewrite String.eqb_refl.
    + by rewrite E.
Qed.

Lemma get_set_prop_ne (o : obj) k k' v :
  k ≠ k' → get_prop (set_prop o k v) k' = get_prop o k'.
Proof.
  intros Hne. induction o as [|[k0 v0] o IH]; simpl.
  - destruct (String.eqb k k') eqn:E; [apply String.eqb_eq in E; done | done].
  - destruct (String.eqb k0 k) eqn:E; simpl.
    + apply String.eqb_eq in E as ->.
      destruct (String.eqb k k') eqn:E'; [apply String.eqb_eq in E'; done | done].
    + destruct (String.eqb k0 k'); done.
Qed.

Lemma get_prop_to_json (o : obj) k :
  get_prop o k ≠ VUndefined → get_prop (to_json o) k = get_prop o k.
Proof.
  induction o as [|[k0 v0] o IH]; simpl; [done|].
  destruct (String.eqb k0 k) eqn:E.
  - intros Hv. destruct (decide (v0 = VUndefined)); [done|]. simpl. by rewrite E.
  - intros Hv. destruct (decide (v0 = VUndefined)); simpl; [auto|].
    rewrite E. auto.
Qed.

Lemma to_json_idem (o : obj) : to_json (to_json o) = to_json o.
Proof.
  unfold to_json. induction o as [|[k v] o IH]; simpl; [done|].
  destruct (decide (v = VUndefined)) as [|Hn]; simpl; [done|].
  destruct (decide (v = VUndefined)); [done|]. by rewrite IH.
Qed.

Lemma get_without_prop_ne (o : obj) k k' :
  k ≠ k' → get_prop (without_prop o k) k' = get_prop o k'.
Proof.
  intros Hne. unfold without_prop. induction o as [|[k0 v0] o IH]; simpl; [done|].
  destruct (String.eqb k0 k) eqn:E; simpl.
  - apply String.eqb_eq in E as ->.
    destruct (String.eqb k k') eqn:E'; [apply String.eqb_eq in E'; done | done].
  - destruct (String.eqb k0 k'); done.
Qed.

Lemma strict_eq_num_NaN v : strict_eq_num v NaN = false.
Proof. by destruct v. Qed.

(** ** The flat-file store: frames and invariants *)

Ltac solve_extends :=
  split; [simpl; rewrite <- ?app_assoc;
          try rewrite alter_app_r_alt by (rewrite ?length_app; simpl; lia);
          by eexists
         | done].

(** One step of a handler: run the first statement of a [let*] chain. *)
Tactic Notation "mstep" reference(f) :=
  unfold bind at 1; unfold f at 1; cbv beta iota zeta.
Tactic Notation "mstep" reference(f) reference(g) :=
  unfold bind at 1; unfold f at 1; unfold g at 1; cbv beta iota zeta.

Ltac proj_simpl :=
  cbn [Flat.heap Flat.inv_list Flat.inv_nextId Flat.dbFile Flat.files
       Flat.with_heap Flat.with_nextId Flat.with_list Flat.with_dbFile
       Flat.with_files] in *.

Section FlatFacts.
Import Flat FlatRun.
Context (cfg : config).

Local Abbreviation formatted := (formatted cfg).
Local Abbreviation drop_photo := (drop_photo cfg).
Local Abbreviation replaced := (replaced cfg).
Local Abbreviation deleted := (deleted cfg).
Local Abbreviation answer := (answer cfg).
Local Abbreviation answered := (answered cfg).
Local Abbreviation uploaded := (uploaded cfg).

Lemma formatItemResponse_run item s :
  formatItemResponse cfg item s =
  (length (heap s), with_heap (heap s ++ [formatted (deref s item)]) s, []).
Proof. reflexivity. Qed.

Lemma extends_refl s : extends s s.
Proof. split; [exists []; by rewrite app_nil_r | done]. Qed.

Lemma extends_trans s1 s2 s3 : extends s1 s2 → extends s2 s3 → extends s1 s3.
Proof.
  intros ([m1 Hm1] & ? & ? & ? & ?) ([m2 Hm2] & ? & ? & ? & ?).
  split; [exists (m1 ++ m2); by rewrite Hm2, Hm1, app_assoc | ].
  repeat split; congruence.
Qed.

Lemma extends_alloc s more : extends s (with_heap (heap s ++ more) s).
Proof. split; [by exists more | done]. Qed.

Lemma extends_deref s s' l :
  extends s s' → (l < length (heap s))%nat → deref s' l = deref s l.
Proof.
  intros ([m H] & _) Hl. unfold deref. by rewrite H, lookup_app_l.
Qed.

Lemma extends_stringify s s' :
  (∀ l, l ∈ inv_list s → (l < length (heap s))%nat) →
  extends s s' → stringify s' = stringify s.
Proof.
  intros Hl E. pose proof E as (_ & Hn & Hi & _).
  unfold stringify. rewrite Hn, Hi. f_equal.
  apply map_ext_in. intros l Hin. f_equal. apply extends_deref; [done|].
  apply Hl. by apply list_elem_of_In.
Qed.

Lemma wf_extends s s' : wf s → extends s s' → wf s'.
Proof.
  intros W E. pose proof E as ([m Hh] & Hn & Hi & Hd & Hf).
  destruct W as [Wl Wn Wd Wx Wi]. constructor.
  - intros l. rewrite Hi, Hh, length_app. intros ?%Wl. lia.
  - by rewrite Hi.
  - rewrite Hd, Wd. symmetry. by apply extends_stringify.
  - by rewrite Hn.
  - rewrite Hn, Hi. intros Hb. destruct (Wi Hb) as [Wa Wb].
    assert (∀ l, l ∈ inv_list s → item_id s' l = item_id s l) as Hid.
    { intros l Hl. unfold item_id. f_equal. apply extends_deref; auto. }
    split.
    + intros l Hl. rewrite Hid by done. auto.
    + intros l1 l2 H1 H2. rewrite !Hid by done. auto.
Qed.

(** [find] reads the same in an extended store. *)
Lemma extends_find s s' n :
  (∀ l, l ∈ inv_list s → (l < length (heap s))%nat) →
  extends s s' → fst (fst (find n s')) = fst (fst (find n s)).
Proof.
  intros Hl E. pose proof E as (_ & _ & Hi & _). unfold find, gets. simpl.
  rewrite Hi. revert Hl. generalize (inv_list s) as ls.
  induction ls as [|l ls IH]; intros Hl; simpl; [done|].
  rewrite (extends_deref s s' l) by (try done; apply Hl; left).
  destruct (strict_eq_num _ _); [done|]. apply IH. intros; apply Hl. by right.
Qed.

Lemma mapM_format_extends ls s :
  let '(vs, s', t) := mapM (formatItemResponse cfg) ls s in
  extends s s' ∧ t = [].
Proof.
  revert s. induction ls as [|l ls IH]; intros s; simpl.
  - split; [apply extends_refl | done].
  - unfold bind at 1. rewrite formatItemResponse_run.
    unfold bind at 1.
    specialize (IH (with_heap (heap s ++ [formatted (deref s l)]) s)).
    destruct (mapM _ ls _) as [[vs s'] t]. simpl.
    destruct IH as [E ->]. split; [|done].
    eapply extends_trans; [apply extends_alloc | exact E].
Qed.

Lemma mapM_read_pure ls s :
  mapM read ls s = (deref s <$> ls, s, []).
Proof.
  induction ls as [|l ls IH]; simpl; [done|].
  unfold bind. simpl. by rewrite IH.
Qed.

(** The reading routes change nothing but the heap's fresh objects, and have
    no outside effect. *)
Lemma list_all_frame req s :
  let '(r, s', t) := list_all cfg req s in extends s s' ∧ t = [].
Proof.
  unfold list_all, bind at 1, gets. unfold bind at 1.
  pose proof (mapM_format_extends (inv_list s) s) as H.
  destruct (mapM _ _ s) as [[vs s1] t1]. destruct H as [E ->].
  unfold bind. rewrite mapM_read_pure. simpl. done.
Qed.

Lemma get_item_frame req s :
  let '(r, s', t) := get_item cfg req s in extends s s' ∧ t = [].
Proof.
  unfold get_item, bind, find, gets.
  destruct (List.find _ _); simpl.
  - split; [apply extends_alloc | done].
  - split; [apply extends_refl | done].
Qed.

Lemma get_photo_frame req s :
  let '(r, s', t) := get_photo cfg req s in extends s s' ∧ t = [].
Proof.
  unfold get_photo, bind, find, gets.
  destruct (List.find _ _); simpl.
  - destruct (decide _); simpl; [split; [apply extends_refl | done]|].
    destruct (bool_decide _); simpl; (split; [apply extends_refl | done]).
  - split; [apply extends_refl | done].
Qed.


Lemma search_frame req s :
  let '(r, s', t) := search cfg req s in extends s s' ∧ t = [].
Proof.
  unfold search, bind, find, gets.
  destruct (List.find _ _); simpl; [|split; [apply extends_refl | done]].
  destruct (strict_eq_str _ _); simpl.
  - destruct (truthy _); simpl; (split; [solve_extends|done]).
  - split; [solve_extends|done].
Qed.

(** The tail of every handler that answers with an item. *)
Lemma respond_run item s :
  bind (formatItemResponse cfg item) (json_obj 200) s =
  ({| status := 200; content := Json (JObject (to_json (formatted (deref s item)))) |},
   with_heap (heap s ++ [formatted (deref s item)]) s, []).
Proof.
  unfold bind. rewrite formatItemResponse_run.
  unfold json_obj, bind, read, gets, send, ret, deref. cbn [heap with_heap].
  by rewrite lookup_app_r, Nat.sub_diag by done.
Qed.



(** *** The writing routes *)

Lemma item_id_heap s l : item_id s l = heap_id (heap s) l.
Proof. reflexivity. Qed.

Lemma heap_id_alter h f i l :
  (∀ o, get_prop (f o) "id" = get_prop o "id") →
  heap_id (alter f i h) l = heap_id h l.
Proof.
  intros Hf. unfold heap_id.
  destruct (decide (i = l)) as [->|Hne].
  - rewrite list_lookup_alter_eq. destruct (h !! l) eqn:E; simpl; auto.
  - by rewrite list_lookup_alter_ne.
Qed.

Lemma heap_id_set h k v i l :
  k ≠ "id" → heap_id (alter (λ o, set_prop o k v) i h) l = heap_id h l.
Proof. intros. apply heap_id_alter. intros. by apply get_set_prop_ne. Qed.

(** Rewriting the file re-establishes [dbFile = stringify]; the rest of the
    invariant speaks of the memory only. *)
Lemma wf_written s :
  (∀ l, l ∈ inv_list s → (l < length (heap s))%nat) →
  NoDup (inv_list s) →
  1 <= inv_nextId s <= 2 ^ 53 →
  (inv_nextId s < 2 ^ 53 →
   (∀ l, l ∈ inv_list s → ∃ k, item_id s l = VNum k ∧ 1 <= k < inv_nextId s) ∧
   (∀ l1 l2, l1 ∈ inv_list s → l2 ∈ inv_list s →
             item_id s l1 = item_id s l2 → l1 = l2)) →
  wf (with_dbFile (stringify s) s).
Proof. intros. by constructor. Qed.

Lemma register_run req s :
  truthy (get_prop (req_body req) "inventory_name") = true →
  register cfg req s =
  ({| status := 200; content := Json (JObject (to_json (formatted (new_item req s)))) |},
   with_heap (heap (registered req s) ++ [formatted (new_item req s)]) (registered req s),
   [WriteDb (dbFile (registered req s))]).
Proof.
  intros Hn. unfold register. rewrite Hn. cbn [negb].
  assert (deref (registered req s) (length (heap s)) = new_item req s) as Hd.
  { unfold deref. cbn [heap registered with_dbFile with_list with_heap].
    by rewrite lookup_app_r, Nat.sub_diag by done. }
  mstep gets. mstep modify. mstep alloc. mstep modify. mstep writeFileSync.
  rewrite respond_run. cbv beta iota zeta. proj_simpl.
  change (with_dbFile _ _) with (registered req s).
  rewrite Hd. reflexivity.
Qed.

Lemma register_reject req s :
  truthy (get_prop (req_body req) "inventory_name") = false →
  register cfg req s = ({| status := 400; content := Text "Name required" |}, s, []).
Proof. intros Hn. unfold register. by rewrite Hn. Qed.

Lemma add1_bounds n : 1 <= n <= 2 ^ 53 → 1 <= add1 n <= 2 ^ 53 ∧ n <= add1 n.
Proof. unfold add1. destruct (Z.ltb_spec n (2 ^ 53)); lia. Qed.

Lemma add1_lt n : add1 n < 2 ^ 53 → add1 n = n + 1.
Proof. unfold add1. destruct (Z.ltb_spec n (2 ^ 53)); lia. Qed.

Lemma wf_registered req s : wf s → wf (registered req s).
Proof.
  intros [Wl Wn Wd Wx Wi]. apply wf_written; simpl.
  - intros l [?%Wl | ->%list_elem_of_singleton]%elem_of_app;
      rewrite length_app; simpl; lia.
  - apply NoDup_app. split; [done|]. split; [|apply NoDup_singleton].
    intros l ?%Wl ->%list_elem_of_singleton. lia.
  - by apply add1_bounds.
  - intros Hb. pose proof (add1_lt _ Hb) as Ha. rewrite Ha in *.
    destruct Wi as [Wa Wb]; [lia|].
    assert (∀ l, l ∈ inv_list s →
              item_id (with_list (inv_list s ++ [length (heap s)])
                (with_heap (heap s ++ [new_item req s])
                   (with_nextId (inv_nextId s + 1) s))) l = item_id s l) as Hold.
    { intros l ?%Wl. unfold item_id, deref. simpl. by rewrite lookup_app_l. }
    assert (item_id (with_list (inv_list s ++ [length (heap s)])
                (with_heap (heap s ++ [new_item req s])
                   (with_nextId (inv_nextId s + 1) s))) (length (heap s))
            = VNum (inv_nextId s)) as Hnew.
    { unfold item_id, deref. simpl.
      by rewrite lookup_app_r, Nat.sub_diag by done. }
    split.
    + intros l [Hl | ->%list_elem_of_singleton]%elem_of_app.
      * rewrite Hold by done. destruct (Wa l Hl) as (k & -> & ?).
        exists k. split; [done | lia].
      * rewrite Hnew. exists (inv_nextId s). split; [done | lia].
    + intros l1 l2 [H1 | ->%list_elem_of_singleton]%elem_of_app
                   [H2 | ->%list_elem_of_singleton]%elem_of_app; [| | |done].
      * rewrite !Hold by done. auto.
      * rewrite Hold, Hnew by done. destruct (Wa l1 H1) as (k & -> & ?).
        intros [= ->]. lia.
      * rewrite Hnew, Hold by done. destruct (Wa l2 H2) as (k & -> & ?).
        intros [= <-]. lia.
Qed.

Lemma find_run n s : find n s = (found n s, s, []).
Proof. reflexivity. Qed.

Lemma found_elem n s l : found n s = Some l → l ∈ inv_list s.
Proof. intros H%find_some. apply list_elem_of_In. tauto. Qed.

Lemma found_id n s l :
  found n s = Some l → strict_eq_num (item_id s l) n = true.
Proof. intros H%find_some. tauto. Qed.

Lemma drop_photo_run (o : obj) s :
  (if truthy (get_prop o "photo") then
     let oldPhotoPath := path_join (uploadsPath cfg) (to_string (get_prop o "photo")) in
     let* there := existsSync oldPhotoPath in
     if there then unlinkSync oldPhotoPath else ret tt
   else ret tt) s = (tt, (drop_photo o s).1, (drop_photo o s).2).
Proof.
  unfold drop_photo. destruct (truthy _); [|done].
  cbv zeta. unfold bind, existsSync, gets.
  destruct (bool_decide _); done.
Qed.

Lemma drop_photo_mem o s :
  heap (drop_photo o s).1 = heap s ∧ inv_list (drop_photo o s).1 = inv_list s ∧
  inv_nextId (drop_photo o s).1 = inv_nextId s ∧ dbFile (drop_photo o s).1 = dbFile s.
Proof.
  unfold drop_photo. destruct (truthy _); [|done]. cbv zeta.
  destruct (bool_decide _); done.
Qed.

Lemma update_run req s item :
  found (Number (params_id req)) s = Some item →
  update cfg req s =
  (answer (updated req item s) item, answered (updated req item s) item,
   [WriteDb (dbFile (updated req item s))]).
Proof.
  intros Hf. unfold update. cbv zeta.
  unfold bind at 1. rewrite find_run, Hf. cbv beta iota zeta.
  mstep read gets. mstep assign modify. mstep read gets. mstep assign modify. mstep writeFileSync.
  rewrite respond_run. reflexivity.
Qed.

Lemma update_absent req s :
  found (Number (params_id req)) s = None → req_file req = None →
  update cfg req s = (absent, s, []).
Proof.
  intros Hf Hn. unfold update. cbv zeta.
  unfold bind at 1. rewrite find_run, Hf, Hn. reflexivity.
Qed.

Lemma replace_photo_run req s item :
  found (Number (params_id req)) s = Some item →
  replace_photo cfg req s =
  (answer (replaced req item s) item, answered (replaced req item s) item,
   (drop_photo (deref s item) s).2 ++ [WriteDb (dbFile (replaced req item s))]).
Proof.
  intros Hf. unfold replace_photo. cbv zeta.
  unfold bind at 1. rewrite find_run, Hf. cbv beta iota zeta.
  mstep read gets. unfold bind at 1. rewrite drop_photo_run. cbv beta iota zeta.
  mstep assign modify. mstep writeFileSync.
  rewrite respond_run. cbn [app]. reflexivity.
Qed.

Lemma replace_photo_absent req s :
  found (Number (params_id req)) s = None →
  replace_photo cfg req s =
  match req_file req with
  | Some f => (absent, with_files (files s ∖ {[path_join (uploadsPath cfg) f]}) s,
               [Unlink (path_join (uploadsPath cfg) f)])
  | None => (absent, s, [])
  end.
Proof.
  intros Hf. unfold replace_photo. cbv zeta.
  unfold bind at 1. rewrite find_run, Hf. destruct (req_file req); reflexivity.
Qed.

Lemma delete_run req s item :
  found (Number (params_id req)) s = Some item →
  delete cfg req s =
  ({| status := 200; content := Empty |}, deleted item s,
   (drop_photo (deref s item) s).2 ++ [WriteDb (dbFile (deleted item s))]).
Proof.
  intros Hf. unfold delete. cbv zeta.
  unfold bind at 1. rewrite find_run, Hf. cbv beta iota zeta.
  mstep read gets. unfold bind at 1. rewrite drop_photo_run. cbv beta iota zeta.
  mstep modify. mstep writeFileSync. reflexivity.
Qed.

Lemma delete_absent req s :
  found (Number (params_id req)) s = None →
  delete cfg req s = (absent, s, []).
Proof.
  intros Hf. unfold delete. cbv zeta.
  unfold bind at 1. by rewrite find_run, Hf.
Qed.

Lemma wf_with_files f s : wf s → wf (with_files f s).
Proof. intros [? ? ? ? ?]. by constructor. Qed.

Lemma wf_drop_photo o s : wf s → wf (drop_photo o s).1.
Proof.
  intros W. unfold drop_photo. destruct (truthy _); [|done]. cbv zeta.
  destruct (bool_decide _); [|done]. by apply wf_with_files.
Qed.

Lemma wf_answered s item : wf s → wf (answered s item).
Proof. intros W. eapply wf_extends; [done | apply extends_alloc]. Qed.

Lemma wf_updated req item s : wf s → wf (updated req item s).
Proof.
  intros [Wl Wn Wd Wx Wi]. apply wf_written; proj_simpl.
  - intros l ?%Wl. by rewrite !length_alter.
  - done.
  - done.
  - intros Hb. destruct (Wi Hb) as [Wa Wb].
    setoid_rewrite item_id_heap. proj_simpl.
    repeat (setoid_rewrite heap_id_set; [|done..]). split; [exact Wa | exact Wb].
Qed.

Lemma wf_replaced req item s : wf s → wf (replaced req item s).
Proof.
  intros W. unfold replaced. cbv zeta.
  pose proof (wf_drop_photo (deref s item) s W) as W1.
  generalize dependent ((drop_photo (deref s item) s).1). intros s1 [Wl Wn Wd Wx Wi].
  apply wf_written; proj_simpl.
  - intros l ?%Wl. by rewrite !length_alter.
  - done.
  - done.
  - intros Hb. destruct (Wi Hb) as [Wa Wb].
    setoid_rewrite item_id_heap. proj_simpl.
    repeat (setoid_rewrite heap_id_set; [|done..]). split; [exact Wa | exact Wb].
Qed.

Lemma wf_deleted item s : wf s → wf (deleted item s).
Proof.
  intros W. unfold deleted. cbv zeta.
  pose proof (wf_drop_photo (deref s item) s W) as W1.
  generalize dependent ((drop_photo (deref s item) s).1). intros s1 [Wl Wn Wd Wx Wi].
  assert (∀ l, l ∈ List.filter (λ i, negb (i =? item)%nat) (inv_list s1) →
               l ∈ inv_list s1) as Hsub.
  { intros l Hl%list_elem_of_In%filter_In. apply list_elem_of_In. tauto. }
  apply wf_written; proj_simpl.
  - intros l ?%Hsub. auto.
  - by apply NoDup_ListNoDup, List.NoDup_filter, NoDup_ListNoDup.
  - done.
  - intros Hb. destruct (Wi Hb) as [Wa Wb]. split.
    + intros l ?%Hsub. by apply Wa.
    + intros l1 l2 ?%Hsub ?%Hsub. by apply Wb.
Qed.

Lemma lookup_seq_app {A} (g : A → A) (h m : list A) (d : A) :
  List.map (λ l, g (default d ((h ++ m) !! l))) (seq (length h) (length m)) =
  List.map g m.
Proof.
  revert h. induction m as [|x m IH]; intros h; [done|].
  simpl. rewrite lookup_app_r, Nat.sub_diag by done. simpl. f_equal.
  specialize (IH (h ++ [x])). rewrite length_app in IH. simpl in IH.
  rewrite Nat.add_1_r, <- app_assoc in IH. exact IH.
Qed.

Lemma wf_restart s : wf s → wf (restart s).
Proof.
  intros [Wl Wn Wd Wx Wi].
  assert (∀ i l, inv_list s !! i = Some l →
            deref (restart s) (length (heap s) + i) = to_json (deref s l)) as Hd.
  { intros i l Hi. unfold deref at 1, restart. proj_simpl.
    rewrite lookup_app_r, Nat.add_comm, Nat.add_sub by lia.
    rewrite Wd. unfold stringify. cbn [snap_list].
    change (List.map ?f ?l) with (f <$> l).
    by rewrite list_lookup_fmap, Hi. }
  assert (length (snap_list (dbFile s)) = length (inv_list s)) as Hlen.
  { rewrite Wd. unfold stringify. cbn [snap_list]. by rewrite length_map. }
  constructor.
  - unfold restart. proj_simpl. intros l [? ?]%elem_of_seq. rewrite length_app. lia.
  - unfold restart. proj_simpl. apply NoDup_seq.
  - unfold restart at 1. proj_simpl. unfold stringify, restart, deref. proj_simpl.
    rewrite (lookup_seq_app to_json). rewrite Wd. unfold stringify.
    cbn [snap_list snap_nextId]. f_equal.
    rewrite List.map_map. apply map_ext. intros. by rewrite to_json_idem.
  - unfold restart. proj_simpl. rewrite Wd. done.
  - assert (inv_nextId (restart s) = inv_nextId s) as Hn.
    { unfold restart. proj_simpl. by rewrite Wd. }
    rewrite Hn. intros Hb. destruct (Wi Hb) as [Wa Wb].
    assert (∀ l', l' ∈ inv_list (restart s) →
              ∃ i l, l' = (length (heap s) + i)%nat ∧ inv_list s !! i = Some l ∧
                     item_id (restart s) l' = item_id s l) as Hnew.
    { unfold restart at 1. proj_simpl. intros l' [? ?]%elem_of_seq.
      destruct (lookup_lt_is_Some_2 (inv_list s) (l' - length (heap s))) as [l Hl]; [lia|].
      exists (l' - length (heap s))%nat, l.
      split; [lia|]. split; [done|].
      replace l' with (length (heap s) + (l' - length (heap s)))%nat at 1 by lia.
      unfold item_id. rewrite (Hd _ _ Hl).
      destruct (Wa l) as (k & Hk & _); [by eapply list_elem_of_lookup_2|].
      unfold item_id in Hk. rewrite get_prop_to_json; [done|]. by rewrite Hk. }
    split.
    + intros l' (i & l & -> & Hi & ->)%Hnew. apply Wa. by eapply list_elem_of_lookup_2.
    + intros l1 l2 (i1 & m1 & -> & Hi1 & ->)%Hnew (i2 & m2 & -> & Hi2 & ->)%Hnew Heq.
      assert (m1 = m2) as <-.
      { apply Wb; [by eapply list_elem_of_lookup_2 .. | done]. }
      f_equal. eapply NoDup_lookup; eauto.
Qed.

Lemma wf_init : wf init.
Proof.
  constructor.
  - intros l Hl. by apply elem_of_nil in Hl.
  - apply NoDup_nil_2.
  - done.
  - simpl. lia.
  - intros _. split; [intros l Hl | intros l1 l2 Hl]; by apply elem_of_nil in Hl.
Qed.

Lemma upload_single_run req s :
  upload_single cfg req s = (req, uploaded req s, []).
Proof. unfold upload_single, FlatRun.uploaded. by destruct (req_file req). Qed.

Lemma serve_register req s :
  serve cfg PostRegister req s = register cfg req (uploaded req s).
Proof.
  cbn [serve]. unfold bind. rewrite upload_single_run.
  by destruct (register _ _ _) as [[? ?] ?].
Qed.

Lemma serve_replace_photo req s :
  serve cfg PutInventoryIdPhoto req s = replace_photo cfg req (uploaded req s).
Proof.
  cbn [serve]. unfold bind. rewrite upload_single_run.
  by destruct (replace_photo _ _ _) as [[? ?] ?].
Qed.

Lemma wf_uploaded req s : wf s → wf (uploaded req s).
Proof.
  intros W. unfold FlatRun.uploaded. destruct (req_file req); [|done].
  by apply wf_with_files.
Qed.

(** Every request and every restart keeps the invariant. *)
Lemma wf_serve r req s : wf s → wf (serve cfg r req s).1.2.
Proof.
  intros W. destruct r.
  - rewrite serve_register. apply wf_uploaded with (req := req) in W.
    destruct (truthy (get_prop (req_body req) "inventory_name")) eqn:Hn.
    + rewrite register_run by done. cbn [fst snd].
      eapply wf_extends; [apply wf_registered, W | apply extends_alloc].
    + by rewrite register_reject.
  - pose proof (list_all_frame (no_upload req) s) as H. cbn [serve].
    destruct (list_all _ _ _) as [[? ?] ?]. eapply wf_extends; [done | apply H].
  - pose proof (get_item_frame (no_upload req) s) as H. cbn [serve].
    destruct (get_item _ _ _) as [[? ?] ?]. eapply wf_extends; [done | apply H].
  - cbn [serve].
    destruct (found (Number (params_id (no_upload req))) s) as [item|] eqn:Hf.
    + rewrite (update_run _ _ item) by done. apply wf_answered, wf_updated, W.
    + by rewrite update_absent.
  - pose proof (get_photo_frame (no_upload req) s) as H. cbn [serve].
    destruct (get_photo _ _ _) as [[? ?] ?]. eapply wf_extends; [done | apply H].
  - rewrite serve_replace_photo. apply wf_uploaded with (req := req) in W.
    destruct (found (Number (params_id req)) (uploaded req s)) as [item|] eqn:Hf.
    + rewrite (replace_photo_run _ _ item) by done. apply wf_answered, wf_replaced, W.
    + rewrite replace_photo_absent by done.
      destruct (req_file req); [by apply wf_with_files | done].
  - cbn [serve].
    destruct (found (Number (params_id (no_upload req))) s) as [item|] eqn:Hf.
    + rewrite (delete_run _ _ item) by done. apply wf_deleted, W.
    + by rewrite delete_absent.
  - pose proof (search_frame (no_upload req) s) as H. cbn [serve].
    destruct (search _ _ _) as [[? ?] ?]. eapply wf_extends; [done | apply H].
Qed.

Lemma wf_step o s : wf s → wf (step cfg o s).
Proof. destruct o; [apply wf_serve | apply wf_restart]. Qed.

Lemma wf_run ops s : wf s → wf (run cfg ops s).
Proof.
  revert s. induction ops as [|o ops IH]; intros s W; [done|].
  apply IH, wf_step, W.
Qed.

End FlatFacts.

Section FlatCounter.
Import Flat FlatRun.
Context (cfg : config).

Local Abbreviation formatted := (formatted cfg).
Local Abbreviation answer := (answer cfg).
Local Abbreviation answered := (answered cfg).

Lemma get_item_run req s :
  get_item cfg req s =
  match found (Number (params_id req)) s with
  | Some item => (answer s item, answered s item, [])
  | None => (absent, s, [])
  end.
Proof.
  unfold get_item. cbv zeta. unfold bind at 1. rewrite find_run. cbv beta iota zeta.
  destruct (found _ _); [|reflexivity].
  rewrite (respond_run cfg). reflexivity.
Qed.

(** The counter after one step: a successful registration hands out the
    current [nextId] and advances it; nothing else touches it. *)
Lemma step_counter o s :
  wf s →
  (issued cfg o s = [VNum (inv_nextId s)] ∧
   inv_nextId (step cfg o s) = add1 (inv_nextId s)) ∨
  (issued cfg o s = [] ∧ inv_nextId (step cfg o s) = inv_nextId s).
Proof.
  intros W. destruct o as [r req|]; [|right; split; [done|]].
  2:{ unfold step, restart. cbn [inv_nextId]. by rewrite (wf_disk s W). }
  destruct r; cbn [step issued].
  - rewrite serve_register.
    destruct (truthy (get_prop (req_body req) "inventory_name")) eqn:Hn.
    + left. rewrite register_run by done. cbn [fst snd status Z.eqb Pos.eqb].
      assert (inv_nextId (uploaded cfg req s) = inv_nextId s) as Hu.
      { unfold FlatRun.uploaded. by destruct (req_file req). }
      split; [|cbn; by rewrite Hu].
      unfold body_id, new_item, FlatRun.formatted. cbn [content]. rewrite Hu. simpl.
      destruct (truthy _); reflexivity.
    + right. rewrite register_reject by done.
      unfold FlatRun.uploaded. by destruct (req_file req).
  - right. split; [done|]. pose proof (list_all_frame cfg (no_upload req) s) as H.
    cbn [serve]. destruct (list_all _ _ _) as [[? ?] ?]. apply H.
  - right. split; [done|]. pose proof (get_item_frame cfg (no_upload req) s) as H.
    cbn [serve]. destruct (get_item _ _ _) as [[? ?] ?]. apply H.
  - right. split; [done|]. cbn [serve].
    destruct (found (Number (params_id (no_upload req))) s) as [item|] eqn:Hf.
    + by rewrite (update_run _ _ _ item).
    + by rewrite update_absent.
  - right. split; [done|]. pose proof (get_photo_frame cfg (no_upload req) s) as H.
    cbn [serve]. destruct (get_photo _ _ _) as [[? ?] ?]. apply H.
  - right. split; [done|]. rewrite serve_replace_photo.
    destruct (found (Number (params_id req)) (uploaded cfg req s)) as [item|] eqn:Hf.
    + rewrite (replace_photo_run _ _ _ item) by done. cbn [fst snd].
      unfold FlatRun.answered, FlatRun.replaced. cbv zeta. proj_simpl.
      destruct (drop_photo_mem cfg (deref (uploaded cfg req s) item) (uploaded cfg req s))
        as (_ & _ & -> & _).
      unfold FlatRun.uploaded. by destruct (req_file req).
    + rewrite replace_photo_absent by done.
      unfold FlatRun.uploaded. by destruct (req_file req).
  - right. split; [done|]. cbn [serve].
    destruct (found (Number (params_id (no_upload req))) s) as [item|] eqn:Hf.
    + rewrite (delete_run _ _ _ item) by done. cbn [fst snd].
      unfold FlatRun.deleted. cbv zeta. proj_simpl. apply drop_photo_mem.
    + by rewrite delete_absent.
  - right. split; [done|]. pose proof (search_frame cfg (no_upload req) s) as H.
    cbn [serve]. destruct (search _ _ _) as [[? ?] ?]. apply H.
Qed.

Lemma run_counter ops s :
  wf s → inv_nextId (run cfg ops s) < 2 ^ 53 →
  inv_nextId s <= inv_nextId (run cfg ops s) ∧
  assigned cfg ops s =
    VNum <$> seqZ (inv_nextId s) (inv_nextId (run cfg ops s) - inv_nextId s).
Proof.
  revert s. induction ops as [|o ops IH]; intros s W Hb.
  - simpl. rewrite Z.sub_diag. split; [lia | done].
  - cbn [run fold_left assigned] in *.
    pose proof (wf_step cfg o s W) as W1.
    destruct (IH _ W1 Hb) as [Hle Has]. fold (run cfg ops (step cfg o s)) in *.
    pose proof (wf_next s W) as Hn.
    destruct (step_counter o s W) as [[Hi Hs] | [Hi Hs]]; rewrite Hi, Has, Hs in *.
    + destruct (add1_bounds _ Hn) as [_ ?].
      assert (add1 (inv_nextId s) = inv_nextId s + 1) as Ha by (apply add1_lt; lia).
      rewrite Ha in *. split; [lia|].
      replace (inv_nextId (run cfg ops (step cfg o s)) - inv_nextId s)
        with (Z.succ (inv_nextId (run cfg ops (step cfg o s)) - (inv_nextId s + 1))) by lia.
      rewrite (seqZ_cons (inv_nextId s)) by lia. simpl.
      replace (Z.succ (inv_nextId s)) with (inv_nextId s + 1) by lia.
      replace (Z.pred (Z.succ (inv_nextId (run cfg ops (step cfg o s)) - (inv_nextId s + 1))))
        with (inv_nextId (run cfg ops (step cfg o s)) - (inv_nextId s + 1)) by lia.
      done.
    + split; [lia | done].
Qed.

(** Two stored items never answer to the same number. *)
Lemma same_number_same_item s l1 l2 n :
  wf s → inv_nextId s < 2 ^ 53 →
  l1 ∈ inv_list s → l2 ∈ inv_list s →
  strict_eq_num (item_id s l1) n = true → strict_eq_num (item_id s l2) n = true →
  l1 = l2.
Proof.
  intros W Hb H1 H2 E1 E2. destruct (wf_ids s W Hb) as [Wa Wb].
  apply Wb; [done..|].
  destruct (Wa l1 H1) as (k1 & Hk1 & _), (Wa l2 H2) as (k2 & Hk2 & _).
  rewrite Hk1, Hk2 in *. destruct n as [| |q]; try done. simpl in E1, E2.
  apply Qeq_bool_iff in E1, E2. f_equal.
  assert (inject_Z k1 == inject_Z k2)%Q as E by (by rewrite E1, E2).
  unfold Qeq in E. simpl in E. lia.
Qed.

Lemma found_none_iff n s :
  found n s = None ↔ ∀ l, l ∈ inv_list s → strict_eq_num (item_id s l) n = false.
Proof.
  unfold found. split.
  - intros H l Hl%list_elem_of_In. by apply (find_none _ _ H).
  - intros H. destruct (List.find _ _) as [l|] eqn:E; [|done].
    apply find_some in E as [Hin E]. apply list_elem_of_In in Hin.
    unfold item_id in H. by rewrite H in E.
Qed.

(** Once deleted, an item is not found again. *)
Lemma found_deleted n s item :
  wf s → inv_nextId s < 2 ^ 53 →
  found n s = Some item → found n (FlatRun.deleted cfg item s) = None.
Proof.
  intros W Hb Hf. apply found_none_iff.
  unfold FlatRun.deleted. cbv zeta. proj_simpl.
  destruct (drop_photo_mem cfg (deref s item) s) as (Hh & Hl & _).
  rewrite Hl. intros l [Hin Hne]%list_elem_of_In%filter_In.
  apply list_elem_of_In in Hin.
  rewrite item_id_heap. proj_simpl. rewrite Hh, <- item_id_heap.
  destruct (strict_eq_num (item_id s l) n) eqn:E; [|done].
  assert (l = item) as ->.
  { eapply same_number_same_item; eauto using found_elem, found_id. }
  by rewrite Nat.eqb_refl in Hne.
Qed.

Lemma unlinks_drop_photo (o : obj) s :
  unlinks (FlatRun.drop_photo cfg o s).2 =
  if truthy (get_prop o "photo") &&
     bool_decide (path_join (uploadsPath cfg) (to_string (get_prop o "photo")) ∈ files s)
  then [path_join (uploadsPath cfg) (to_string (get_prop o "photo"))] else [].
Proof.
  unfold FlatRun.drop_photo. destruct (truthy _); [|done]. cbv zeta.
  by destruct (bool_decide _).
Qed.

Lemma unlinks_app t1 t2 : unlinks (t1 ++ t2) = unlinks t1 ++ unlinks t2.
Proof. unfold unlinks. apply omap_app. Qed.

(** [delete] twice, on the flat-file store. *)
Lemma flat_delete_twice req s :
  wf s → inv_nextId s < 2 ^ 53 →
  let '(r1, s1, t1) := serve cfg DeleteInventoryId req s in
  let '(r2, s2, t2) := serve cfg DeleteInventoryId req s1 in
  r2 = absent ∧ s2 = s1 ∧ t2 = [] ∧
  match found (Number (params_id req)) s with
  | Some item =>
      r1 = {| status := 200; content := Empty |} ∧
      (item ∉ inv_list s1) ∧
      unlinks t1 =
        (let o := deref s item in
         let p := path_join (uploadsPath cfg) (to_string (get_prop o "photo")) in
         if truthy (get_prop o "photo") && bool_decide (p ∈ files s) then [p] else [])
  | None => r1 = absent ∧ s1 = s ∧ t1 = []
  end.
Proof.
  intros W Hb. cbn [serve].
  change (params_id req) with (params_id (no_upload req)).
  destruct (found (Number (params_id (no_upload req))) s) as [item|] eqn:Hf.
  - rewrite (delete_run _ _ _ item) by done.
    rewrite delete_absent by (by apply found_deleted).
    repeat split; try done.
    + unfold FlatRun.deleted. cbv zeta. proj_simpl.
      intros [_ Hne]%list_elem_of_In%filter_In. by rewrite Nat.eqb_refl in Hne.
    + rewrite unlinks_app, unlinks_drop_photo. cbn [unlinks omap]. simpl.
      by rewrite app_nil_r.
  - rewrite delete_absent by done. rewrite delete_absent by done. done.
Qed.

(** A reading of the store sees the same in an extended store. *)
Lemma get_item_extends req s s' :
  wf s → extends s s' →
  (get_item cfg req s').1.1 = (get_item cfg req s).1.1.
Proof.
  intros W E. rewrite !get_item_run.
  pose proof (extends_find s s' (Number (params_id req)) (wf_locs s W) E) as Hf.
  unfold find, gets in Hf. cbn [fst] in Hf. fold (found (Number (params_id req)) s') in Hf.
  fold (found (Number (params_id req)) s) in Hf. rewrite Hf.
  destruct (found _ s) as [item|] eqn:Hi; [|done]. cbn [fst].
  unfold FlatRun.answer. rewrite (extends_deref s s'); [done.. |].
  by apply (wf_locs s W), found_elem with (n := Number (params_id req)).
Qed.

(** [search] on the flat-file store: no outside effect, the stored objects
    untouched, and [get] answers as before. *)
Lemma flat_search_readonly req s :
  wf s →
  let '(r, s', t) := serve cfg PostSearch req s in
  t = [] ∧ inv_list s' = inv_list s ∧ inv_nextId s' = inv_nextId s ∧
  dbFile s' = dbFile s ∧ files s' = files s ∧
  (∀ l, l ∈ inv_list s → deref s' l = deref s l) ∧
  ∀ q, (serve cfg GetInventoryId q s').1.1 = (serve cfg GetInventoryId q s).1.1.
Proof.
  intros W. cbn [serve]. pose proof (search_frame cfg (no_upload req) s) as H.
  destruct (search _ _ _) as [[r s'] t]. destruct H as [E ->].
  pose proof E as (_ & Hn & Hl & Hd & Hf).
  repeat split; try done.
  - intros l Hin. apply extends_deref; [done|]. by apply (wf_locs s W).
  - intros q. by apply get_item_extends.
Qed.

End FlatCounter.

(** ** The relational variant *)

Section RelFacts.
Import Rel.
Context (cfg : config).

Lemma pool_query_ok q s :
  faults s = [] →
  pool_query cfg q s =
  match exec cfg q s with
  | Some (rs, s2) => (Some rs, s2, [Sql q true])
  | None => (None, s, [Sql q false])
  end.
Proof. intros Hf. unfold pool_query. rewrite Hf. reflexivity. Qed.

Lemma select_item_ok (id : string) k s :
  faults s = [] → int_in cfg id = Some k →
  select_item cfg (VStr id) s =
  (Some (row_obj <$> head (List.filter (λ r, Rel.id r =? k) (rows s))), s,
   [Sql (SelectById (VStr id)) true]).
Proof.
  intros Hf Hk. unfold select_item, bind. rewrite pool_query_ok by done.
  unfold exec, where_id, param. cbn [to_string]. rewrite Hk. reflexivity.
Qed.

Lemma rel_upload_single_run req s :
  upload_single cfg req s = (req, uploaded cfg req s, []).
Proof. unfold upload_single, uploaded. by destruct (req_file req). Qed.

Lemma rel_serve_register req s :
  serve cfg PostRegister req s = register cfg req (uploaded cfg req s).
Proof.
  cbn [serve]. unfold bind. rewrite rel_upload_single_run.
  by destruct (register _ _ _) as [[? ?] ?].
Qed.

Lemma rel_serve_replace_photo req s :
  serve cfg PutInventoryIdPhoto req s = replace_photo cfg req (uploaded cfg req s).
Proof.
  cbn [serve]. unfold bind. rewrite rel_upload_single_run.
  by destruct (replace_photo _ _ _) as [[? ?] ?].
Qed.

Lemma rel_drop_photo_run (o : obj) s :
  (if truthy (get_prop o "photo") then
     let oldPhotoPath := path_join (CACHE cfg) (to_string (get_prop o "photo")) in
     let* there := existsSync oldPhotoPath in
     if there then unlinkSync oldPhotoPath else ret tt
   else ret tt) s = (tt, (drop_photo cfg o s).1, (drop_photo cfg o s).2).
Proof.
  unfold drop_photo. destruct (truthy _); [|done].
  cbv zeta. unfold bind, existsSync, gets.
  destruct (bool_decide _); done.
Qed.

(** [drop_photo] and [uploaded] touch the files only. *)
Lemma rel_drop_photo_store o s : ∃ f, (drop_photo cfg o s).1 = with_files f s.
Proof.
  unfold drop_photo. destruct (truthy _); [|exists (files s); by destruct s].
  cbv zeta. destruct (bool_decide _); [by eexists | exists (files s); by destruct s].
Qed.

Lemma rel_uploaded_store req s : ∃ f, uploaded cfg req s = with_files f s.
Proof.
  unfold uploaded. destruct (req_file req); [by eexists | exists (files s); by destruct s].
Qed.

End RelFacts.

(** ** The flat-file variant implements the contract *)

Lemma find_fmap {A B} (p : B → bool) (f : A → B) (l : list A) :
  List.find p (f <$> l) = f <$> List.find (λ x, p (f x)) l.
Proof.
  induction l as [|x l IH]; simpl; [done|].
  destruct (p (f x)); [done | exact IH].
Qed.

Lemma find_head_filter {A} (p : A → bool) (l : list A) :
  List.find p l = head (List.filter p l).
Proof.
  induction l as [|x l IH]; simpl; [done|]. destruct (p x); [done | exact IH].
Qed.

Lemma filter_fmap_pointwise {A B} (p : A → bool) (q : B → bool) (f : A → B) (g : A → B) l :
  (∀ x, x ∈ l → q (f x) = p x) → (∀ x, x ∈ l → p x = true → g x = f x) →
  g <$> List.filter p l = List.filter q (f <$> l).
Proof.
  induction l as [|x l IH]; intros Hp Hg; simpl; [done|].
  rewrite Hp by left. destruct (p x) eqn:E; simpl.
  - rewrite Hg by (done || left). f_equal. apply IH; intros; [apply Hp | apply Hg]; by (done || right).
  - apply IH; intros; [apply Hp | apply Hg]; by (done || right).
Qed.

Lemma add1_lt' n : n < 2 ^ 53 → add1 n = n + 1.
Proof. unfold add1. destruct (Z.ltb_spec n (2 ^ 53)); lia. Qed.

Section FlatRefines.
Import Flat FlatRun Refine.
Context (cfg : config).

Local Abbreviation formatted := (formatted cfg).
Local Abbreviation answer := (answer cfg).
Local Abbreviation answered := (answered cfg).
Local Abbreviation uploaded := (uploaded cfg).
Local Abbreviation url := (flat_url cfg).

Lemma formatted_view o : formatted o = Contract.view url o.
Proof. reflexivity. Qed.

Lemma answer_show s item : answer s item = Contract.show url (deref s item).
Proof. reflexivity. Qed.

Lemma lookup_item_found k s :
  Contract.lookup_item k (flat_table s) = deref s <$> found (Fin (inject_Z k)) s.
Proof. unfold Contract.lookup_item, flat_table, found. cbn. apply find_fmap. Qed.

Lemma flat_table_extends s s' :
  wf s → extends s s' → flat_table s' = flat_table s.
Proof.
  intros W E. pose proof E as (_ & Hn & Hl & _). unfold flat_table.
  rewrite Hn, Hl. f_equal. apply list_fmap_ext. intros i l Hi.
  apply extends_deref; [done|]. apply (wf_locs s W). by eapply list_elem_of_lookup_2.
Qed.

Lemma flat_table_answered s item : wf s → flat_table (answered s item) = flat_table s.
Proof. intros W. apply flat_table_extends; [done | apply extends_alloc]. Qed.

Lemma flat_table_files s f : flat_table (with_files f s) = flat_table s.
Proof. reflexivity. Qed.

Lemma flat_table_uploaded req s : flat_table (uploaded req s) = flat_table s.
Proof. unfold FlatRun.uploaded. by destruct (req_file req). Qed.

Lemma flat_table_drop_photo o s : flat_table (drop_photo cfg o s).1 = flat_table s.
Proof.
  unfold drop_photo. destruct (truthy _); [|done]. cbv zeta.
  by destruct (bool_decide _).
Qed.

Lemma found_uploaded n req s : found n (uploaded req s) = found n s.
Proof. unfold FlatRun.uploaded. by destruct (req_file req). Qed.

(** Assigning to the found item is the contract's [amend]. *)
Lemma flat_table_amend k s item (f : obj → obj) h :
  wf s → inv_nextId s < 2 ^ 53 →
  found (Fin (inject_Z k)) s = Some item →
  (∀ l, l ∈ inv_list s →
        default [] (h !! l) = if decide (l = item) then f (deref s l) else deref s l) →
  flat_table (with_heap h s) = Contract.amend k f (flat_table s).
Proof.
  intros W Hb Hf Hh. unfold flat_table, Contract.amend. cbn. f_equal.
  change (List.map ?g ?l) with (g <$> l). rewrite <- list_fmap_compose.
  apply list_fmap_ext. intros i l Hi. assert (l ∈ inv_list s) as Hin.
  { by eapply list_elem_of_lookup_2. }
  unfold deref at 1. cbn. rewrite Hh by done. unfold Contract.has_id.
  change (get_prop (deref s l) "id") with (item_id s l).
  destruct (decide (l = item)) as [->|Hne].
  - by rewrite (found_id _ _ _ Hf).
  - destruct (strict_eq_num _ _) eqn:E; [|done]. exfalso. apply Hne.
    eapply same_number_same_item; eauto using found_elem, found_id.
Qed.

Lemma flat_register_refines req s :
  wf s → inv_nextId s < 2 ^ 53 →
  let c := Contract.Create (get_prop (req_body req) "inventory_name")
             (get_prop (req_body req) "description")
             (match req_file req with Some f => VStr f | None => VNull end) in
  let '(resp, s', _) := serve cfg PostRegister req s in
  resp = Contract.reply url c (flat_table s) ∧
  flat_table s' = Contract.next c (flat_table s).
Proof.
  intros W Hb c. rewrite serve_register.
  assert (inv_nextId (uploaded req s) = inv_nextId s) as Hn.
  { unfold FlatRun.uploaded. by destruct (req_file req). }
  assert (heap (uploaded req s) = heap s) as Hh.
  { unfold FlatRun.uploaded. by destruct (req_file req). }
  assert (inv_list (uploaded req s) = inv_list s) as Hl.
  { unfold FlatRun.uploaded. by destruct (req_file req). }
  pose proof (wf_uploaded cfg req s W) as Wu.
  subst c. cbn [Contract.reply Contract.next].
  destruct (truthy (get_prop (req_body req) "inventory_name")) eqn:Ht; cbn [negb].
  - rewrite register_run by done. split.
    + unfold new_item. rewrite Hn. reflexivity.
    + rewrite (flat_table_extends (registered req (uploaded req s)));
        [|by apply wf_registered | apply extends_alloc].
      unfold flat_table, registered. cbv zeta. proj_simpl.
      rewrite Hn, Hh, Hl. rewrite add1_lt'. f_equal.
      rewrite fmap_app. cbn [fmap list_fmap]. f_equal.
      * apply list_fmap_ext. intros i l Hi. unfold deref. proj_simpl.
        rewrite lookup_app_l; [done|]. apply (wf_locs s W).
        by eapply list_elem_of_lookup_2.
      * unfold deref. proj_simpl. rewrite lookup_app_r, Nat.sub_diag by done.
        unfold new_item. by rewrite Hn.
      * lia.
  - rewrite register_reject by done. split; [done|]. apply flat_table_uploaded.
Qed.

Lemma flat_get_refines req s k :
  wf s → Number (params_id req) = Fin (inject_Z k) →
  let '(resp, s', _) := serve cfg GetInventoryId req s in
  resp = Contract.reply url (Contract.Get k) (flat_table s) ∧
  flat_table s' = flat_table s.
Proof.
  intros W Hk. cbn [serve Contract.reply]. rewrite get_item_run.
  change (params_id (no_upload req)) with (params_id req).
  rewrite Hk, lookup_item_found.
  destruct (found _ _) as [item|]; cbn [fmap option_fmap option_map]; [|done].
  split; [done | by apply flat_table_answered].
Qed.

Lemma mapM_format_run ls s :
  (∀ l, l ∈ ls → (l < length (heap s))%nat) →
  mapM (formatItemResponse cfg) ls s =
  (seq (length (heap s)) (length ls),
   with_heap (heap s ++ ((λ l, formatted (deref s l)) <$> ls)) s, []).
Proof.
  revert s. induction ls as [|l ls IH]; intros s Hl.
  - simpl. unfold ret. by rewrite app_nil_r; destruct s.
  - cbn [mapM]. unfold bind at 1. rewrite formatItemResponse_run.
    unfold bind at 1. rewrite IH.
    2:{ intros l' Hl'. proj_simpl. rewrite length_app. simpl.
        assert (l' < length (heap s))%nat by (apply Hl; by right). lia. }
    unfold ret. cbn [app]. proj_simpl. rewrite length_app. cbn [length].
    rewrite Nat.add_1_r. cbn [seq fmap list_fmap]. f_equal. f_equal.
    unfold with_heap. proj_simpl. f_equal. rewrite <- app_assoc. cbn [app]. do 2 f_equal.
    apply list_fmap_ext. intros i l' Hi. f_equal. unfold deref. proj_simpl.
    rewrite lookup_app_l; [done|]. apply Hl. right. by eapply list_elem_of_lookup_2.
Qed.

Lemma flat_list_refines req s :
  wf s →
  let '(resp, s', _) := serve cfg GetInventory req s in
  resp = Contract.reply url Contract.ListAll (flat_table s) ∧
  flat_table s' = flat_table s.
Proof.
  intros W. cbn [serve Contract.reply].
  pose proof (list_all_frame cfg (no_upload req) s) as Hfr.
  unfold list_all in *. unfold bind at 1 in Hfr. unfold bind at 1.
  unfold gets in *. unfold bind at 1 in Hfr. unfold bind at 1.
  rewrite mapM_format_run in * by apply (wf_locs s W).
  unfold bind in *. rewrite mapM_read_pure in *. unfold send, ret in *.
  cbn [app]. destruct Hfr as [E _]. split; [|by apply flat_table_extends].
  f_equal. f_equal. f_equal. unfold deref at 1. proj_simpl.
  change (λ l : loc, default [] ((heap s ++ ((λ l0, formatted (deref s l0)) <$> inv_list s)) !! l))
    with (λ l : loc, id (default [] ((heap s ++ ((λ l0, formatted (deref s l0)) <$> inv_list s)) !! l))).
  rewrite <- (length_fmap (λ l0, formatted (deref s l0)) (inv_list s)).
  change (?f <$> ?l) with (List.map f l) at 1.
  rewrite (lookup_seq_app id). rewrite List.map_id.
  cbn [flat_table Contract.items].
  change (List.map ?f ?l) with (f <$> l). rewrite <- !list_fmap_compose.
  done.
Qed.

Lemma default_alter (h : list obj) (f : obj → obj) i l :
  (l < length h)%nat →
  default [] (alter f i h !! l) =
  if decide (l = i) then f (default [] (h !! l)) else default [] (h !! l).
Proof.
  intros Hl. destruct (lookup_lt_is_Some_2 h l Hl) as [o Ho].
  destruct (decide (l = i)) as [->|Hne].
  - by rewrite list_lookup_alter_eq, Ho.
  - by rewrite list_lookup_alter_ne by done.
Qed.

Lemma deref_alter_same s (f : obj → obj) l :
  (l < length (heap s))%nat →
  deref (with_heap (alter f l (heap s)) s) l = f (deref s l).
Proof.
  intros Hl. unfold deref. proj_simpl. rewrite default_alter by done.
  by rewrite decide_True.
Qed.

Lemma deref_updated req item s l :
  (l < length (heap s))%nat →
  deref (updated req item s) l =
  if decide (l = item)
  then Contract.with_metadata (get_prop (req_body req) "inventory_name")
         (get_prop (req_body req) "description") (deref s l)
  else deref s l.
Proof.
  intros Hl. unfold updated, deref at 1. cbv zeta. proj_simpl.
  rewrite default_alter by (by rewrite length_alter).
  rewrite default_alter by done.
  destruct (decide (l = item)) as [->|]; [|done].
  unfold Contract.with_metadata. cbv zeta.
  rewrite deref_alter_same by done. reflexivity.
Qed.

Lemma flat_update_refines req s k :
  wf s → inv_nextId s < 2 ^ 53 → Number (params_id req) = Fin (inject_Z k) →
  let c := Contract.UpdateMetadata k (get_prop (req_body req) "inventory_name")
             (get_prop (req_body req) "description") in
  let '(resp, s', _) := serve cfg PutInventoryId req s in
  resp = Contract.reply url c (flat_table s) ∧
  flat_table s' = Contract.next c (flat_table s).
Proof.
  intros W Hb Hk c. subst c. cbn [serve Contract.reply Contract.next].
  rewrite lookup_item_found.
  destruct (found (Fin (inject_Z k)) s) as [item|] eqn:Hf;
    cbn [fmap option_fmap option_map].
  - rewrite (update_run _ _ _ item) by (cbn; by rewrite Hk).
    assert (item < length (heap s))%nat as Hi.
    { by apply (wf_locs s W), found_elem with (n := Fin (inject_Z k)). }
    split.
    + rewrite answer_show, deref_updated by done. by rewrite decide_True.
    + rewrite flat_table_answered by (by apply wf_updated).
      unfold updated. cbv zeta.
      apply (flat_table_amend k s item); [done..|].
      intros l Hl.
      rewrite <- (deref_updated (no_upload req)) by (by apply (wf_locs s W)).
      reflexivity.
  - rewrite update_absent by (cbn; by rewrite ?Hk). split; [done|].
    unfold Contract.amend, flat_table. cbn. f_equal.
    change (List.map ?g ?l) with (g <$> l). rewrite <- list_fmap_compose.
    apply list_fmap_ext. intros i l Hl. cbn.
    apply found_none_iff with (l := l) in Hf; [|by eapply list_elem_of_lookup_2].
    unfold Contract.has_id. change (get_prop (deref s l) "id") with (item_id s l).
    by rewrite Hf.
Qed.

Lemma amend_absent k s (f : obj → obj) :
  found (Fin (inject_Z k)) s = None →
  Contract.amend k f (flat_table s) = flat_table s.
Proof.
  intros Hf. unfold Contract.amend, flat_table. cbn. f_equal.
  change (List.map ?g ?l) with (g <$> l). rewrite <- list_fmap_compose.
  apply list_fmap_ext. intros i l Hl. cbn.
  apply found_none_iff with (l := l) in Hf; [|by eapply list_elem_of_lookup_2].
  unfold Contract.has_id. change (get_prop (deref s l) "id") with (item_id s l).
  by rewrite Hf.
Qed.

(** What [drop_photo] leaves is the same store with fewer files. *)
Lemma drop_photo_store o s :
  ∃ f, (drop_photo cfg o s).1 = with_files f s.
Proof.
  unfold drop_photo. destruct (truthy _); [|exists (files s); by destruct s].
  cbv zeta. destruct (bool_decide _); [by eexists | exists (files s); by destruct s].
Qed.

Lemma flat_replace_photo_handler req s k :
  wf s → inv_nextId s < 2 ^ 53 → Number (params_id req) = Fin (inject_Z k) →
  let c := Contract.SetPhotoRef k
             (match req_file req with Some f => VStr f | None => VNull end) in
  let '(resp, s', _) := replace_photo cfg req s in
  resp = Contract.reply url c (flat_table s) ∧
  flat_table s' = Contract.next c (flat_table s).
Proof.
  intros W Hb Hk c. subst c. cbn [Contract.reply Contract.next].
  rewrite lookup_item_found.
  destruct (found (Fin (inject_Z k)) s) as [item|] eqn:Hf;
    cbn [fmap option_fmap option_map].
  - rewrite (replace_photo_run _ _ _ item) by (by rewrite Hk).
    assert (item < length (heap s))%nat as Hi.
    { by apply (wf_locs s W), found_elem with (n := Fin (inject_Z k)). }
    pose proof (wf_replaced cfg req item s W) as Wr.
    unfold replaced in *. cbv zeta in *.
    destruct (drop_photo_store (deref s item) s) as [fl Hfl]. rewrite Hfl in *.
    split.
    + rewrite answer_show. unfold deref at 1. proj_simpl.
      by rewrite default_alter, decide_True by done.
    + rewrite flat_table_answered by done.
      apply (flat_table_amend k (with_files fl s) item); [by apply wf_with_files | done..|].
      intros l Hl. apply default_alter. by apply (wf_locs s W).
  - rewrite replace_photo_absent by (by rewrite Hk). rewrite amend_absent by done.
    by destruct (req_file req).
Qed.

Lemma flat_replace_photo_refines req s k :
  wf s → inv_nextId s < 2 ^ 53 → Number (params_id req) = Fin (inject_Z k) →
  let c := Contract.SetPhotoRef k
             (match req_file req with Some f => VStr f | None => VNull end) in
  let '(resp, s', _) := serve cfg PutInventoryIdPhoto req s in
  resp = Contract.reply url c (flat_table s) ∧
  flat_table s' = Contract.next c (flat_table s).
Proof.
  intros W Hb Hk. rewrite serve_replace_photo, <- (flat_table_uploaded req s).
  apply flat_replace_photo_handler; [by apply wf_uploaded | | done].
  unfold FlatRun.uploaded. by destruct (req_file req).
Qed.

Lemma flat_delete_refines req s k :
  wf s → inv_nextId s < 2 ^ 53 → Number (params_id req) = Fin (inject_Z k) →
  let '(resp, s', _) := serve cfg DeleteInventoryId req s in
  resp = Contract.reply url (Contract.Delete k) (flat_table s) ∧
  flat_table s' = Contract.next (Contract.Delete k) (flat_table s).
Proof.
  intros W Hb Hk. cbn [serve Contract.reply Contract.next].
  rewrite lookup_item_found.
  destruct (found (Fin (inject_Z k)) s) as [item|] eqn:Hf;
    cbn [fmap option_fmap option_map].
  - rewrite (delete_run _ _ _ item) by (cbn; by rewrite Hk).
    split; [done|]. unfold deleted. cbv zeta.
    destruct (drop_photo_store (deref s item) s) as [fl ->].
    unfold flat_table. proj_simpl. cbn [Contract.items Contract.nextId]. f_equal.
    apply filter_fmap_pointwise; [|done].
    intros l Hl. unfold Contract.has_id.
    change (get_prop (deref s l) "id") with (item_id s l).
    destruct (Nat.eqb_spec l item) as [->|Hne]; cbn [negb].
    + by rewrite (found_id _ _ _ Hf).
    + destruct (strict_eq_num _ _) eqn:E; [|done]. exfalso. apply Hne.
      eapply same_number_same_item; eauto using found_elem, found_id.
  - rewrite delete_absent by (cbn; by rewrite Hk). split; [done|].
    unfold flat_table. cbn. f_equal. symmetry.
    rewrite <- (List.filter_true (deref s <$> inv_list s)) at 2.
    change (?f <$> ?l) with (List.map f l).
    apply filter_ext_in. intros o (l & <- & Hl)%in_map_iff.
    apply list_elem_of_In in Hl.
    apply found_none_iff with (l := l) in Hf; [|done].
    unfold Contract.has_id. change (get_prop (deref s l) "id") with (item_id s l).
    by rewrite Hf.
Qed.

Lemma deref_alloc_new s h (o : obj) :
  deref (with_heap (h ++ [o]) s) (length h) = o.
Proof. unfold deref. proj_simpl. by rewrite lookup_app_r, Nat.sub_diag by done. Qed.

Lemma deref_alter_new s h (o : obj) (f : obj → obj) :
  deref (with_heap (alter f (length h) (h ++ [o])) s) (length h) = f o.
Proof.
  unfold deref. proj_simpl.
  by rewrite list_lookup_alter_eq, lookup_app_r, Nat.sub_diag by done.
Qed.

(** What [search] answers. *)
Lemma search_response req s :
  (search cfg req s).1.1 =
  match found (parseInt (get_prop (req_body req) "id")) s with
  | Some item =>
      {| status := 200;
         content := Json (JObject (to_json
           (search_view cfg (get_prop (req_body req) "has_photo") (deref s item)))) |}
  | None => absent
  end.
Proof.
  unfold search. cbv zeta. unfold bind at 1. rewrite find_run. cbv beta iota zeta.
  destruct (found _ _) as [item|]; [|reflexivity].
  unfold bind at 1. rewrite formatItemResponse_run. cbv beta iota zeta.
  mstep read gets. rewrite deref_alloc_new. mstep alloc. proj_simpl.
  unfold search_view. cbv zeta. fold (formatted (deref s item)).
  destruct (strict_eq_str _ _).
  - unfold bind at 1. mstep read gets. rewrite deref_alloc_new.
    destruct (truthy _).
    + unfold assign, modify. cbv beta iota zeta. unfold json_obj, bind, read, gets, send, ret.
      cbv beta iota zeta. proj_simpl. cbn [fst].
      by rewrite deref_alter_new.
    + unfold assign, modify. cbv beta iota zeta. unfold json_obj, bind, read, gets, send, ret.
      cbv beta iota zeta. proj_simpl. cbn [fst].
      by rewrite deref_alter_new.
  - unfold bind at 1, ret at 1. cbv beta iota zeta.
    unfold json_obj, bind, read, gets, send, ret. cbv beta iota zeta. cbn [fst].
    by rewrite deref_alloc_new.
Qed.

Lemma flat_search_refines req s k :
  wf s → parseInt (get_prop (req_body req) "id") = Fin (inject_Z k) →
  let c := Contract.Search k (strict_eq_str (get_prop (req_body req) "has_photo") "on") in
  Contract.hint_with_photo c (flat_table s) = false →
  let '(resp, s', _) := serve cfg PostSearch req s in
  resp = Contract.reply url c (flat_table s) ∧
  flat_table s' = Contract.next c (flat_table s).
Proof.
  intros W Hk c Hh. subst c. cbn [serve Contract.reply Contract.next].
  pose proof (search_frame cfg (no_upload req) s) as Hfr.
  pose proof (search_response (no_upload req) s) as Hr.
  destruct (search _ _ _) as [[resp s'] t]. cbn [fst] in Hr. destruct Hfr as [E _].
  split; [|by apply flat_table_extends].
  rewrite Hr. cbn [no_upload req_body]. rewrite Hk.
  cbn [Contract.hint_with_photo] in Hh. rewrite lookup_item_found in *.
  destruct (found _ _) as [item|]; cbn [fmap option_fmap option_map] in *; [|done].
  do 3 f_equal. unfold search_view, Contract.search_view. cbv zeta.
  rewrite formatted_view.
  destruct (strict_eq_str _ _); [|done].
  assert (truthy (get_prop (Contract.view url (deref s item)) "photo") = false) as ->.
  { unfold Contract.view. rewrite get_set_prop_eq. by rewrite Hh. }
  done.
Qed.

(** The flat-file variant answers as the contract does, with its own
    locator, and its items move as the contract's do. *)
Lemma flat_refines r req k c s :
  wf s → inv_nextId s < 2 ^ 53 →
  flat_reads r req k → as_call r req k = Some c →
  Contract.hint_with_photo c (flat_table s) = false →
  let '(resp, s', _) := serve cfg r req s in
  resp = Contract.reply url c (flat_table s) ∧
  flat_table s' = Contract.next c (flat_table s).
Proof.
  intros W Hb Hk Hc Hh. destruct r; cbn in Hk, Hc; try discriminate;
    injection Hc as <-.
  - by apply flat_register_refines.
  - by apply flat_list_refines.
  - by apply flat_get_refines.
  - by apply flat_update_refines.
  - by apply flat_replace_photo_refines.
  - by apply flat_delete_refines.
  - by apply flat_search_refines.
Qed.

End FlatRefines.

(** ** The relational variant implements the contract *)

Lemma Qeq_bool_inject_Z a b : Qeq_bool (inject_Z a) (inject_Z b) = (a =? b).
Proof. unfold Qeq_bool, inject_Z. simpl. by rewrite !Z.mul_1_r. Qed.

Section RelRefines.
Import Rel Refine.
Context (cfg : config).

Lemma has_id_row k r : Contract.has_id k (row_obj r) = (id r =? k).
Proof. unfold Contract.has_id. cbn. apply Qeq_bool_inject_Z. Qed.

Lemma lookup_item_rows k s :
  Contract.lookup_item k (rel_table s) =
  row_obj <$> head (List.filter (λ r, id r =? k) (rows s)).
Proof.
  unfold Contract.lookup_item, rel_table. cbn. rewrite find_fmap.
  rewrite <- find_head_filter. f_equal. 
  induction (rows s) as [|r rs IH]; simpl; [done|].
  rewrite has_id_row. destruct (id r =? k); [done | exact IH].
Qed.

Lemma view_row (o : obj) : formatItemResponse o = Contract.view rel_url o.
Proof. reflexivity. Qed.

Lemma column_param v : textual v = true → v ≠ VUndefined → column (param v) = v.
Proof. by destruct v. Qed.

Lemma rel_table_files f s : rel_table (with_files f s) = rel_table s.
Proof. reflexivity. Qed.

Lemma rel_get_refines req s k :
  faults s = [] → int_in cfg (params_id req) = Some k →
  let '(resp, s', _) := serve cfg GetInventoryId req s in
  resp = Contract.reply rel_url (Contract.Get k) (rel_table s) ∧
  rel_table s' = rel_table s.
Proof.
  intros Hf Hk. cbn [serve Contract.reply]. unfold get_item. cbv zeta.
  unfold bind at 1. rewrite (select_item_ok _ _ k) by done.
  rewrite lookup_item_rows.
  destruct (head _) as [r|]; cbn [fmap option_fmap option_map]; done.
Qed.

(** The list is the contract's, in the order the database scans the table. *)
Lemma rel_list_scanned req s :
  faults s = [] →
  let '(resp, s', _) := serve cfg GetInventory req s in
  resp = {| status := 200;
            content := Json (JArray ((λ o, to_json (Contract.view rel_url o)) <$>
                                     (row_obj <$> scan cfg (rows s)))) |} ∧
  rel_table s' = rel_table s.
Proof.
  intros Hf. cbn [serve]. unfold list_all.
  unfold bind at 1. rewrite pool_query_ok by done. cbn [exec].
  split; [|done]. unfold send, ret. cbn. do 3 f_equal.
  change (List.map ?g ?l) with (g <$> l). by rewrite <- list_fmap_compose.
Qed.

Lemma same_up_to_order_refl r : same_up_to_order r r.
Proof. unfold same_up_to_order. destruct (content r) as [| |[]| | |]; done. Qed.

Lemma same_up_to_order_status r1 r2 : same_up_to_order r1 r2 → status r1 = status r2.
Proof.
  unfold same_up_to_order.
  destruct (content r1) as [| |[]| | |], (content r2) as [| |[]| | |];
    try (by intros ->); by intros [? _].
Qed.

Lemma same_up_to_order_trans r1 r2 r3 :
  same_up_to_order r1 r2 → same_up_to_order r2 r3 → same_up_to_order r1 r3.
Proof.
  unfold same_up_to_order. intros H12 H23.
  destruct (content r1) as [| |[s1|o1|l1]| | |] eqn:E1;
    try (subst r2; rewrite E1 in H23; exact H23).
  destruct (content r2) as [| |[s2|o2|l2]| | |] eqn:E2;
    try (subst r2; congruence).
  destruct (content r3) as [| |[s3|o3|l3]| | |] eqn:E3;
    try (subst r3; congruence).
  destruct H12 as [-> H12], H23 as [-> H23]. split; [done | by etrans].
Qed.

Lemma rel_list_refines req s :
  faults s = [] →
  let '(resp, s', _) := serve cfg GetInventory req s in
  same_up_to_order resp (Contract.reply rel_url Contract.ListAll (rel_table s)) ∧
  rel_table s' = rel_table s.
Proof.
  intros Hf. pose proof (rel_list_scanned req s Hf) as H.
  destruct (serve cfg GetInventory req s) as [[resp s'] t]. destruct H as [-> H].
  split; [|done]. unfold same_up_to_order. cbn. split; [done|].
  change (List.map ?g ?l) with (g <$> l).
  apply fmap_Permutation. apply fmap_Permutation. apply scan_all.
Qed.

Lemma rel_register_refines req s :
  faults s = [] → textual_fields req = true →
  let c := Contract.Create (get_prop (req_body req) "inventory_name")
             (get_prop (req_body req) "description")
             (match req_file req with Some f => VStr f | None => VNull end) in
  let '(resp, s', _) := serve cfg PostRegister req s in
  resp = Contract.reply rel_url c (rel_table s) ∧
  rel_table s' = Contract.next c (rel_table s).
Proof.
  intros Hf [Ht1 Ht2]%andb_prop c. subst c. rewrite rel_serve_register.
  destruct (rel_uploaded_store cfg req s) as [fl ->].
  cbn [Contract.reply Contract.next].
  unfold register. cbv zeta.
  destruct (truthy (get_prop (req_body req) "inventory_name")) eqn:Hn; cbn [negb].
  - unfold bind at 1. rewrite pool_query_ok by done.
    cbn [exec]. split; [done|].
    unfold rel_table. cbn. rewrite fmap_app. cbn.
    f_equal. f_equal. unfold row_obj. cbn.
    destruct (get_prop (req_body req) "inventory_name"); try done.
    destruct (get_prop (req_body req) "description") as [| | | |ds]; try done;
      cbn; try destruct (negb (ds =? "")%string); by destruct (req_file req).
  - unfold discard_upload. destruct (req_file req); done.
Qed.

Lemma head_filter_Some {A} (p : A → bool) (l : list A) x :
  head (List.filter p l) = Some x → x ∈ l ∧ p x = true.
Proof.
  rewrite <- find_head_filter. intros [H1 H2]%find_some.
  by apply list_elem_of_In in H1.
Qed.

Lemma head_filter_None {A} (p : A → bool) (l : list A) :
  head (List.filter p l) = None → ∀ x, x ∈ l → p x = false.
Proof.
  rewrite <- find_head_filter. intros H x Hx%list_elem_of_In.
  by apply (find_none _ _ H).
Qed.

Lemma NoDup_fmap_same {A B} (f : A → B) (l : list A) x y :
  NoDup (f <$> l) → x ∈ l → y ∈ l → f x = f y → x = y.
Proof.
  induction l as [|a l IH]; intros Hnd Hx Hy Hf; [by apply elem_of_nil in Hx|].
  rewrite fmap_cons in Hnd. apply NoDup_cons in Hnd as [Hna Hnd].
  apply elem_of_cons in Hx as [->|Hx], Hy as [->|Hy]; [done| | |by apply IH].
  - exfalso. apply Hna. rewrite Hf. by apply list_elem_of_fmap_2.
  - exfalso. apply Hna. rewrite <- Hf. by apply list_elem_of_fmap_2.
Qed.

Lemma rel_table_amend k s (f : obj → obj) (g : row → row) :
  (∀ r, r ∈ rows s → id r = k → row_obj (g r) = f (row_obj r)) →
  rel_table (with_table (List.map (λ r, if id r =? k then g r else r) (rows s))
                        (serial s) s) =
  Contract.amend k f (rel_table s).
Proof.
  intros Hg. unfold rel_table, Contract.amend. cbn. f_equal.
  change (List.map ?g ?l) with (g <$> l). rewrite <- !list_fmap_compose.
  apply list_fmap_ext. intros i r Hi. cbv [compose]. rewrite has_id_row.
  destruct (Z.eqb_spec (id r) k); [|done].
  apply Hg; [by eapply list_elem_of_lookup_2 | done].
Qed.

Lemma rel_amend_absent k s (f : obj → obj) :
  head (List.filter (λ r, id r =? k) (rows s)) = None →
  Contract.amend k f (rel_table s) = rel_table s.
Proof.
  intros Hn. unfold rel_table, Contract.amend. cbn. f_equal.
  change (List.map ?g ?l) with (g <$> l). rewrite <- !list_fmap_compose.
  apply list_fmap_ext. intros i r Hi. cbv [compose]. rewrite has_id_row.
  by rewrite (head_filter_None _ _ Hn r) by (by eapply list_elem_of_lookup_2).
Qed.

Lemma rel_update_refines req s k :
  faults s = [] → int_in cfg (params_id req) = Some k →
  textual_fields req = true → NoDup (id <$> rows s) →
  let c := Contract.UpdateMetadata k (get_prop (req_body req) "inventory_name")
             (get_prop (req_body req) "description") in
  let '(resp, s', _) := serve cfg PutInventoryId req s in
  resp = Contract.reply rel_url c (rel_table s) ∧
  rel_table s' = Contract.next c (rel_table s).
Proof.
  intros Hf Hk [Ht1 Ht2]%andb_prop Hnd c. subst c.
  cbn [serve Contract.reply Contract.next]. unfold update. cbv zeta.
  unfold bind at 1. rewrite (select_item_ok _ _ k) by done.
  rewrite lookup_item_rows.
  destruct (head _) as [r|] eqn:Hh; cbn [fmap option_fmap option_map].
  - apply head_filter_Some in Hh as [Hr Hid]. apply Z.eqb_eq in Hid.
    unfold bind at 1. rewrite pool_query_ok by done.
    cbn [exec no_upload params_id req_body]. unfold where_id, param. cbn [to_string].
    rewrite Hk. split; [reflexivity|].
    apply rel_table_amend. intros r' Hr' Hid'.
    assert (r' = r) as -> by (eapply (NoDup_fmap_same id); eauto; congruence).
    unfold Contract.with_metadata, row_obj. cbn.
    destruct (get_prop (req_body req) "inventory_name"); try done;
      destruct (get_prop (req_body req) "description"); try done;
      cbn; by destruct (inventory_name r), (description r).
  - split; [done|]. symmetry. by apply rel_amend_absent.
Qed.

Lemma rel_replace_photo_refines req s k :
  faults s = [] → int_in cfg (params_id req) = Some k →
  let c := Contract.SetPhotoRef k
             (match req_file req with Some f => VStr f | None => VNull end) in
  let '(resp, s', _) := serve cfg PutInventoryIdPhoto req s in
  resp = Contract.reply rel_url c (rel_table s) ∧
  rel_table s' = Contract.next c (rel_table s).
Proof.
  intros Hf Hk c. subst c. rewrite rel_serve_replace_photo.
  destruct (rel_uploaded_store cfg req s) as [fl ->].
  cbn [Contract.reply Contract.next].
  unfold replace_photo. cbv zeta.
  unfold bind at 1. rewrite (select_item_ok _ _ k) by done.
  rewrite lookup_item_rows. change (rows (with_files fl s)) with (rows s).
  destruct (head _) as [r|] eqn:Hh; cbn [fmap option_fmap option_map].
  - unfold bind at 1. rewrite rel_drop_photo_run.
    destruct (rel_drop_photo_store cfg (row_obj r) (with_files fl s)) as [fl' ->].
    unfold bind at 1. rewrite pool_query_ok by done.
    cbn [exec]. unfold where_id, param. cbn [to_string]. rewrite Hk.
    split; [reflexivity|].
    change (rel_table (with_table
              (List.map (λ r0, if id r0 =? k then
                 {| id := id r0; inventory_name := inventory_name r0;
                    description := description r0;
                    photo := param (get_prop (set_prop (row_obj r) "photo"
                               match req_file req with Some f => VStr f | None => VNull end)
                               "photo") |} else r0) (rows s)) (serial s) s) =
            Contract.amend k (Contract.with_photo_ref
              match req_file req with Some f => VStr f | None => VNull end) (rel_table s)).
    apply (rel_table_amend k s). intros r' _ _.
    unfold Contract.with_photo_ref, row_obj. cbn. by destruct (req_file req).
  - unfold discard_upload.
    rewrite (rel_amend_absent _ _ _ Hh).
    destruct (req_file req); done.
Qed.

Lemma rel_delete_refines req s k :
  faults s = [] → int_in cfg (params_id req) = Some k →
  let '(resp, s', _) := serve cfg DeleteInventoryId req s in
  resp = Contract.reply rel_url (Contract.Delete k) (rel_table s) ∧
  rel_table s' = Contract.next (Contract.Delete k) (rel_table s).
Proof.
  intros Hf Hk. cbn [serve Contract.reply Contract.next].
  unfold delete. cbv zeta.
  unfold bind at 1. rewrite (select_item_ok _ _ k) by done.
  rewrite lookup_item_rows.
  assert (row_obj <$> List.filter (λ r, negb (id r =? k)) (rows s) =
          List.filter (λ o, negb (Contract.has_id k o)) (row_obj <$> rows s)) as Hfl.
  { apply filter_fmap_pointwise; [|done]. intros r _. by rewrite has_id_row. }
  destruct (head _) as [r|] eqn:Hh; cbn [fmap option_fmap option_map].
  - unfold bind at 1. rewrite rel_drop_photo_run.
    destruct (rel_drop_photo_store cfg (row_obj r) s) as [fl' ->].
    unfold bind at 1. rewrite pool_query_ok by done.
    cbn [exec no_upload params_id]. unfold where_id, param. cbn [to_string]. rewrite Hk.
    split; [reflexivity|]. unfold rel_table. cbn. by rewrite Hfl.
  - split; [done|]. unfold rel_table. cbn. rewrite <- Hfl. f_equal. f_equal.
    symmetry. rewrite <- (List.filter_true (rows s)) at 2.
    apply filter_ext_in. intros r Hr%list_elem_of_In.
    by rewrite (head_filter_None _ _ Hh r).
Qed.

Lemma select_item_value (idv : value) t k s :
  faults s = [] → param idv = Some t → int_in cfg t = Some k →
  select_item cfg idv s =
  (Some (row_obj <$> head (List.filter (λ r, id r =? k) (rows s))), s,
   [Sql (SelectById idv) true]).
Proof.
  intros Hf Hp Hk. unfold select_item, bind. rewrite pool_query_ok by done.
  unfold exec, where_id. rewrite Hp, Hk. reflexivity.
Qed.

(** What [search] answers when it finds a row. *)
Lemma rel_search_response req s t k :
  faults s = [] → param (get_prop (req_body req) "id") = Some t → int_in cfg t = Some k →
  search cfg req s =
  (match head (List.filter (λ r, id r =? k) (rows s)) with
   | Some r =>
       {| status := 200;
          content := Json (JObject (to_json
            (search_view (get_prop (req_body req) "has_photo") (row_obj r)))) |}
   | None => {| status := 404; content := Json (JString "Inventory with this id not found") |}
   end, s, [Sql (SelectById (get_prop (req_body req) "id")) true]).
Proof.
  intros Hf Hp Hk. unfold search. cbv zeta.
  unfold bind at 1. rewrite (select_item_value _ t k) by done.
  destruct (head _) as [r|]; cbn [fmap option_fmap option_map]; [|done].
  unfold search_view. cbv zeta. destruct (strict_eq_str _ _); [|done].
  destruct (truthy _); done.
Qed.

Lemma rel_search_refines req s k :
  faults s = [] →
  (∃ t, param (get_prop (req_body req) "id") = Some t ∧ int_in cfg t = Some k) →
  let c := Contract.Search k (strict_eq_str (get_prop (req_body req) "has_photo") "on") in
  Contract.hint_with_photo c (rel_table s) = false →
  let '(resp, s', _) := serve cfg PostSearch req s in
  resp = Contract.reply rel_url c (rel_table s) ∧
  rel_table s' = Contract.next c (rel_table s).
Proof.
  intros Hf (t & Hp & Hk) c Hh. subst c. cbn [serve Contract.reply Contract.next].
  rewrite (rel_search_response _ _ t k) by done.
  cbn [Contract.hint_with_photo] in Hh. rewrite lookup_item_rows in *.
  destruct (head _) as [r|]; cbn [fmap option_fmap option_map] in *; [|done].
  split; [|done]. do 3 f_equal. cbn [no_upload req_body].
  unfold search_view, Contract.search_view. cbv zeta. rewrite view_row.
  destruct (strict_eq_str _ _); [|done].
  assert (truthy (get_prop (Contract.view rel_url (row_obj r)) "photo") = false) as ->.
  { unfold Contract.view. rewrite get_set_prop_eq. by rewrite Hh. }
  done.
Qed.

(** The relational variant answers as the contract does, with its own
    locator, and its rows move as the contract's items do. *)
Lemma rel_refines r req k c s :
  faults s = [] → NoDup (id <$> rows s) → textual_fields req = true →
  rel_reads cfg r req k → as_call r req k = Some c →
  Contract.hint_with_photo c (rel_table s) = false →
  let '(resp, s', _) := serve cfg r req s in
  same_up_to_order resp (Contract.reply rel_url c (rel_table s)) ∧
  rel_table s' = Contract.next c (rel_table s).
Proof.
  intros Hf Hnd Ht Hk Hc Hh.
  assert (∀ (x : response * state * list event) resp0 T,
            (let '(resp, s', _) := x in resp = resp0 ∧ rel_table s' = T) →
            let '(resp, s', _) := x in same_up_to_order resp resp0 ∧ rel_table s' = T) as Heq.
  { intros [[resp s'] t] resp0 T [-> ->]. split; [apply same_up_to_order_refl | done]. }
  destruct r; cbn in Hk, Hc; try discriminate; injection Hc as <-.
  - apply Heq. by apply rel_register_refines.
  - by apply rel_list_refines.
  - apply Heq. by apply rel_get_refines.
  - apply Heq. by apply rel_update_refines.
  - apply Heq. by apply rel_replace_photo_refines.
  - apply Heq. by apply rel_delete_refines.
  - apply Heq. by apply rel_search_refines.
Qed.

End RelRefines.

(** ** The contract does not depend on the order of the items *)

Section ContractOrder.
Import Refine.

Lemma find_Permutation_unique {A} (p : A → bool) (l l' : list A) :
  l ≡ₚ l' →
  (∀ x y, x ∈ l → y ∈ l → p x = true → p y = true → x = y) →
  List.find p l = List.find p l'.
Proof.
  intros Hp Hu.
  destruct (List.find p l) as [x|] eqn:E, (List.find p l') as [y|] eqn:E'; try done.
  - apply find_some in E as [Hx Hpx], E' as [Hy Hpy].
    apply list_elem_of_In in Hx, Hy. rewrite <- Hp in Hy. f_equal. by apply Hu.
  - apply find_some in E as [Hx Hpx]. apply list_elem_of_In in Hx.
    rewrite Hp in Hx. apply list_elem_of_In in Hx.
    by rewrite (find_none _ _ E' x Hx) in Hpx.
  - apply find_some in E' as [Hy Hpy]. apply list_elem_of_In in Hy.
    rewrite <- Hp in Hy. apply list_elem_of_In in Hy.
    by rewrite (find_none _ _ E y Hy) in Hpy.
Qed.

Lemma has_id_VNum k o : Contract.has_id k o = true → get_prop o "id" = VNum k.
Proof.
  unfold Contract.has_id, strict_eq_num.
  destruct (get_prop o "id") as [| | |z|]; try done.
  rewrite Qeq_bool_inject_Z. by intros ->%Z.eqb_eq.
Qed.

Lemma filter_Permutation_bool {A} (p : A → bool) (l l' : list A) :
  l ≡ₚ l' → List.filter p l ≡ₚ List.filter p l'.
Proof.
  induction 1 as [|x l l' _ IH|x y l|l l' l'' _ IH1 _ IH2]; cbn.
  - done.
  - destruct (p x); [by constructor | done].
  - destruct (p x), (p y); try done. apply perm_swap.
  - by etrans.
Qed.

Lemma lookup_item_same_items k a b :
  same_items a b →
  NoDup ((λ o, get_prop o "id") <$> Contract.items a) →
  Contract.lookup_item k a = Contract.lookup_item k b.
Proof.
  intros [Hp _] Hnd. unfold Contract.lookup_item.
  apply find_Permutation_unique; [done|].
  intros x y Hx Hy Hpx%has_id_VNum Hpy%has_id_VNum.
  eapply (NoDup_fmap_same (λ o, get_prop o "id")); eauto. congruence.
Qed.

Lemma hint_with_photo_same_items c a b :
  same_items a b →
  NoDup ((λ o, get_prop o "id") <$> Contract.items a) →
  Contract.hint_with_photo c a = Contract.hint_with_photo c b.
Proof.
  intros Hs Hnd. destruct c; try done. cbn.
  by rewrite (lookup_item_same_items _ a b).
Qed.

(** On the same items in another order the contract answers the same,
    the list apart, which comes in the other order. *)
Lemma reply_same_items u c a b :
  same_items a b →
  NoDup ((λ o, get_prop o "id") <$> Contract.items a) →
  same_up_to_order (Contract.reply u c b) (Contract.reply u c a).
Proof.
  intros Hs Hnd. pose proof Hs as [Hp Hn].
  destruct c; cbn [Contract.reply];
    rewrite <- ?(lookup_item_same_items _ a b Hs Hnd), <- ?Hn;
    try apply same_up_to_order_refl.
  unfold same_up_to_order. cbn. split; [done|].
  change (List.map ?g ?l) with (g <$> l). by apply fmap_Permutation.
Qed.

Lemma next_same_items c a b :
  same_items a b → same_items (Contract.next c a) (Contract.next c b).
Proof.
  intros [Hp Hn]. destruct c; cbn [Contract.next]; try done.
  - destruct (negb _); [done|]. split; cbn; [|by rewrite Hn].
    rewrite Hn. by apply Permutation_app_tail.
  - split; [|done]. cbn. by apply Permutation_map.
  - split; [|done]. cbn. by apply Permutation_map.
  - split; [|done]. cbn. by apply filter_Permutation_bool.
Qed.

Lemma same_items_refl a : same_items a a.
Proof. by split. Qed.

End ContractOrder.

(** ** The specification's claims *)

Section RelTwice.
Import Rel.
Context (cfg : config).

Lemma rel_delete_run req s k :
  faults s = [] → int_in cfg (params_id req) = Some k →
  delete cfg req s =
  match head (List.filter (λ r, id r =? k) (rows s)) with
  | Some r =>
      ({| status := 200; content := Empty |},
       with_table (List.filter (λ r, negb (id r =? k)) (rows s)) (serial s)
                  (drop_photo cfg (row_obj r) s).1,
       Sql (SelectById (VStr (params_id req))) true ::
       (drop_photo cfg (row_obj r) s).2 ++ [Sql (DeleteById (VStr (params_id req))) true])
  | None =>
      ({| status := 404; content := Json (JString "Inventory with this id not found") |},
       s, [Sql (SelectById (VStr (params_id req))) true])
  end.
Proof.
  intros Hf Hk. unfold delete. cbv zeta.
  unfold bind at 1. rewrite (select_item_ok _ _ k) by done.
  destruct (head _) as [r|]; cbn [fmap option_fmap option_map]; [|done].
  unfold bind at 1. rewrite rel_drop_photo_run.
  destruct (rel_drop_photo_store cfg (row_obj r) s) as [fl Hfl].
  unfold bind at 1. rewrite pool_query_ok by (by rewrite Hfl).
  cbn [exec]. unfold where_id, param. cbn [to_string]. rewrite Hk.
  rewrite Hfl. reflexivity.
Qed.

Lemma filter_filter_negb {A} (p : A → bool) (l : list A) :
  List.filter p (List.filter (λ x, negb (p x)) l) = [].
Proof.
  induction l as [|x l IH]; simpl; [done|].
  destruct (p x) eqn:E; simpl; [done|]. by rewrite E.
Qed.

Lemma rel_unlinks_drop_photo (o : obj) s :
  unlinks (drop_photo cfg o s).2 =
  if truthy (get_prop o "photo") &&
     bool_decide (path_join (CACHE cfg) (to_string (get_prop o "photo")) ∈ files s)
  then [path_join (CACHE cfg) (to_string (get_prop o "photo"))] else [].
Proof.
  unfold drop_photo. destruct (truthy _); [|done]. cbv zeta.
  by destruct (bool_decide _).
Qed.

(** [delete] twice, on the relational store. *)
Lemma rel_delete_twice req s k :
  faults s = [] → int_in cfg (params_id req) = Some k →
  let '(r1, s1, t1) := serve cfg DeleteInventoryId req s in
  let '(r2, s2, t2) := serve cfg DeleteInventoryId req s1 in
  r2 = {| status := 404; content := Json (JString "Inventory with this id not found") |} ∧
  s2 = s1 ∧ unlinks t2 = [] ∧
  match head (List.filter (λ r, id r =? k) (rows s)) with
  | Some r =>
      r1 = {| status := 200; content := Empty |} ∧
      unlinks t1 =
        (let p := path_join (CACHE cfg) (to_string (column (photo r))) in
         if truthy (column (photo r)) && bool_decide (p ∈ files s) then [p] else [])
  | None => r1 = r2 ∧ s1 = s ∧ unlinks t1 = []
  end.
Proof.
  intros Hf Hk. cbn [serve]. rewrite (rel_delete_run _ _ k) by done.
  cbn [no_upload params_id].
  destruct (head _) as [r|] eqn:Hh.
  - destruct (rel_drop_photo_store cfg (row_obj r) s) as [fl Hfl].
    rewrite (rel_delete_run _ _ k) by (by rewrite ?Hfl).
    rewrite Hfl. cbn [rows with_table with_files no_upload params_id].
    rewrite filter_filter_negb. cbn [head].
    repeat split; try done.
    change (unlinks (?a :: ?l)) with (unlinks ([a] ++ l)).
    rewrite !unlinks_app, rel_unlinks_drop_photo. cbn. by rewrite app_nil_r.
  - rewrite (rel_delete_run _ _ k) by done. cbn [no_upload params_id]. rewrite Hh. done.
Qed.

(** [search] changes neither the table nor the files; all it does is one
    SELECT. *)
Lemma rel_search_readonly req s :
  let '(r, s', t) := serve cfg PostSearch req s in
  (∀ f, with_faults f s' = with_faults f s) ∧ unlinks t = [] ∧
  ∃ ok, t = [Sql (SelectById (get_prop (req_body req) "id")) ok].
Proof.
  cbn [serve]. unfold search, select_item, bind, pool_query. cbv zeta.
  cbn [no_upload req_body].
  destruct (faults s) as [|[] fs] eqn:Hf; cbn [exec];
    try destruct (where_id cfg (get_prop (req_body req) "id")); cbn;
    repeat match goal with |- context [head ?l] => destruct (head l) end;
    cbn; (split; [done|]); (split; [done|]); by eexists.
Qed.

End RelTwice.

Section FlatOrder.
Import Flat FlatRun.
Context (cfg : config).






(** A registration without a name: the upload stays in the uploads
    directory. *)
Lemma flat_register_rejected req s f :
  truthy (get_prop (req_body req) "inventory_name") = false →
  req_file req = Some f →
  serve cfg PostRegister req s =
  ({| status := 400; content := Text "Name required" |},
   with_files ({[path_join (uploadsPath cfg) f]} ∪ files s) s, []).
Proof.
  intros Hn Hfile. rewrite serve_register, register_reject by done.
  unfold uploaded. by rewrite Hfile.
Qed.

Lemma truthy_locator (v : value) (u : string) :
  truthy (if truthy v then VStr ("http://" +:+ u) else VNull) = truthy v.
Proof. by destruct (truthy v). Qed.

(** The description [search] answers with when the hint is asked for. *)
Lemma flat_search_marker req s item :
  found (parseInt (get_prop (req_body req) "id")) s = Some item →
  strict_eq_str (get_prop (req_body req) "has_photo") "on" = true →
  let o := deref s item in
  let resp := (serve cfg PostSearch req s).1.1 in
  status resp = 200 ∧
  Order.body_prop resp "description" =
    VStr (to_string (get_prop o "description") +:+
          (if truthy (get_prop o "photo")
           then " [Photo:" +:+ Refine.flat_url cfg
                  ("/inventory/" +:+ to_string (get_prop o "id") +:+ "/photo") +:+ "]"
           else " [No photo available]")).
Proof.
  intros Hf Hh o resp. subst resp. cbn [serve]. rewrite search_response.
  cbn [no_upload req_body]. rewrite Hf. split; [done|].
  unfold Order.body_prop. cbn [content]. fold o.
  unfold search_view. cbv zeta. rewrite Hh.
  assert (get_prop (without_prop (formatted cfg o) "photo") "description" =
          get_prop o "description") as Hd.
  { rewrite get_without_prop_ne by done. unfold formatted.
    by rewrite get_set_prop_ne. }
  unfold formatted at 1. rewrite get_set_prop_eq, truthy_locator.
  destruct (truthy (get_prop o "photo")) eqn:Ht.
  - rewrite get_prop_to_json; rewrite get_set_prop_eq; [|done].
    unfold plus_str. rewrite Hd. unfold formatted. rewrite get_set_prop_eq, Ht.
    reflexivity.
  - rewrite get_prop_to_json; rewrite get_set_prop_eq; [|done].
    unfold plus_str. by rewrite Hd.
Qed.

End FlatOrder.

Section RelOrder.
Import Rel.
Context (cfg : config).




(** A registration without a name: the upload is unlinked again. *)
Lemma rel_register_rejected req s f :
  truthy (get_prop (req_body req) "inventory_name") = false →
  req_file req = Some f →
  serve cfg PostRegister req s =
  ({| status := 400; content := Text "Name required" |},
   with_files (({[path_join (CACHE cfg) f]} ∪ files s) ∖ {[path_join (CACHE cfg) f]}) s,
   [Unlink (path_join (CACHE cfg) f)]).
Proof.
  intros Hn Hfile. rewrite rel_serve_register. unfold register. cbv zeta.
  rewrite Hn. cbn [negb]. unfold uploaded, discard_upload. rewrite Hfile.
  reflexivity.
Qed.

Lemma rel_truthy_locator (v : value) (u : string) :
  truthy (if truthy v then VStr ("/inventory/" +:+ u) else VNull) = truthy v.
Proof. by destruct (truthy v). Qed.

Lemma rel_search_marker req s t k r :
  faults s = [] → param (get_prop (req_body req) "id") = Some t → int_in cfg t = Some k →
  head (List.filter (λ r, id r =? k) (rows s)) = Some r →
  strict_eq_str (get_prop (req_body req) "has_photo") "on" = true →
  let o := row_obj r in
  let resp := (serve cfg PostSearch req s).1.1 in
  status resp = 200 ∧
  Order.body_prop resp "description" =
    VStr (to_string (get_prop o "description") +:+
          (if truthy (get_prop o "photo")
           then " [Photo: " +:+ Refine.rel_url
                  ("/inventory/" +:+ to_string (get_prop o "id") +:+ "/photo") +:+ " ]"
           else " [No photo available]")).
Proof.
  intros Hf Hp Hk Hh Hon o resp. subst resp. cbn [serve].
  rewrite (rel_search_response _ _ _ t k) by done. rewrite Hh. cbn [fst].
  split; [done|]. unfold Order.body_prop. cbn [content no_upload req_body]. fold o.
  unfold search_view. cbv zeta. rewrite Hon.
  assert (get_prop (without_prop (formatItemResponse o) "photo") "description" =
          get_prop o "description") as Hd.
  { rewrite get_without_prop_ne by done. unfold formatItemResponse.
    by rewrite get_set_prop_ne. }
  unfold formatItemResponse at 1. rewrite get_set_prop_eq, rel_truthy_locator.
  destruct (truthy (get_prop o "photo")) eqn:Ht.
  - rewrite get_prop_to_json; rewrite get_set_prop_eq; [|done].
    unfold plus_str. rewrite Hd. unfold formatItemResponse. rewrite get_set_prop_eq, Ht.
    reflexivity.
  - rewrite get_prop_to_json; rewrite get_set_prop_eq; [|done].
    unfold plus_str. by rewrite Hd.
Qed.

End RelOrder.

Section Claims.
Import Flat FlatRun.

(** C7 (invariant I1).  Over every history of the flat-file store that
    keeps the counter below 2^53 (where JavaScript's [n + 1] is exact): the
    registrations were handed the ids 1, 2, 3, ... in order, each read from
    [nextId]; no id was handed out twice, whatever was deleted in between;
    the stored items carry distinct ids, all among those handed out; and
    inventory.json holds the current [nextId] together with the current
    list. *)
Theorem ids_assigned_once_from_counter (cfg : config) (ops : list op) :
  let s := run cfg ops init in
  inv_nextId s < 2 ^ 53 →
  assigned cfg ops init = VNum <$> seqZ 1 (inv_nextId s - 1) ∧
  NoDup (assigned cfg ops init) ∧
  NoDup (stored_ids s) ∧
  (∀ v, v ∈ stored_ids s → v ∈ assigned cfg ops init) ∧
  dbFile s = stringify s.
Proof.
  intros s Hb. pose proof (wf_run cfg ops init wf_init) as W. fold s in W.
  destruct (run_counter cfg ops init wf_init Hb) as [_ Ha]. fold s in Ha.
  change (inv_nextId init) with 1 in Ha. rewrite Ha.
  destruct (wf_ids s W Hb) as [Wa Wb].
  split; [done|]. split; [|split; [|split]].
  - apply NoDup_fmap_2_strong; [|apply NoDup_seqZ]. by intros ? ? _ _ [= ->].
  - apply NoDup_fmap_2_strong; [|apply (wf_nodup s W)].
    intros l1 l2 H1 H2. by apply Wb.
  - intros v (l & -> & Hl)%list_elem_of_fmap.
    destruct (Wa l Hl) as (k & -> & ?).
    apply list_elem_of_fmap_2, elem_of_seqZ. lia.
  - apply (wf_disk s W).
Qed.

(** C8.  Deleting the same id twice in a row: the second call answers
    not-found, changes nothing and unlinks nothing; the first call, when it
    finds the item, unlinks its photo once if the photo is on disk, and
    nothing otherwise.  On the flat-file store after any history that keeps
    the counter below 2^53, and on the relational store when the queries
    succeed and the database reads the id as an integer. *)
Theorem delete_twice_second_absent
    (cfg : config) (ops : list op) (req : request)
    (rcfg : Rel.config) (rs : Rel.state) (k : Z) :
  let s := run cfg ops init in
  inv_nextId s < 2 ^ 53 →
  Rel.faults rs = [] → Rel.int_in rcfg (params_id req) = Some k →
  (let '(r1, s1, t1) := serve cfg DeleteInventoryId req s in
   let '(r2, s2, t2) := serve cfg DeleteInventoryId req s1 in
   r2 = absent ∧ s2 = s1 ∧ t2 = [] ∧
   match found (Number (params_id req)) s with
   | Some item =>
       r1 = {| status := 200; content := Empty |} ∧
       (item ∉ inv_list s1) ∧
       unlinks t1 =
         (let o := deref s item in
          let p := path_join (uploadsPath cfg) (to_string (get_prop o "photo")) in
          if truthy (get_prop o "photo") && bool_decide (p ∈ files s) then [p] else [])
   | None => r1 = absent ∧ s1 = s ∧ t1 = []
   end) ∧
  (let '(r1, s1, t1) := Rel.serve rcfg DeleteInventoryId req rs in
   let '(r2, s2, t2) := Rel.serve rcfg DeleteInventoryId req s1 in
   r2 = absent ∧ s2 = s1 ∧ unlinks t2 = [] ∧
   match head (List.filter (λ r, Rel.id r =? k) (Rel.rows rs)) with
   | Some r =>
       r1 = {| status := 200; content := Empty |} ∧
       unlinks t1 =
         (let p := path_join (Rel.CACHE rcfg) (to_string (Rel.column (Rel.photo r))) in
          if truthy (Rel.column (Rel.photo r)) && bool_decide (p ∈ Rel.files rs)
          then [p] else [])
   | None => r1 = r2 ∧ s1 = rs ∧ unlinks t1 = []
   end).
Proof.
  intros s Hb Hf Hk. split.
  - apply flat_delete_twice; [apply wf_run, wf_init | done].
  - by apply rel_delete_twice.
Qed.

(** C9.  A search, with or without the photo hint, leaves the stored items
    as they were.  Flat-file store: no outside effect, the list, the counter,
    the file and every stored object unchanged, so that a later [get]
    answers exactly as it would have before.  Relational store: the table
    and the files unchanged, the only statement issued a SELECT. *)
Theorem search_never_changes_the_store
    (cfg : config) (ops : list op) (req : request)
    (rcfg : Rel.config) (rs : Rel.state) :
  let s := run cfg ops init in
  (let '(r, s', t) := serve cfg PostSearch req s in
   t = [] ∧ inv_list s' = inv_list s ∧ inv_nextId s' = inv_nextId s ∧
   dbFile s' = dbFile s ∧ files s' = files s ∧
   (∀ l, l ∈ inv_list s → deref s' l = deref s l) ∧
   ∀ q, (serve cfg GetInventoryId q s').1.1 = (serve cfg GetInventoryId q s).1.1) ∧
  (let '(r, rs', t) := Rel.serve rcfg PostSearch req rs in
   (∀ f, Rel.with_faults f rs' = Rel.with_faults f rs) ∧ unlinks t = [] ∧
   ∃ ok, t = [Sql (SelectById (get_prop (req_body req) "id")) ok]).
Proof.
  intros s. split.
  - apply flat_search_readonly, wf_run, wf_init.
  - apply rel_search_readonly.
Qed.

(** C10, amended.  In the flat-file variant [GET /inventory/:id] always
    answers, with 200 or 404 and no outside effect: 404 exactly when no
    stored item's id is strictly equal to [Number(id)], which covers every
    id that [Number] turns into NaN; 200 with the first such item
    otherwise. *)
Theorem get_by_id_answers_by_Number (cfg : config) (req : request) (s : state) :
  serve cfg GetInventoryId req s =
    match found (Number (params_id req)) s with
    | Some item => (answer cfg s item, answered cfg s item, [])
    | None => (absent, s, [])
    end ∧
  (found (Number (params_id req)) s = None ↔
   ∀ l, l ∈ inv_list s → strict_eq_num (item_id s l) (Number (params_id req)) = false) ∧
  (Number (params_id req) = NaN → (serve cfg GetInventoryId req s).1.1 = absent) ∧
  (status (serve cfg GetInventoryId req s).1.1 = 200 ∨
   status (serve cfg GetInventoryId req s).1.1 = 404).
Proof.
  assert (serve cfg GetInventoryId req s =
          match found (Number (params_id req)) s with
          | Some item => (answer cfg s item, answered cfg s item, [])
          | None => (absent, s, [])
          end) as Hrun.
  { cbn [serve]. by rewrite get_item_run. }
  split; [exact Hrun|]. split; [apply found_none_iff|]. rewrite Hrun. split.
  - intros Hn. assert (found (Number (params_id req)) s = None) as ->; [|done].
    apply found_none_iff. intros l _. rewrite Hn. apply strict_eq_num_NaN.
  - destruct (found _ _); [by left | by right].
Qed.


(** C2.  A registration whose name is empty or missing, sent with a photo:
    both variants answer 400 and create no item, but only the relational
    one unlinks the upload; the flat-file one leaves it in the uploads
    directory. *)
Theorem rejected_registration_and_its_upload
    (cfg : config) (s : state) (rcfg : Rel.config) (rs : Rel.state)
    (req : request) (f : string) :
  truthy (get_prop (req_body req) "inventory_name") = false →
  req_file req = Some f →
  (let '(resp, s', t) := serve cfg PostRegister req s in
   resp = {| status := 400; content := Text "Name required" |} ∧
   heap s' = heap s ∧ inv_list s' = inv_list s ∧ inv_nextId s' = inv_nextId s ∧
   dbFile s' = dbFile s ∧ t = [] ∧
   path_join (uploadsPath cfg) f ∈ files s') ∧
  (let '(resp, rs', t) := Rel.serve rcfg PostRegister req rs in
   resp = {| status := 400; content := Text "Name required" |} ∧
   Rel.rows rs' = Rel.rows rs ∧ Rel.serial rs' = Rel.serial rs ∧
   t = [Unlink (path_join (Rel.CACHE rcfg) f)] ∧
   path_join (Rel.CACHE rcfg) f ∉ Rel.files rs').
Proof.
  intros Hn Hf. split.
  - rewrite (flat_register_rejected cfg req s f) by done.
    repeat split; try done. cbn.
    apply elem_of_union. left. by apply elem_of_singleton.
  - rewrite (rel_register_rejected rcfg req rs f) by done.
    repeat split; try done. cbn.
    apply not_elem_of_difference. right. by apply elem_of_singleton.
Qed.


(** C6, amended.  A search with [has_photo = "on"] that finds an item
    answers 200 with the stored description followed by a marker: for an
    item without a photo, " [No photo available]" in both variants; for an
    item with a photo, " [Photo:<locator>]" in the flat-file variant and
    " [Photo: <locator> ]" in the relational one, where the locator is the
    photo URL the response formatter builds, not the stored reference. *)
Theorem search_hint_marker
    (cfg : config) (s : state) (req : request) (item : loc)
    (rcfg : Rel.config) (rs : Rel.state) (t : string) (k : Z) (r : Rel.row) :
  found (parseInt (get_prop (req_body req) "id")) s = Some item →
  strict_eq_str (get_prop (req_body req) "has_photo") "on" = true →
  Rel.faults rs = [] → Rel.param (get_prop (req_body req) "id") = Some t →
  Rel.int_in rcfg t = Some k →
  head (List.filter (λ r, Rel.id r =? k) (Rel.rows rs)) = Some r →
  (let o := deref s item in
   let resp := (serve cfg PostSearch req s).1.1 in
   status resp = 200 ∧
   Order.body_prop resp "description" =
     VStr (to_string (get_prop o "description") +:+
           (if truthy (get_prop o "photo")
            then " [Photo:" +:+ Refine.flat_url cfg
                   ("/inventory/" +:+ to_string (get_prop o "id") +:+ "/photo") +:+ "]"
            else " [No photo available]"))) ∧
  (let o := Rel.row_obj r in
   let resp := (Rel.serve rcfg PostSearch req rs).1.1 in
   status resp = 200 ∧
   Order.body_prop resp "description" =
     VStr (to_string (get_prop o "description") +:+
           (if truthy (get_prop o "photo")
            then " [Photo: " +:+ Refine.rel_url
                   ("/inventory/" +:+ to_string (get_prop o "id") +:+ "/photo") +:+ " ]"
            else " [No photo available]"))).
Proof.
  intros Hf Hon Hfl Hp Hk Hh. split.
  - by apply flat_search_marker.
  - by apply (rel_search_marker rcfg req rs t k r).
Qed.

Lemma status_reply_any_url u1 u2 c a :
  status (Contract.reply u1 c a) = status (Contract.reply u2 c a).
Proof.
  destruct c; cbn; try done;
    try (destruct (negb _); done);
    destruct (Contract.lookup_item _ _); done.
Qed.

(** C4, amended.  Take a flat-file store after any history that keeps the
    counter below 2^53 and a relational store holding the same items and
    counter, and a request for register, list, get, update_metadata,
    replace_photo, delete or search whose name and description are strings
    or absent and whose id both variants read as the same integer.  If the
    relational queries succeed, and unless the request is a search with the
    hint that finds an item with a photo, both variants answer what the
    contract answers -- the same status and the same body, each with the
    photo locator its own URL function builds -- and they end up holding
    the same items and counter again.  The database lists its rows in an
    order of its own choosing: the relational list holds the contract's
    entries, in that order. *)
Theorem variants_agree_with_contract
    (cfg : config) (ops : list op) (rcfg : Rel.config) (rs : Rel.state)
    (r : route) (req : request) (k : Z) (c : Contract.call) :
  let s := run cfg ops init in
  inv_nextId s < 2 ^ 53 →
  Rel.faults rs = [] →
  Refine.same_items (Refine.flat_table s) (Refine.rel_table rs) →
  Refine.textual_fields req = true →
  Refine.flat_reads r req k → Refine.rel_reads rcfg r req k →
  Refine.as_call r req k = Some c →
  Contract.hint_with_photo c (Refine.flat_table s) = false →
  let '(r1, s', _) := serve cfg r req s in
  let '(r2, rs', _) := Rel.serve rcfg r req rs in
  r1 = Contract.reply (Refine.flat_url cfg) c (Refine.flat_table s) ∧
  Refine.same_up_to_order r2 (Contract.reply Refine.rel_url c (Refine.flat_table s)) ∧
  status r1 = status r2 ∧
  Refine.same_items (Refine.flat_table s') (Refine.rel_table rs').
Proof.
  intros s Hb Hfl Ht Htx Hfr Hrr Hc Hh.
  pose proof (wf_run cfg ops init wf_init) as W. fold s in W.
  assert (NoDup ((λ o, get_prop o "id") <$> Contract.items (Refine.flat_table s))) as Hids.
  { destruct (wf_ids s W Hb) as [Wa Wb].
    cbn [Refine.flat_table Contract.items]. rewrite <- list_fmap_compose.
    apply NoDup_fmap_2_strong; [|apply (wf_nodup s W)].
    intros l1 l2 H1 H2. by apply Wb. }
  assert (NoDup (Rel.id <$> Rel.rows rs)) as Hnd.
  { apply (NoDup_fmap_1 VNum). destruct Ht as [Hp _].
    apply (fmap_Permutation (λ o, get_prop o "id")) in Hp. rewrite Hp in Hids.
    cbn [Refine.rel_table Contract.items] in Hids.
    rewrite <- list_fmap_compose in Hids. rewrite <- list_fmap_compose. exact Hids. }
  pose proof (flat_refines cfg r req k c s W Hb Hfr Hc Hh) as H1.
  rewrite (hint_with_photo_same_items c _ _ Ht Hids) in Hh.
  pose proof (rel_refines rcfg r req k c rs Hfl Hnd Htx Hrr Hc Hh) as H2.
  pose proof (reply_same_items Refine.rel_url c _ _ Ht Hids) as H3.
  destruct (serve cfg r req s) as [[r1 s'] t1].
  destruct (Rel.serve rcfg r req rs) as [[r2 rs'] t2].
  destruct H1 as [-> ->], H2 as [H2 ->].
  pose proof (same_up_to_order_trans _ _ _ H2 H3) as H4.
  split_and!; [done | done | | by apply next_same_items].
  rewrite (same_up_to_order_status _ _ H4). apply status_reply_any_url.
Qed.

(** C5.  An update whose [inventory_name] is the empty string is accepted
    and persisted: the found item ends up with an empty name in memory and
    in inventory.json, and the matching rows in the relational table.  The
    update path does not repeat the check that [register] makes. *)
Theorem update_persists_an_empty_name
    (cfg : config) (ops : list op) (req : request) (item : loc)
    (rcfg : Rel.config) (rs : Rel.state) (k : Z) (r : Rel.row) :
  let s := run cfg ops init in
  get_prop (req_body req) "inventory_name" = VStr "" →
  found (Number (params_id req)) s = Some item →
  Rel.faults rs = [] → Rel.int_in rcfg (params_id req) = Some k →
  head (List.filter (λ r, Rel.id r =? k) (Rel.rows rs)) = Some r →
  (let '(resp, s', _) := serve cfg PutInventoryId req s in
   status resp = 200 ∧ item ∈ inv_list s' ∧
   get_prop (deref s' item) "inventory_name" = VStr "" ∧
   ∃ o, o ∈ snap_list (dbFile s') ∧ get_prop o "inventory_name" = VStr "") ∧
  (let '(resp, rs', _) := Rel.serve rcfg PutInventoryId req rs in
   status resp = 200 ∧
   ∃ r', r' ∈ Rel.rows rs' ∧ Rel.id r' = k ∧ Rel.inventory_name r' = Some "").
Proof.
  intros s Hn Hf Hfl Hk Hh. split.
  - pose proof (wf_run cfg ops init wf_init) as W. fold s in W.
    cbn [serve]. rewrite (update_run _ _ _ item) by done.
    assert (item ∈ inv_list s) as Hin by (by eapply found_elem).
    assert (item < length (heap s))%nat as Hi by (by apply (wf_locs s W)).
    assert (get_prop (deref (updated (no_upload req) item s) item) "inventory_name"
            = VStr "") as Hname.
    { rewrite deref_updated, decide_True by done.
      unfold Contract.with_metadata. cbv zeta.
      rewrite get_set_prop_ne, get_set_prop_eq by done.
      cbn [no_upload req_body]. by rewrite Hn. }
    split; [done|]. split; [done|]. split.
    + rewrite (extends_deref (updated (no_upload req) item s));
        [done | apply extends_alloc |].
      unfold updated. cbv zeta. proj_simpl. by rewrite !length_alter.
    + exists (to_json (deref (updated (no_upload req) item s) item)). split.
      * unfold answered, updated at 1. cbv zeta. proj_simpl.
        unfold stringify. cbn [snap_list].
        apply list_elem_of_In, in_map_iff. exists item. split; [|by apply list_elem_of_In].
        reflexivity.
      * rewrite get_prop_to_json; by rewrite Hname.
  - cbn [Rel.serve]. unfold Rel.update. cbv zeta.
    unfold bind at 1. rewrite (select_item_ok _ _ k) by done. rewrite Hh.
    cbn [fmap option_fmap option_map].
    unfold bind at 1. rewrite pool_query_ok by done.
    cbn [Rel.exec Rel.no_upload params_id req_body]. unfold Rel.where_id, Rel.param.
    cbn [to_string]. rewrite Hk. split; [done|].
    apply head_filter_Some in Hh as [Hr Hid].
    eexists. split.
    + cbn [Rel.rows Rel.with_table]. apply list_elem_of_In, in_map_iff.
      exists r. split; [|by apply list_elem_of_In]. rewrite Hid. reflexivity.
    + cbn. split; [by apply Z.eqb_eq|]. by rewrite Hn.
Qed.

End Claims.

(** ** Worked examples *)

Section Worked.
Import Flat FlatRun Example.

Lemma update_persists_an_empty_name_witness :
  get_prop (req_body unname) "inventory_name" = VStr "" ∧
  found (Number (params_id unname)) flat_drill = Some 0%nat ∧
  (let '(resp, s', _) := serve flat_cfg PutInventoryId unname flat_drill in
   status resp = 200 ∧ get_prop (deref s' 0%nat) "inventory_name" = VStr "") ∧
  snap_list (dbFile (serve flat_cfg PutInventoryId unname flat_drill).1.2) =
    [[("id", VNum 1); ("inventory_name", VStr ""); ("description", VStr "cordless");
      ("photo", VNull)]] ∧
  Rel.rows (Rel.serve rel_cfg PutInventoryId unname rel_drill).1.2 =
    [{| Rel.id := 1; Rel.inventory_name := Some ""; Rel.description := Some "cordless";
        Rel.photo := None |}].
Proof.
  assert (found (Number (params_id unname)) flat_drill = Some 0%nat) as Hf
    by (vm_compute; reflexivity).
  split; [reflexivity|]. split; [exact Hf|].
  destruct (update_persists_an_empty_name flat_cfg [Call PostRegister drill] unname 0%nat
              rel_cfg rel_drill 1
              {| Rel.id := 1; Rel.inventory_name := Some "Drill";
                 Rel.description := Some "cordless"; Rel.photo := None |}
              eq_refl Hf eq_refl eq_refl eq_refl) as [H _].
  change (run flat_cfg [Call PostRegister drill] init) with flat_drill in H.
  split; [|vm_compute; by split].
  destruct (serve flat_cfg PutInventoryId unname flat_drill) as [[resp s'] t].
  destruct H as (H1 & _ & H2 & _). by split.
Defined.

Lemma ids_assigned_once_from_counter_witness :
  inv_nextId (run flat_cfg history init) < 2 ^ 53 ∧
  assigned flat_cfg history init = [VNum 1; VNum 2; VNum 3] ∧
  stored_ids (run flat_cfg history init) = [VNum 2; VNum 3].
Proof.
  split; [vm_compute; reflexivity|].
  destruct (ids_assigned_once_from_counter flat_cfg history) as (Ha & _).
  - vm_compute; reflexivity.
  - split; [exact Ha | vm_compute; reflexivity].
Defined.

Lemma delete_twice_second_absent_witness :
  inv_nextId flat_saw < 2 ^ 53 ∧ Rel.faults rel_saw = [] ∧
  Rel.int_in rel_cfg (params_id by_id) = Some 1 ∧
  (let '(r1, s1, t1) := serve flat_cfg DeleteInventoryId by_id flat_saw in
   let '(r2, s2, t2) := serve flat_cfg DeleteInventoryId by_id s1 in
   status r1 = 200 ∧ status r2 = 404 ∧
   unlinks t1 = ["cache/uploads/8f3a"] ∧ unlinks t2 = []).
Proof.
  assert (inv_nextId flat_saw < 2 ^ 53) as Hb by (vm_compute; reflexivity).
  split; [exact Hb|]. split; [reflexivity|]. split; [reflexivity|].
  destruct (delete_twice_second_absent flat_cfg [Call PostRegister saw] by_id
              rel_cfg rel_saw 1 Hb eq_refl eq_refl) as [H _].
  change (run flat_cfg [Call PostRegister saw] init) with flat_saw in H.
  destruct (serve flat_cfg DeleteInventoryId by_id flat_saw) as [[r1 s1] t1] eqn:E1.
  destruct (serve flat_cfg DeleteInventoryId by_id s1) as [[r2 s2] t2].
  destruct H as (-> & _ & -> & H).
  assert (found (Number (params_id by_id)) flat_saw = Some 0%nat) as Hf
    by (vm_compute; reflexivity).
  rewrite Hf in H. destruct H as (-> & _ & Hu).
  repeat split; done.
Defined.



Lemma rejected_registration_and_its_upload_witness :
  truthy (get_prop (req_body unnamed) "inventory_name") = false ∧
  req_file unnamed = Some "c09d" ∧
  status (serve flat_cfg PostRegister unnamed flat_saw).1.1 = 400 ∧
  "cache/uploads/c09d" ∈ files (serve flat_cfg PostRegister unnamed flat_saw).1.2 ∧
  "cache/c09d" ∉ Rel.files (Rel.serve rel_cfg PostRegister unnamed rel_saw).1.2.
Proof.
  split; [reflexivity|]. split; [reflexivity|].
  destruct (rejected_registration_and_its_upload flat_cfg flat_saw rel_cfg rel_saw
              unnamed "c09d" eq_refl eq_refl) as [H1 H2].
  destruct (serve flat_cfg PostRegister unnamed flat_saw) as [[r1 s1] t1].
  destruct (Rel.serve rel_cfg PostRegister unnamed rel_saw) as [[r2 s2] t2].
  destruct H1 as (-> & _ & _ & _ & _ & _ & Hin), H2 as (_ & _ & _ & _ & Hout).
  repeat split; done.
Defined.



(** C6 as stated fails: with the hint and a photo, the description ends
    neither with "[Photo: <stored reference>]" nor with
    "[Photo: <locator>]", in either variant. *)
Lemma photo_marker_is_worded_otherwise :
  Order.body_prop (serve flat_cfg PostSearch hinted_search flat_saw).1.1 "description"
    = VStr " [Photo:http://localhost:3000/inventory/1/photo]" ∧
  Order.ends_with "[Photo: 8f3a]"
    " [Photo:http://localhost:3000/inventory/1/photo]" = false ∧
  Order.ends_with "[Photo: http://localhost:3000/inventory/1/photo]"
    " [Photo:http://localhost:3000/inventory/1/photo]" = false ∧
  Order.body_prop (Rel.serve rel_cfg PostSearch hinted_search rel_saw).1.1 "description"
    = VStr " [Photo: /inventory/1/photo ]" ∧
  Order.ends_with "[Photo: 8f3a]" " [Photo: /inventory/1/photo ]" = false ∧
  Order.ends_with "[Photo: /inventory/1/photo]" " [Photo: /inventory/1/photo ]" = false.
Proof. vm_compute. repeat split. Qed.

Lemma search_hint_marker_witness :
  found (parseInt (get_prop (req_body hinted_search) "id")) flat_drill = Some 0%nat ∧
  Order.ends_with "[No photo available]" "cordless [No photo available]" = true ∧
  Order.body_prop (serve flat_cfg PostSearch hinted_search flat_drill).1.1 "description"
    = VStr "cordless [No photo available]" ∧
  Order.body_prop (Rel.serve rel_cfg PostSearch hinted_search rel_drill).1.1 "description"
    = VStr "cordless [No photo available]".
Proof.
  assert (found (parseInt (get_prop (req_body hinted_search) "id")) flat_drill = Some 0%nat)
    as Hf by (vm_compute; reflexivity).
  split; [exact Hf|]. split; [reflexivity|].
  destruct (search_hint_marker flat_cfg flat_drill hinted_search 0%nat
              rel_cfg rel_drill "1" 1
              {| Rel.id := 1; Rel.inventory_name := Some "Drill";
                 Rel.description := Some "cordless"; Rel.photo := None |}
              Hf eq_refl eq_refl eq_refl eq_refl eq_refl) as [[_ H1] [_ H2]].
  split; [rewrite H1 | rewrite H2]; vm_compute; reflexivity.
Defined.

(** C10 as stated fails: "0x1" is not the decimal numeral of the stored id
    1, yet [Number] reads it as 1 and the item is found. *)
Lemma hex_id_is_found :
  stored_ids flat_saw = [VNum 1] ∧ "0x1" ≠ pretty 1 ∧
  Number "0x1" = Fin 1 ∧
  status (serve flat_cfg GetInventoryId by_hex_id flat_saw).1.1 = 200.
Proof. vm_compute. repeat split. discriminate. Qed.

(** C4 as stated fails: the two variants answer a hinted search for an item
    with a photo differently, with the locator's base taken out or not. *)
Lemma hinted_search_answers_differ :
  Refine.flat_table flat_saw = Refine.rel_table rel_saw ∧
  (serve flat_cfg PostSearch hinted_search flat_saw).1.1 ≠
    (Rel.serve rel_cfg PostSearch hinted_search rel_saw).1.1 ∧
  Order.without_base "http://localhost:3000"
    (serve flat_cfg PostSearch hinted_search flat_saw).1.1 ≠
    (Rel.serve rel_cfg PostSearch hinted_search rel_saw).1.1.
Proof.
  split; [vm_compute; reflexivity|].
  split; intros H; vm_compute in H; discriminate H.
Qed.

Lemma variants_agree_with_contract_witness :
  inv_nextId flat_both < 2 ^ 53 ∧
  Refine.same_items (Refine.flat_table flat_both) (Refine.rel_table rel_both) ∧
  (let '(r1, s', _) := serve flat_cfg GetInventory everything flat_both in
   let '(r2, rs', _) := Rel.serve rel_cfg_newest_first GetInventory everything rel_both in
   r1 = Contract.reply (Refine.flat_url flat_cfg) Contract.ListAll
          (Refine.flat_table flat_both) ∧
   Refine.same_up_to_order r2
     (Contract.reply Refine.rel_url Contract.ListAll (Refine.flat_table flat_both)) ∧
   status r1 = status r2 ∧
   Refine.same_items (Refine.flat_table s') (Refine.rel_table rs')).
Proof.
  assert (inv_nextId flat_both < 2 ^ 53) as Hb by (vm_compute; reflexivity).
  assert (Refine.same_items (Refine.flat_table flat_both) (Refine.rel_table rel_both)) as Ht
    by (split; vm_compute; reflexivity).
  split; [exact Hb|]. split; [exact Ht|].
  exact (variants_agree_with_contract flat_cfg
           [Call PostRegister saw; Call PostRegister drill]
           rel_cfg_newest_first rel_both GetInventory everything 0 Contract.ListAll
           Hb eq_refl Ht eq_refl I I eq_refl eq_refl).
Defined.

(** The order of the relational list is the database's: over the same two
    items, a database that lists oldest first answers as the flat-file
    variant does (the locator's base apart), one that lists newest first
    answers with the same entries the other way round. *)
Lemma relational_list_follows_the_database :
  Refine.flat_table flat_both = Refine.rel_table rel_both ∧
  Order.without_base "http://localhost:3000"
    (serve flat_cfg GetInventory everything flat_both).1.1 =
    (Rel.serve rel_cfg GetInventory everything rel_both).1.1 ∧
  (Rel.serve rel_cfg_newest_first GetInventory everything rel_both).1.1 ≠
    (Rel.serve rel_cfg GetInventory everything rel_both).1.1 ∧
  Order.body_prop (Rel.serve rel_cfg PostRegister drill rel_saw).1.1 "id" = VNum 2 ∧
  (Rel.serve rel_cfg_newest_first GetInventory everything rel_both).1.1 =
    {| status := 200;
       content := Json (JArray
         [[("id", VNum 2); ("inventory_name", VStr "Drill");
           ("description", VStr "cordless"); ("photo", VNull)];
          [("id", VNum 1); ("inventory_name", VStr "Saw");
           ("description", VStr ""); ("photo", VStr "/inventory/1/photo")]]) |}.
Proof.
  split; [vm_compute; reflexivity|].
  split; [vm_compute; reflexivity|].
  split; [intros H; vm_compute in H; discriminate H|].
  split; vm_compute; reflexivity.
Qed.

End Worked.

(** ** Reading back a printed id *)

(** The ten digit characters. *)
Lemma pretty_N_char_digit (k : N) :
  ∃ d, 0 <= d < 10 ∧ digit_of 10 (pretty_N_char k) = Some d ∧
       is_ws (pretty_N_char k) = false ∧
       ((k < 10)%N → d = Z.of_N k).
Proof.
  unfold pretty_N_char.
  repeat case_match; subst;
    (eexists; split; [|split; [vm_compute; reflexivity|split; [reflexivity|]]]; [lia|lia]).
Qed.

Lemma append_nil_r (s : string) : s +:+ "" = s.
Proof.
  induction s as [|a s IH]; [done|].
  change (String a (s +:+ "") = String a s). by rewrite IH.
Qed.

Lemma append_assoc (s1 s2 s3 : string) : (s1 +:+ s2) +:+ s3 = s1 +:+ (s2 +:+ s3).
Proof.
  induction s1 as [|a s1 IH]; [done|].
  change (String a ((s1 +:+ s2) +:+ s3) = String a (s1 +:+ (s2 +:+ s3))).
  by rewrite IH.
Qed.

(** The digits are printed in front of the accumulator. *)
Lemma pretty_N_go_app (x : N) (s : string) :
  pretty_N_go x s = pretty_N_go x "" +:+ s.
Proof.
  revert s. induction (N.lt_wf_0 x) as [x _ IH]; intros s.
  destruct (decide (x = 0)%N) as [->|Hx]; [done|].
  rewrite (pretty_N_go_step x s), (pretty_N_go_step x "") by lia.
  assert (x `div` 10 < x)%N as Hlt by (apply N.div_lt; lia).
  rewrite (IH _ Hlt (String (pretty_N_char (x `mod` 10)) s)).
  rewrite (IH _ Hlt (String (pretty_N_char (x `mod` 10)) "")).
  by rewrite append_assoc.
Qed.

(** Scanning a printed number yields the number. *)
Lemma span_digits_pretty_N_go (x : N) :
  ∃ d, 0 <= d ∧ ((0 < x)%N → 0 < d) ∧
       ∀ s acc cnt,
         span_digits 10 (pretty_N_go x s) acc cnt =
         span_digits 10 s (acc * 10 ^ d + Z.of_N x) (cnt + d).
Proof.
  induction (N.lt_wf_0 x) as [x _ IH].
  destruct (decide (x = 0)%N) as [->|Hx].
  { exists 0. split; [lia|]. split; [lia|]. intros s acc cnt.
    rewrite pretty_N_go_0. f_equal; lia. }
  destruct (IH (x `div` 10)%N) as (d & Hd & _ & Hspan); [apply N.div_lt; lia|].
  exists (d + 1). split; [lia|]. split; [lia|]. intros s acc cnt.
  rewrite pretty_N_go_step by lia. rewrite Hspan. cbn [span_digits].
  destruct (pretty_N_char_digit (x `mod` 10)) as (k & _ & -> & _ & Hk).
  rewrite Hk by (apply N.mod_lt; lia).
  f_equal; [|lia].
  rewrite Z.pow_add_r, Z.pow_1_r by lia.
  pose proof (N.div_mod x 10 ltac:(lia)) as E.
  apply (f_equal Z.of_N) in E. rewrite N2Z.inj_add, N2Z.inj_mul in E.
  change (Z.of_N 10) with 10 in E. lia.
Qed.

(** A printed positive number starts with one of the digits 1 to 9. *)
Lemma pretty_N_go_head (x : N) (s : string) :
  (0 < x)%N →
  ∃ k r, (0 < k < 10)%N ∧ pretty_N_go x s = String (pretty_N_char k) r.
Proof.
  revert s. induction (N.lt_wf_0 x) as [x _ IH]; intros s Hx.
  rewrite pretty_N_go_step by done.
  destruct (decide (x `div` 10 = 0)%N) as [E|E].
  - rewrite E, pretty_N_go_0. exists (x `mod` 10)%N, s.
    split; [|done]. pose proof (N.div_mod x 10 ltac:(lia)) as Hdm.
    pose proof (N.mod_lt x 10 ltac:(lia)). rewrite E in Hdm. lia.
  - apply IH; [apply N.div_lt; lia | by apply N.neq_0_lt_0].
Qed.

Lemma pretty_pos_head (n : Z) (t : string) :
  0 < n →
  ∃ c r, pretty n +:+ t = String c r ∧
         c ∈ ["1"; "2"; "3"; "4"; "5"; "6"; "7"; "8"; "9"]%char.
Proof.
  intros Hn. destruct n as [|p|p]; try lia.
  unfold pretty, pretty_Z, pretty, pretty_positive, pretty, pretty_N.
  rewrite decide_False by done.
  destruct (pretty_N_go_head (N.pos p) "") as (k & r & Hk & ->); [lia|].
  exists (pretty_N_char k), (r +:+ t). split; [done|].
  assert (k = 1 ∨ k = 2 ∨ k = 3 ∨ k = 4 ∨ k = 5 ∨ k = 6 ∨ k = 7 ∨ k = 8 ∨ k = 9)%N
    as Hc by lia.
  clear Hk.
  destruct Hc as [->|[->|[->|[->|[->|[->|[->|[->| ->]]]]]]]]; cbn; repeat constructor.
Qed.

Lemma span_digits_pretty (n : Z) (t : string) :
  0 < n →
  ∃ d, 0 < d ∧ span_digits 10 (pretty n +:+ t) 0 0 = span_digits 10 t n d.
Proof.
  intros Hn. destruct n as [|p|p]; try lia.
  unfold pretty, pretty_Z, pretty, pretty_positive, pretty, pretty_N.
  rewrite decide_False by done.
  destruct (span_digits_pretty_N_go (N.pos p)) as (d & _ & Hd & Hspan).
  exists d. split; [apply Hd; lia|].
  rewrite <- pretty_N_go_app, Hspan. f_equal.
Qed.

Lemma span_digits_stops t acc cnt :
  Store.stops t = true → span_digits 10 t acc cnt = (acc, cnt, t).
Proof. destruct t as [|c t]; simpl; [done|]. by destruct (digit_of 10 c). Qed.

(** *** Integers up to 2^53 are doubles *)

Lemma binary64_exact (n : Z) :
  0 <= n < 2 ^ 53 → ∃ q, binary64 false n 1 = Fin q ∧ (q == inject_Z n)%Q.
Proof.
  intros Hn. unfold binary64.
  destruct (Z.eqb_spec n 0) as [->|Hz]; [by exists 0%Q|].
  assert (0 < n) as Hp by lia.
  pose proof (Z.log2_nonneg n) as Hl0.
  destruct (Z.log2_spec n Hp) as [Hlo Hhi].
  assert (Z.log2 n < 53) as Hl.
  { apply Z.log2_lt_pow2; lia. }
  change (Z.log2 1) with 0. rewrite Z.sub_0_r.
  destruct (Z.leb_spec 0 (Z.log2 n)) as [_|]; [|lia].
  destruct (Z.ltb_spec n (1 * 2 ^ Z.log2 n)) as [|_]; [lia|].
  rewrite Z.max_l by lia.
  destruct (Z.leb_spec 0 (52 - Z.log2 n)) as [_|]; [|lia].
  assert (round_half_even (n * 2 ^ (52 - Z.log2 n)) 1 = n * 2 ^ (52 - Z.log2 n)) as ->.
  { unfold round_half_even. rewrite Z.mod_1_r, Z.div_1_r. done. }
  destruct (Z.ltb_spec 1023 (Z.log2 n)) as [|_]; [lia|].
  destruct (Z.eqb_spec (Z.log2 n) 1023) as [|_]; [lia|]. cbn [orb andb].
  eexists. split; [reflexivity|].
  rewrite Qred_correct. unfold Qeq, inject_Z. cbn [Qnum Qden].
  assert (0 < 2 ^ (52 - Z.log2 n)) by (apply Z.pow_pos_nonneg; lia).
  rewrite Z2Pos.id by done. lia.
Qed.

Lemma strict_eq_num_binary64 (v : value) (n : Z) :
  0 <= n < 2 ^ 53 →
  strict_eq_num v (binary64 false n 1) =
  match v with VNum z => z =? n | _ => false end.
Proof.
  intros Hn. destruct (binary64_exact n Hn) as (q & -> & Hq).
  destruct v; try done. simpl.
  destruct (Z.eqb_spec z n) as [->|Hne].
  - apply Qeq_bool_iff. by symmetry.
  - apply not_true_is_false. intros E%Qeq_bool_iff. apply Hne.
    rewrite Hq in E. unfold Qeq in E. simpl in E. lia.
Qed.

(** *** [Number] and [parseInt] on a printed id *)

Lemma trim_start_head c r : is_ws c = false → trim_start (String c r) = String c r.
Proof. simpl. by intros ->. Qed.

Lemma rev_app_rev_app (s1 s2 s3 : string) :
  String.rev_app (String.rev_app s1 s2) s3 = String.rev_app s2 (s1 +:+ s3).
Proof.
  revert s2 s3. induction s1 as [|a s1 IH]; intros s2 s3; [done|].
  simpl. by rewrite IH.
Qed.

Lemma rev_rev (s : string) : String.rev (String.rev s) = s.
Proof. unfold String.rev. rewrite rev_app_rev_app. simpl. apply append_nil_r. Qed.

Lemma list_ascii_rev_app (s1 s2 : string) c :
  In c (list_ascii_of_string (String.rev_app s1 s2)) →
  In c (list_ascii_of_string s1) ∨ In c (list_ascii_of_string s2).
Proof.
  revert s2. induction s1 as [|a s1 IH]; intros s2; simpl; [auto|].
  intros [H|[->|H]]%IH; simpl in *; auto.
Qed.

(** Trimming leaves a string without white space as it is. *)
Lemma trim_no_ws (s : string) :
  (∀ c, In c (list_ascii_of_string s) → is_ws c = false) → trim s = s.
Proof.
  intros Hs. unfold trim.
  assert (∀ t, (∀ c, In c (list_ascii_of_string t) → is_ws c = false) →
               trim_start t = t) as Hts.
  { intros [|c r] Ht; [done|]. apply trim_start_head, Ht. by left. }
  rewrite (Hts s Hs). rewrite Hts; [apply rev_rev|].
  intros c [H|H]%list_ascii_rev_app; [by apply Hs | done].
Qed.

Lemma pretty_N_go_chars (x : N) (s : string) c :
  In c (list_ascii_of_string (pretty_N_go x s)) →
  is_ws c = false ∨ In c (list_ascii_of_string s).
Proof.
  revert s. induction (N.lt_wf_0 x) as [x _ IH]; intros s.
  destruct (decide (x = 0)%N) as [->|Hx]; [rewrite pretty_N_go_0; auto|].
  rewrite pretty_N_go_step by lia.
  intros [H|[<-|H]]%IH; auto; [|apply N.div_lt; lia].
  left. by destruct (pretty_N_char_digit (x `mod` 10)) as (? & _ & _ & ? & _).
Qed.

Lemma trim_pretty (n : Z) : 0 < n → trim (pretty n) = pretty n.
Proof.
  intros Hn. apply trim_no_ws. destruct n as [|p|p]; try lia.
  unfold pretty, pretty_Z, pretty, pretty_positive, pretty, pretty_N.
  rewrite decide_False by done.
  intros c [H|[]]%pretty_N_go_chars. done.
Qed.

(** [Number(String(n))] is [n]. *)
Lemma Number_pretty (n : Z) :
  0 < n → Number (pretty n) = binary64 false n 1.
Proof.
  intros Hn. unfold Number. rewrite trim_pretty by done.
  destruct (pretty_pos_head n "" Hn) as (c & r & Hcr & Hc).
  destruct (span_digits_pretty n "" Hn) as (d & Hd & Hspan).
  rewrite append_nil_r in Hcr, Hspan.
  assert (String.eqb (pretty n) "" = false) as -> by (by rewrite Hcr).
  assert (non_decimal (pretty n) = None) as ->.
  { rewrite Hcr. repeat (apply elem_of_cons in Hc as [->|Hc]; [done|]).
    by apply elem_of_nil in Hc. }
  assert (strip_sign (pretty n) = (false, pretty n)) as ->.
  { rewrite Hcr. repeat (apply elem_of_cons in Hc as [->|Hc]; [done|]).
    by apply elem_of_nil in Hc. }
  unfold unsigned_decimal.
  assert (String.eqb (pretty n) "Infinity" = false) as ->.
  { rewrite Hcr. repeat (apply elem_of_cons in Hc as [->|Hc]; [done|]).
    by apply elem_of_nil in Hc. }
  rewrite Hspan. cbn [span_digits].
  destruct (Z.eqb_spec (d + 0) 0) as [|_]; [lia|].
  cbn [exponent_part]. unfold decimal64. simpl (0 <=? 0 - 0).
  cbv iota. f_equal. change (10 ^ (0 - 0)) with 1. lia.
Qed.

(** [parseInt] reads the leading digits and ignores what follows them. *)
Lemma parseInt_pretty (n : Z) (t : string) :
  0 < n → Store.stops t = true → parseInt_string (pretty n +:+ t) = binary64 false n 1.
Proof.
  intros Hn Ht. unfold parseInt_string.
  destruct (pretty_pos_head n t Hn) as (c & r & Hcr & Hc).
  destruct (span_digits_pretty n t Hn) as (d & Hd & Hspan).
  rewrite (span_digits_stops t) in Hspan by done.
  assert (trim_start (pretty n +:+ t) = pretty n +:+ t) as ->.
  { rewrite Hcr. apply trim_start_head.
    repeat (apply elem_of_cons in Hc as [->|Hc]; [done|]).
    by apply elem_of_nil in Hc. }
  assert (strip_sign (pretty n +:+ t) = (false, pretty n +:+ t)) as ->.
  { rewrite Hcr. repeat (apply elem_of_cons in Hc as [->|Hc]; [done|]).
    by apply elem_of_nil in Hc. }
  assert (match pretty n +:+ t with
          | String "0" (String p r0) =>
              if (Ascii.eqb p "x" || Ascii.eqb p "X")%bool
              then (16, r0) else (10, pretty n +:+ t)
          | _ => (10, pretty n +:+ t)
          end = (10, pretty n +:+ t)) as ->.
  { rewrite Hcr. repeat (apply elem_of_cons in Hc as [->|Hc]; [done|]).
    by apply elem_of_nil in Hc. }
  rewrite Hspan. destruct (Z.ltb_spec 0 d); [done | lia].
Qed.

(** ** The flat-file store between requests *)

Section FlatStore.
Import Flat FlatRun Store.
Context (cfg : config).

Local Abbreviation formatted := (formatted cfg).
Local Abbreviation drop_photo := (drop_photo cfg).
Local Abbreviation replaced := (replaced cfg).
Local Abbreviation deleted := (deleted cfg).
Local Abbreviation answer := (answer cfg).
Local Abbreviation answered := (answered cfg).
Local Abbreviation uploaded := (uploaded cfg).
Local Abbreviation effect := (effect cfg).
Local Abbreviation photo_file := (photo_file cfg).
Local Abbreviation photos_kept := (photos_kept cfg).

(** The item with id [k] is the one its printed id finds. *)
Lemma found_number s l k n :
  wf s → inv_nextId s < 2 ^ 53 → l ∈ inv_list s → item_id s l = VNum k →
  n = binary64 false k 1 → found n s = Some l.
Proof.
  intros W Hb Hl Hk ->. destruct (wf_ids s W Hb) as [Wa _].
  destruct (Wa l Hl) as (k' & Hk' & Hr). rewrite Hk in Hk'. injection Hk' as <-.
  assert (strict_eq_num (item_id s l) (binary64 false k 1) = true) as Hm.
  { rewrite strict_eq_num_binary64, Hk by lia. apply Z.eqb_refl. }
  destruct (found (binary64 false k 1) s) as [l'|] eqn:Hf.
  - f_equal. eapply same_number_same_item; eauto using found_elem, found_id.
  - apply found_none_iff with (l := l) in Hf; [|done]. congruence.
Qed.

Lemma found_numeral s l k :
  wf s → inv_nextId s < 2 ^ 53 → l ∈ inv_list s → item_id s l = VNum k →
  found (Number (pretty k)) s = Some l.
Proof.
  intros W Hb Hl Hk. eapply found_number; eauto.
  destruct (wf_ids s W Hb) as [Wa _].
  destruct (Wa l Hl) as (k' & Hk' & Hr). rewrite Hk in Hk'. injection Hk' as <-.
  apply Number_pretty. lia.
Qed.

(** *** What a request leaves behind *)

Lemma deref_files f s l : deref (with_files f s) l = deref s l.
Proof. reflexivity. Qed.

Lemma deref_registered_old req s l :
  (l < length (heap s))%nat → deref (registered req s) l = deref s l.
Proof.
  intros Hl. unfold deref, registered. cbv zeta. proj_simpl. by rewrite lookup_app_l.
Qed.

Lemma deref_registered_new req s :
  deref (registered req s) (length (heap s)) = new_item req s.
Proof.
  unfold deref, registered. cbv zeta. proj_simpl.
  by rewrite lookup_app_r, Nat.sub_diag by done.
Qed.

Lemma deref_replaced req item s l :
  (l < length (heap s))%nat →
  deref (replaced req item s) l =
  if decide (l = item)
  then set_prop (deref s l) "photo"
         (match req_file req with Some f => VStr f | None => VNull end)
  else deref s l.
Proof.
  intros Hl. destruct (drop_photo_mem cfg (deref s item) s) as (Hh & _).
  unfold FlatRun.replaced. cbv zeta. unfold deref at 1. proj_simpl. rewrite Hh.
  rewrite default_alter by done. reflexivity.
Qed.

Lemma deref_deleted item s l : deref (deleted item s) l = deref s l.
Proof.
  destruct (drop_photo_mem cfg (deref s item) s) as (Hh & _).
  unfold FlatRun.deleted. cbv zeta. unfold deref at 1. proj_simpl. by rewrite Hh.
Qed.

Lemma inv_list_replaced req item s : inv_list (replaced req item s) = inv_list s.
Proof.
  unfold FlatRun.replaced. cbv zeta. proj_simpl.
  by destruct (drop_photo_mem cfg (deref s item) s) as (_ & -> & _).
Qed.

Lemma inv_list_deleted item s :
  inv_list (deleted item s) = List.filter (λ i, negb (i =? item)%nat) (inv_list s).
Proof.
  unfold FlatRun.deleted. cbv zeta. proj_simpl.
  by destruct (drop_photo_mem cfg (deref s item) s) as (_ & -> & _).
Qed.

Lemma elem_of_deleted item s l :
  l ∈ inv_list (deleted item s) ↔ l ∈ inv_list s ∧ l ≠ item.
Proof.
  rewrite inv_list_deleted, list_elem_of_In, filter_In, <- list_elem_of_In.
  rewrite negb_true_iff, Nat.eqb_neq. done.
Qed.

Lemma files_drop_photo (o : obj) s :
  files (drop_photo o s).1 =
  match photo_file o with
  | Some p => if truthy (get_prop o "photo") then files s ∖ {[p]} else files s
  | None => if truthy (get_prop o "photo")
            then files s ∖ {[path_join (uploadsPath cfg) (to_string (get_prop o "photo"))]}
            else files s
  end.
Proof.
  unfold FlatRun.drop_photo, Store.photo_file.
  destruct (truthy (get_prop o "photo")) eqn:Ht; [|by destruct (get_prop o "photo")].
  cbv zeta. destruct (bool_decide _) eqn:Hd.
  - by destruct (get_prop o "photo").
  - apply bool_decide_eq_false in Hd.
    assert (files s ∖ {[path_join (uploadsPath cfg) (to_string (get_prop o "photo"))]}
            = files s) as Hsame.
    { apply set_eq. intros p. rewrite elem_of_difference, elem_of_singleton.
      split; [tauto|]. intros Hp. split; [done|]. by intros ->. }
    destruct (get_prop o "photo"); cbn [fst to_string] in *; by rewrite Hsame.
Qed.

Lemma files_replaced req item s :
  files (replaced req item s) = files (drop_photo (deref s item) s).1.
Proof. reflexivity. Qed.

Lemma files_deleted item s :
  files (deleted item s) = files (drop_photo (deref s item) s).1.
Proof. reflexivity. Qed.

Lemma files_after_upload req s :
  files (uploaded req s) =
  match req_file req with
  | Some f => {[path_join (uploadsPath cfg) f]} ∪ files s
  | None => files s
  end.
Proof. unfold FlatRun.uploaded. by destruct (req_file req). Qed.

Lemma heap_uploaded req s : heap (uploaded req s) = heap s.
Proof. unfold FlatRun.uploaded. by destruct (req_file req). Qed.

Lemma inv_list_uploaded req s : inv_list (uploaded req s) = inv_list s.
Proof. unfold FlatRun.uploaded. by destruct (req_file req). Qed.

(** Every request leaves the store of [effect], extended by the objects the
    response was built from. *)
Lemma serve_effect r req s :
  wf s → wf (effect r req s) ∧ extends (effect r req s) (serve cfg r req s).1.2.
Proof.
  intros W. destruct r; cbn [Store.effect].
  - rewrite serve_register. apply wf_uploaded with (cfg := cfg) (req := req) in W.
    destruct (truthy (get_prop (req_body req) "inventory_name")) eqn:Hn.
    + rewrite register_run by done. cbn [fst snd].
      split; [by apply wf_registered | apply extends_alloc].
    + rewrite register_reject by done. split; [done | apply extends_refl].
  - split; [done|]. pose proof (list_all_frame cfg (no_upload req) s) as H.
    cbn [serve]. destruct (list_all _ _ _) as [[? ?] ?]. apply H.
  - split; [done|]. pose proof (get_item_frame cfg (no_upload req) s) as H.
    cbn [serve]. destruct (get_item _ _ _) as [[? ?] ?]. apply H.
  - cbn [serve]. change (params_id req) with (params_id (no_upload req)).
    destruct (found (Number (params_id (no_upload req))) s) as [item|] eqn:Hf.
    + rewrite (update_run _ _ _ item) by done. cbn [fst snd].
      split; [by apply wf_updated | apply extends_alloc].
    + rewrite update_absent by done. split; [done | apply extends_refl].
  - split; [done|]. pose proof (get_photo_frame cfg (no_upload req) s) as H.
    cbn [serve]. destruct (get_photo _ _ _) as [[? ?] ?]. apply H.
  - rewrite serve_replace_photo. cbv zeta.
    apply wf_uploaded with (cfg := cfg) (req := req) in W.
    destruct (found (Number (params_id req)) (uploaded req s)) as [item|] eqn:Hf.
    + rewrite (replace_photo_run _ _ _ item) by done. cbn [fst snd].
      split; [by apply wf_replaced | apply extends_alloc].
    + rewrite replace_photo_absent by done.
      destruct (req_file req); cbn [fst snd];
        (split; [by (done || apply wf_with_files) | apply extends_refl]).
  - cbn [serve]. change (params_id req) with (params_id (no_upload req)).
    destruct (found (Number (params_id (no_upload req))) s) as [item|] eqn:Hf.
    + rewrite (delete_run _ _ _ item) by done. cbn [fst snd].
      split; [by apply wf_deleted | apply extends_refl].
    + rewrite delete_absent by done. split; [done | apply extends_refl].
  - split; [done|]. pose proof (search_frame cfg (no_upload req) s) as H.
    cbn [serve]. destruct (search _ _ _) as [[? ?] ?]. apply H.
Qed.

(** *** The shape of the stored items *)

Lemma shaped_spec (o : obj) :
  shaped o = true ↔
  ∃ k n d p, o = [("id", VNum k); ("inventory_name", n); ("description", d); ("photo", p)] ∧
             present n = true ∧ present d = true ∧ (p = VNull ∨ ∃ f, p = VStr f).
Proof.
  split.
  - destruct o as [|[k1 v1] [|[k2 n] [|[k3 d] [|[k4 p] [|]]]]]; try done;
      try (by destruct v1).
    destruct v1 as [| | |k|]; try done. cbn [shaped].
    rewrite !andb_true_iff, !String.eqb_eq.
    intros ((((((-> & ->) & ->) & ->) & Hn) & Hd) & Hp).
    exists k, n, d, p. repeat split; try done.
    destruct p; try done; [by left | right; by eexists].
  - intros (k & n & d & p & -> & Hn & Hd & Hp). cbn. rewrite Hn, Hd.
    by destruct Hp as [->|[f ->]].
Qed.

Lemma shaped_to_json o : shaped o = true → to_json o = o.
Proof.
  intros (k & n & d & p & -> & Hn & Hd & Hp)%shaped_spec. unfold to_json. cbn.
  destruct n, d; try done; by destruct Hp as [->|[f ->]].
Qed.

Lemma shaped_new_item req s :
  truthy (get_prop (req_body req) "inventory_name") = true → shaped (new_item req s) = true.
Proof.
  intros Hn. apply shaped_spec. do 4 eexists. split; [reflexivity|].
  split; [by destruct (get_prop (req_body req) "inventory_name")|].
  split; [|destruct (req_file req); eauto].
  destruct (truthy (get_prop (req_body req) "description")) eqn:Hd; [|done].
  by destruct (get_prop (req_body req) "description").
Qed.

Lemma shaped_with_metadata n d o :
  shaped o = true → shaped (Contract.with_metadata n d o) = true.
Proof.
  intros (k & n0 & d0 & p & -> & Hn & Hd & Hp)%shaped_spec. apply shaped_spec.
  exists k, (nullish_or n n0), (nullish_or d d0), p.
  split; [reflexivity|]. split; [by destruct n|]. split; [by destruct d | done].
Qed.

Lemma shaped_set_photo o (f : option string) :
  shaped o = true →
  shaped (set_prop o "photo" (match f with Some f => VStr f | None => VNull end)) = true.
Proof.
  intros (k & n0 & d0 & p & -> & Hn & Hd & Hp)%shaped_spec. apply shaped_spec.
  do 4 eexists. split; [reflexivity|]. split; [done|]. split; [done|].
  destruct f; eauto.
Qed.

Lemma shaped_all_extends s s' : wf s → extends s s' → shaped_all s → shaped_all s'.
Proof.
  intros W E H l Hl. pose proof E as (_ & _ & Hi & _). rewrite Hi in Hl.
  rewrite (extends_deref s s') by (done || by apply (wf_locs s W)). by apply H.
Qed.

Lemma shaped_all_uploaded req s : shaped_all s → shaped_all (uploaded req s).
Proof. unfold FlatRun.uploaded. by destruct (req_file req). Qed.

Lemma shaped_all_effect r req s : wf s → shaped_all s → shaped_all (effect r req s).
Proof.
  intros W H. destruct r; cbn [Store.effect]; try done.
  - destruct (truthy _) eqn:Hn; [|by apply shaped_all_uploaded].
    apply wf_uploaded with (cfg := cfg) (req := req) in W.
    apply shaped_all_uploaded with (req := req) in H.
    intros l [Hl | ->%list_elem_of_singleton]%elem_of_app.
    + rewrite deref_registered_old by (by apply (wf_locs _ W)). by apply H.
    + rewrite deref_registered_new. by apply shaped_new_item.
  - destruct (found _ _) as [item|] eqn:Hf; [|done]. intros l Hl.
    rewrite deref_updated by (by apply (wf_locs _ W)).
    destruct (decide _); [apply shaped_with_metadata|]; by apply H.
  - cbv zeta. apply wf_uploaded with (cfg := cfg) (req := req) in W.
    apply shaped_all_uploaded with (req := req) in H.
    destruct (found _ _) as [item|] eqn:Hf.
    + intros l Hl. rewrite inv_list_replaced in Hl.
      rewrite deref_replaced by (by apply (wf_locs _ W)).
      destruct (decide _); [apply shaped_set_photo|]; by apply H.
    + by destruct (req_file req).
  - destruct (found _ _) as [item|] eqn:Hf; [|done].
    intros l [Hl _]%elem_of_deleted. rewrite deref_deleted. by apply H.
Qed.

Lemma deref_restart s i l :
  wf s → inv_list s !! i = Some l →
  deref (restart s) (length (heap s) + i) = to_json (deref s l).
Proof.
  intros W Hi. unfold deref at 1, restart. proj_simpl.
  rewrite lookup_app_r, Nat.add_comm, Nat.add_sub by lia.
  rewrite (wf_disk s W). unfold stringify. cbn [snap_list].
  change (List.map ?f ?l) with (f <$> l). by rewrite list_lookup_fmap, Hi.
Qed.

Lemma inv_list_restart s :
  wf s → inv_list (restart s) = seq (length (heap s)) (length (inv_list s)).
Proof.
  intros W. unfold restart. proj_simpl. rewrite (wf_disk s W).
  unfold stringify. cbn [snap_list]. by rewrite length_map.
Qed.

(** Parsing inventory.json gives back the items that were in memory. *)
Lemma restart_items s :
  wf s → shaped_all s →
  deref (restart s) <$> inv_list (restart s) = deref s <$> inv_list s.
Proof.
  intros W H. rewrite inv_list_restart by done.
  apply list_eq. intros i. rewrite !list_lookup_fmap.
  destruct (inv_list s !! i) as [l|] eqn:Hi; cbn.
  - rewrite lookup_seq_lt by (by eapply lookup_lt_Some). cbn.
    rewrite (deref_restart s i l) by done.
    f_equal. apply shaped_to_json, H. by eapply list_elem_of_lookup_2.
  - rewrite lookup_seq_ge; [done|]. by apply lookup_ge_None.
Qed.

Lemma shaped_all_restart s : wf s → shaped_all s → shaped_all (restart s).
Proof.
  intros W H l' Hl'. rewrite inv_list_restart in Hl' by done.
  apply elem_of_seq in Hl' as [Hlo Hhi].
  destruct (lookup_lt_is_Some_2 (inv_list s) (l' - length (heap s))) as [l Hl]; [lia|].
  replace l' with (length (heap s) + (l' - length (heap s)))%nat by lia.
  rewrite (deref_restart s _ l) by done.
  assert (shaped (deref s l) = true) as Hs by (apply H; by eapply list_elem_of_lookup_2).
  by rewrite shaped_to_json.
Qed.

Lemma shaped_all_step o s : wf s → shaped_all s → shaped_all (step cfg o s).
Proof.
  intros W H. destruct o as [r req|]; [|by apply shaped_all_restart].
  destruct (serve_effect r req s W) as [W1 E]. cbn [step].
  eapply shaped_all_extends; [exact W1 | exact E | by apply shaped_all_effect].
Qed.

Lemma shaped_all_run ops s : wf s → shaped_all s → shaped_all (run cfg ops s).
Proof.
  revert s. induction ops as [|o ops IH]; intros s W H; [done|].
  apply IH; [by apply wf_step | by apply shaped_all_step].
Qed.

Lemma shaped_all_init : shaped_all init.
Proof. intros l Hl. by apply elem_of_nil in Hl. Qed.

(** *** Names and descriptions sent as text stay text *)

Lemma text_shaped_spec (o : obj) :
  text_shaped o = true ↔
  ∃ k n d p, o = [("id", VNum k); ("inventory_name", VStr n); ("description", VStr d);
                  ("photo", p)] ∧ (p = VNull ∨ ∃ f, p = VStr f).
Proof.
  split.
  - destruct o as [|[k1 v1] [|[k2 n] [|[k3 d] [|[k4 p] [|]]]]]; try done;
      try (by destruct v1); try (by destruct v1, n); try (by destruct v1, n, d).
    destruct v1 as [| | |k|]; try done. destruct n as [| | | |n]; try done.
    destruct d as [| | | |d]; try done. cbn [text_shaped].
    rewrite !andb_true_iff, !String.eqb_eq.
    intros ((((-> & ->) & ->) & ->) & Hp).
    exists k, n, d, p. split; [done|].
    destruct p; try done; [by left | right; by eexists].
  - intros (k & n & d & p & -> & Hp). cbn. by destruct Hp as [->|[f ->]].
Qed.

Lemma text_shaped_shaped o : text_shaped o = true → shaped o = true.
Proof.
  intros (k & n & d & p & -> & Hp)%text_shaped_spec. apply shaped_spec.
  exists k, (VStr n), (VStr d), p. done.
Qed.

Lemma text_shaped_new_item req s :
  Refine.textual_fields req = true →
  truthy (get_prop (req_body req) "inventory_name") = true →
  text_shaped (new_item req s) = true.
Proof.
  intros [Hn Hd]%andb_prop Ht. unfold new_item.
  destruct (get_prop (req_body req) "inventory_name") as [| | | |n]; try done.
  destruct (get_prop (req_body req) "description") as [| | | |d]; try done;
    cbn; try destruct (negb (d =? "")%string); by destruct (req_file req).
Qed.

Lemma text_shaped_with_metadata n d o :
  Refine.textual n = true → Refine.textual d = true →
  text_shaped o = true → text_shaped (Contract.with_metadata n d o) = true.
Proof.
  intros Hn Hd (k & n0 & d0 & p & -> & Hp)%text_shaped_spec. apply text_shaped_spec.
  destruct n as [| | | |n]; try done; destruct d as [| | | |d]; try done;
    do 4 eexists; (split; [reflexivity | done]).
Qed.

Lemma text_shaped_set_photo o (f : option string) :
  text_shaped o = true →
  text_shaped (set_prop o "photo" (match f with Some f => VStr f | None => VNull end)) = true.
Proof.
  intros (k & n0 & d0 & p & -> & Hp)%text_shaped_spec. apply text_shaped_spec.
  do 4 eexists. split; [reflexivity|]. destruct f; eauto.
Qed.

Lemma text_shaped_all_shaped s : text_shaped_all s → shaped_all s.
Proof. intros H l Hl. by apply text_shaped_shaped, H. Qed.

Lemma text_shaped_all_extends s s' :
  wf s → extends s s' → text_shaped_all s → text_shaped_all s'.
Proof.
  intros W E H l Hl. pose proof E as (_ & _ & Hi & _). rewrite Hi in Hl.
  rewrite (extends_deref s s') by (done || by apply (wf_locs s W)). by apply H.
Qed.

Lemma text_shaped_all_uploaded req s : text_shaped_all s → text_shaped_all (uploaded req s).
Proof. unfold FlatRun.uploaded. by destruct (req_file req). Qed.

Lemma text_shaped_all_effect r req s :
  wf s → Refine.textual_fields req = true →
  text_shaped_all s → text_shaped_all (effect r req s).
Proof.
  intros W Ht H. destruct r; cbn [Store.effect]; try done.
  - destruct (truthy _) eqn:Hn; [|by apply text_shaped_all_uploaded].
    apply wf_uploaded with (cfg := cfg) (req := req) in W.
    apply text_shaped_all_uploaded with (req := req) in H.
    intros l [Hl | ->%list_elem_of_singleton]%elem_of_app.
    + rewrite deref_registered_old by (by apply (wf_locs _ W)). by apply H.
    + rewrite deref_registered_new. by apply text_shaped_new_item.
  - destruct (found _ _) as [item|] eqn:Hf; [|done]. intros l Hl.
    rewrite deref_updated by (by apply (wf_locs _ W)).
    apply andb_prop in Ht as [Hn Hd].
    destruct (decide _); [apply text_shaped_with_metadata|]; try done; by apply H.
  - cbv zeta. apply wf_uploaded with (cfg := cfg) (req := req) in W.
    apply text_shaped_all_uploaded with (req := req) in H.
    destruct (found _ _) as [item|] eqn:Hf.
    + intros l Hl. rewrite inv_list_replaced in Hl.
      rewrite deref_replaced by (by apply (wf_locs _ W)).
      destruct (decide _); [apply text_shaped_set_photo|]; by apply H.
    + by destruct (req_file req).
  - destruct (found _ _) as [item|] eqn:Hf; [|done].
    intros l [Hl _]%elem_of_deleted. rewrite deref_deleted. by apply H.
Qed.

Lemma text_shaped_all_restart s : wf s → text_shaped_all s → text_shaped_all (restart s).
Proof.
  intros W H l' Hl'. rewrite inv_list_restart in Hl' by done.
  apply elem_of_seq in Hl' as [Hlo Hhi].
  destruct (lookup_lt_is_Some_2 (inv_list s) (l' - length (heap s))) as [l Hl]; [lia|].
  replace l' with (length (heap s) + (l' - length (heap s)))%nat by lia.
  rewrite (deref_restart s _ l) by done.
  assert (text_shaped (deref s l) = true) as Hs
    by (apply H; by eapply list_elem_of_lookup_2).
  by rewrite shaped_to_json by (by apply text_shaped_shaped).
Qed.

Lemma text_shaped_all_step o s :
  wf s → textual_op o = true → text_shaped_all s → text_shaped_all (step cfg o s).
Proof.
  intros W Ht H. destruct o as [r req|]; [|by apply text_shaped_all_restart].
  destruct (serve_effect r req s W) as [W1 E]. cbn [step].
  eapply text_shaped_all_extends; [exact W1 | exact E | by apply text_shaped_all_effect].
Qed.

Lemma text_shaped_all_run ops s :
  wf s → textual_history ops = true → text_shaped_all s → text_shaped_all (run cfg ops s).
Proof.
  revert s. induction ops as [|o ops IH]; intros s W Ht H; [done|].
  cbn in Ht. apply andb_prop in Ht as [Ho Ht].
  apply IH; [by apply wf_step | done | by apply text_shaped_all_step].
Qed.

Lemma text_shaped_all_init : text_shaped_all init.
Proof. intros l Hl. by apply elem_of_nil in Hl. Qed.

(** *** Photo files *)

Lemma photo_file_shaped o :
  shaped o = true →
  (get_prop o "photo" = VNull ∧ photo_file o = None) ∨
  (∃ f, get_prop o "photo" = VStr f ∧
        photo_file o = Some (path_join (uploadsPath cfg) f)).
Proof.
  intros (k & n & d & p & -> & _ & _ & [->|[f ->]])%shaped_spec;
    [left | right; exists f]; done.
Qed.

Lemma photo_file_with_metadata n d o :
  photo_file (Contract.with_metadata n d o) = photo_file o.
Proof.
  unfold Store.photo_file, Contract.with_metadata. cbv zeta.
  by rewrite !get_set_prop_ne.
Qed.

Lemma photo_file_set_photo o (f : option string) :
  photo_file (set_prop o "photo" (match f with Some f => VStr f | None => VNull end)) =
  path_join (uploadsPath cfg) <$> f.
Proof. unfold Store.photo_file. rewrite get_set_prop_eq. by destruct f. Qed.

(** The files left by the block that unlinks an item's photo. *)
Lemma files_drop_photo_shaped o s p :
  shaped o = true →
  p ∈ files (drop_photo o s).1 →
  p ∈ files s ∧ (truthy (get_prop o "photo") = true → photo_file o ≠ Some p).
Proof.
  intros Ho. rewrite files_drop_photo.
  destruct (photo_file_shaped o Ho) as [[Hp ->]|(f & Hp & ->)]; rewrite Hp; cbn [truthy].
  - done.
  - destruct (negb (String.eqb f "")); [|done].
    intros [? Hne]%elem_of_difference. split; [done|]. intros _ [= E].
    apply Hne. rewrite E. by apply elem_of_singleton.
Qed.

Lemma files_drop_photo_keeps o s p :
  shaped o = true → p ∈ files s → photo_file o ≠ Some p → p ∈ files (drop_photo o s).1.
Proof.
  intros Ho Hp Hne. rewrite files_drop_photo.
  destruct (photo_file_shaped o Ho) as [[Hq E]|(f & Hq & E)]; rewrite E in *; rewrite Hq;
    cbn [truthy]; [done|].
  destruct (negb (String.eqb f "")); [|done].
  apply elem_of_difference. split; [done|]. intros ->%elem_of_singleton. by apply Hne.
Qed.

Lemma files_uploaded_mono req s p : p ∈ files s → p ∈ files (uploaded req s).
Proof.
  rewrite files_after_upload. destruct (req_file req); [|done].
  intros. apply elem_of_union. by right.
Qed.

Lemma photos_kept_extends s s' :
  wf s → extends s s' → photos_kept s → photos_kept s'.
Proof.
  intros W E [H1 H2]. pose proof E as (_ & _ & Hi & _ & Hf).
  assert (∀ l, l ∈ inv_list s → deref s' l = deref s l) as Hd.
  { intros l Hl. apply extends_deref; [done | by apply (wf_locs s W)]. }
  split.
  - intros l p. rewrite Hi, Hf. intros Hl. rewrite Hd by done. by apply H1.
  - intros l1 l2 p. rewrite Hi. intros Hl1 Hl2. rewrite !Hd by done. by apply H2.
Qed.

(** Saving an upload under a name no file bears keeps the references
    intact. *)
Lemma photos_kept_uploaded req s : photos_kept s → photos_kept (uploaded req s).
Proof.
  intros [H1 H2]. split.
  - intros l p. rewrite inv_list_uploaded. intros Hl Hp.
    apply files_uploaded_mono, (H1 l); [done|].
    unfold FlatRun.uploaded in Hp. by destruct (req_file req).
  - intros l1 l2 p. rewrite inv_list_uploaded. intros Hl1 Hl2 Hp1 Hp2.
    apply (H2 l1 l2 p); try done; unfold FlatRun.uploaded in *; by destruct (req_file req).
Qed.

Lemma photos_kept_effect r req s :
  wf s → shaped_all s → photos_kept s →
  (∀ p, upload_path cfg r req = Some p → p ∉ files s) →
  photos_kept (effect r req s).
Proof.
  intros W Hs K Hfresh. destruct r; cbn [Store.effect]; try done.
  - (* register *)
    destruct (truthy _) eqn:Hn; [|by apply photos_kept_uploaded].
    pose proof (wf_uploaded cfg req s W) as Wu.
    pose proof (photos_kept_uploaded req s K) as [U1 U2].
    destruct K as [K1 K2].
    assert (∀ l, l ∈ inv_list s → deref (registered req (uploaded req s)) l = deref s l) as Hold.
    { intros l Hl. rewrite deref_registered_old.
      - unfold FlatRun.uploaded. by destruct (req_file req).
      - rewrite heap_uploaded. by apply (wf_locs s W). }
    assert (deref (registered req (uploaded req s)) (length (heap s)) =
            new_item req (uploaded req s)) as Hnew.
    { rewrite <- (heap_uploaded req s). apply deref_registered_new. }
    assert (photo_file (new_item req (uploaded req s)) = upload_path cfg PostRegister req) as Hpf.
    { unfold Store.photo_file, new_item, Store.upload_path. cbn.
      by destruct (req_file req). }
    assert (inv_list (registered req (uploaded req s)) = inv_list s ++ [length (heap s)]) as Hl.
    { unfold registered. cbv zeta. proj_simpl.
      by rewrite inv_list_uploaded, heap_uploaded. }
    assert (files (registered req (uploaded req s)) = files (uploaded req s)) as Hf by done.
    split.
    + intros l p. rewrite Hl, Hf.
      intros [Hin | ->%list_elem_of_singleton]%elem_of_app.
      * rewrite Hold by done. intros Hp. apply files_uploaded_mono. by apply (K1 l).
      * rewrite Hnew, Hpf. unfold Store.upload_path. cbn. rewrite files_after_upload.
        destruct (req_file req); [|done]. cbn. intros [= <-].
        apply elem_of_union. left. by apply elem_of_singleton.
    + intros l1 l2 p. rewrite Hl.
      intros [Hin1 | ->%list_elem_of_singleton]%elem_of_app
             [Hin2 | ->%list_elem_of_singleton]%elem_of_app; [| | |done].
      * rewrite !Hold by done. by apply K2.
      * rewrite Hnew, Hpf, (Hold l1) by done. intros Hp1 Hp2.
        exfalso. apply (Hfresh p Hp2). by apply (K1 l1).
      * rewrite Hnew, Hpf, (Hold l2) by done. intros Hp1 Hp2.
        exfalso. apply (Hfresh p Hp1). by apply (K1 l2).
  - (* update *)
    destruct (found _ _) as [item|] eqn:Hf; [|done]. destruct K as [K1 K2].
    assert (∀ l, l ∈ inv_list s → photo_file (deref (updated req item s) l) =
                                  photo_file (deref s l)) as Hd.
    { intros l Hl. rewrite deref_updated by (by apply (wf_locs s W)).
      destruct (decide _); [apply photo_file_with_metadata | done]. }
    split.
    + intros l p Hl. rewrite (Hd l Hl). by apply K1.
    + intros l1 l2 p Hl1 Hl2. rewrite (Hd l1 Hl1), (Hd l2 Hl2). by apply K2.
  - (* replace_photo *)
    cbv zeta.
    pose proof (wf_uploaded cfg req s W) as Wu.
    pose proof (photos_kept_uploaded req s K) as [U1 U2].
    assert (shaped_all (uploaded req s)) as Hsu by (by apply shaped_all_uploaded).
    assert (∀ l p, l ∈ inv_list (uploaded req s) →
                   photo_file (deref (uploaded req s) l) = Some p → p ∈ files s) as K1.
    { intros l p. rewrite inv_list_uploaded. intros Hl Hp. apply (proj1 K l p Hl).
      unfold FlatRun.uploaded in Hp. by destruct (req_file req). }
    assert (∀ p, upload_path cfg PutInventoryIdPhoto req = Some p →
                 p ∈ files (uploaded req s)) as Hu1.
    { intros p. unfold Store.upload_path. cbn. rewrite files_after_upload.
      destruct (req_file req); [|done]. cbn. intros [= <-].
      apply elem_of_union. left. by apply elem_of_singleton. }
    remember (uploaded req s) as u eqn:Hu. clear Hu.
    destruct (found (Number (params_id req)) u) as [item|] eqn:Hf.
    + assert (item ∈ inv_list u) as Hitem by (by eapply found_elem).
      assert (∀ l, l ∈ inv_list u →
                photo_file (deref (replaced req item u) l) =
                if decide (l = item) then upload_path cfg PutInventoryIdPhoto req
                else photo_file (deref u l)) as Hd.
      { intros l Hl. rewrite deref_replaced by (by apply (wf_locs u Wu)).
        destruct (decide _); [|done]. apply photo_file_set_photo. }
      split.
      * intros l p. rewrite inv_list_replaced, files_replaced. intros Hl.
        rewrite (Hd l Hl). destruct (decide (l = item)) as [->|Hne]; intros Hp.
        -- apply files_drop_photo_keeps; [by apply Hsu | by apply Hu1 |].
           intros Hq. apply (Hfresh p Hp). by apply (K1 item).
        -- apply files_drop_photo_keeps; [by apply Hsu | by apply (U1 l) |].
           intros Hq. apply Hne. by apply (U2 l item p).
      * intros l1 l2 p. rewrite inv_list_replaced. intros Hl1 Hl2.
        rewrite (Hd l1 Hl1), (Hd l2 Hl2).
        destruct (decide (l1 = item)) as [->|Hn1], (decide (l2 = item)) as [->|Hn2];
          try done.
        -- intros Hp1 Hp2. exfalso. apply (Hfresh p Hp1). by apply (K1 l2).
        -- intros Hp1 Hp2. exfalso. apply (Hfresh p Hp2). by apply (K1 l1).
        -- by apply U2.
    + destruct (req_file req) as [f|] eqn:Hrf; [|by split].
      split; [|exact U2]. intros l p Hl Hp. cbn.
      apply elem_of_difference. split; [by apply (U1 l)|].
      intros ->%elem_of_singleton.
      apply (Hfresh (path_join (uploadsPath cfg) f)); [|by apply (K1 l)].
      unfold Store.upload_path. cbn. by rewrite Hrf.
  - (* delete *)
    destruct (found _ _) as [item|] eqn:Hf; [|done]. destruct K as [K1 K2].
    assert (item ∈ inv_list s) as Hitem by (by eapply found_elem).
    split.
    + intros l p [Hl Hne]%elem_of_deleted. rewrite deref_deleted, files_deleted.
      intros Hp. apply files_drop_photo_keeps; [by apply Hs | by apply (K1 l) |].
      intros Hq. apply Hne. by apply (K2 l item p).
    + intros l1 l2 p [Hl1 _]%elem_of_deleted [Hl2 _]%elem_of_deleted.
      rewrite !deref_deleted. by apply K2.
Qed.

Lemma restart_index s l' :
  wf s → shaped_all s → l' ∈ inv_list (restart s) →
  ∃ i l, l' = (length (heap s) + i)%nat ∧ inv_list s !! i = Some l ∧
         deref (restart s) l' = deref s l.
Proof.
  intros W Hs Hl'. rewrite inv_list_restart in Hl' by done.
  apply elem_of_seq in Hl' as [Hlo Hhi].
  destruct (lookup_lt_is_Some_2 (inv_list s) (l' - length (heap s))) as [l Hl]; [lia|].
  exists (l' - length (heap s))%nat, l. split; [lia|]. split; [done|].
  replace l' with (length (heap s) + (l' - length (heap s)))%nat at 1 by lia.
  rewrite (deref_restart s _ l) by done.
  apply shaped_to_json, Hs. by eapply list_elem_of_lookup_2.
Qed.

Lemma photos_kept_restart s :
  wf s → shaped_all s → photos_kept s → photos_kept (restart s).
Proof.
  intros W Hs [K1 K2]. split.
  - intros l' p (i & l & -> & Hi & ->)%restart_index; [|done..].
    apply K1. by eapply list_elem_of_lookup_2.
  - intros l1 l2 p (i1 & m1 & -> & Hi1 & ->)%restart_index
                   (i2 & m2 & -> & Hi2 & ->)%restart_index; [|done..].
    intros Hp1 Hp2. assert (m1 = m2) as <-.
    { apply (K2 m1 m2 p); try done; by eapply list_elem_of_lookup_2. }
    f_equal. eapply NoDup_lookup; eauto. apply (wf_nodup s W).
Qed.

Lemma photos_kept_run ops s :
  wf s → shaped_all s → photos_kept s → fresh_uploads cfg ops s = true →
  photos_kept (run cfg ops s).
Proof.
  revert s. induction ops as [|o ops IH]; intros s W Hs K Hfr; [done|].
  cbn [fresh_uploads] in Hfr. apply andb_true_iff in Hfr as [Hnow Hlater].
  cbn [run fold_left]. apply IH; [by apply wf_step | by apply shaped_all_step | | done].
  destruct o as [r req|]; [|by apply photos_kept_restart].
  destruct (serve_effect r req s W) as [W1 E]. cbn [step].
  eapply photos_kept_extends; [exact W1 | exact E |].
  apply photos_kept_effect; try done.
  intros p Hp. rewrite Hp in Hnow. by apply bool_decide_eq_true in Hnow.
Qed.

Lemma photos_kept_init : photos_kept init.
Proof.
  split; [intros l p Hl | intros l1 l2 p Hl]; by apply elem_of_nil in Hl.
Qed.

(** *** What [get_photo] answers *)

Lemma get_photo_run req s :
  get_photo cfg req s =
  (match found (Number (params_id req)) s with
   | None => absent
   | Some item =>
       if decide (get_prop (deref s item) "photo" = VNull)
       then {| status := 404; content := Json (JString "Inventory has no photo") |}
       else
         let p := path_join (uploadsPath cfg) (to_string (get_prop (deref s item) "photo")) in
         if bool_decide (p ∈ files s)
         then sendFile cfg p (files s)
         else {| status := 404; content := Text "Photo not found" |}
   end, s, []).
Proof.
  unfold get_photo. cbv zeta. unfold bind at 1. rewrite find_run. cbv beta iota zeta.
  destruct (found _ _) as [item|]; [|reflexivity].
  mstep read gets. destruct (decide _); [reflexivity|].
  unfold bind, existsSync, gets, ret. by destruct (bool_decide _).
Qed.

Lemma get_photo_kept req s :
  shaped_all s → photos_kept s →
  (get_photo cfg req s).1.1 =
  match found (Number (params_id req)) s with
  | None => absent
  | Some item =>
      match photo_file (deref s item) with
      | Some p => sendFile cfg p (files s)
      | None => {| status := 404; content := Json (JString "Inventory has no photo") |}
      end
  end.
Proof.
  intros Hs [K1 _]. rewrite get_photo_run. cbn [fst].
  destruct (found _ _) as [item|] eqn:Hf; [|done].
  assert (item ∈ inv_list s) as Hitem by (by eapply found_elem).
  destruct (photo_file_shaped _ (Hs item Hitem)) as [[Hp E]|(f & Hp & E)];
    rewrite E, Hp.
  - by rewrite decide_True.
  - rewrite decide_False by done. cbn [to_string]. cbv zeta.
    rewrite bool_decide_eq_true_2; [done|]. by apply (K1 item).
Qed.

(** *** New files and the items that reference them *)

Lemma elem_of_referenced s p :
  p ∈ referenced cfg s ↔ ∃ l, l ∈ inv_list s ∧ photo_file (deref s l) = Some p.
Proof. unfold referenced. rewrite list_elem_of_omap. naive_solver. Qed.

Lemma referenced_extends s s' p :
  wf s → extends s s' → p ∈ referenced cfg s → p ∈ referenced cfg s'.
Proof.
  intros W E (l & Hl & Hp)%elem_of_referenced. pose proof E as (_ & _ & Hi & _).
  apply elem_of_referenced. exists l. rewrite Hi. split; [done|].
  rewrite (extends_deref s s'); [done.. | by apply (wf_locs s W)].
Qed.

Lemma new_files_referenced r req s p :
  wf s → shaped_all s → rejected r req = false →
  p ∈ files (effect r req s) → p ∈ files s ∨ p ∈ referenced cfg (effect r req s).
Proof.
  intros W Hs Hrej. destruct r; cbn [Store.effect]; auto.
  - cbn in Hrej. apply negb_false_iff in Hrej. rewrite Hrej.
    change (files (registered req (uploaded req s))) with (files (uploaded req s)).
    rewrite files_after_upload. destruct (req_file req) as [f|] eqn:Hrf; [|auto].
    intros [->%elem_of_singleton|?]%elem_of_union; [right|by left].
    apply elem_of_referenced. exists (length (heap (uploaded req s))). split.
    + unfold registered. cbv zeta. proj_simpl. apply elem_of_app. right.
      by apply list_elem_of_singleton.
    + rewrite deref_registered_new. unfold Store.photo_file, new_item. cbn.
      by rewrite Hrf.
  - destruct (found _ _); auto.
  - cbv zeta. pose proof (wf_uploaded cfg req s W) as Wu.
    assert (shaped_all (uploaded req s)) as Hsu by (by apply shaped_all_uploaded).
    destruct (found (Number (params_id req)) (uploaded req s)) as [item|] eqn:Hf.
    + assert (item ∈ inv_list (uploaded req s)) as Hitem by (by eapply found_elem).
      rewrite files_replaced.
      intros [Hp _]%files_drop_photo_shaped; [|by apply Hsu].
      rewrite files_after_upload in Hp. destruct (req_file req) as [f|] eqn:Hrf; [|by left].
      apply elem_of_union in Hp as [->%elem_of_singleton|?]; [right|by left].
      apply elem_of_referenced. exists item. split; [by rewrite inv_list_replaced|].
      rewrite deref_replaced by (by apply (wf_locs _ Wu)).
      rewrite decide_True by done. rewrite Hrf.
      apply (photo_file_set_photo _ (Some f)).
    + destruct (req_file req) as [f|] eqn:Hrf.
      * cbn [files with_files]. rewrite files_after_upload, Hrf.
        intros [Hp Hne]%elem_of_difference. left.
        apply elem_of_union in Hp as [?|?]; done.
      * rewrite files_after_upload, Hrf. auto.
  - destruct (found _ _) as [item|] eqn:Hf; [|auto].
    rewrite files_deleted. intros [Hp _]%files_drop_photo_shaped; [by left|].
    apply Hs. by eapply found_elem.
Qed.

(** *** What the routes answer *)

Lemma find_app_first {A} (p : A → bool) (l1 l2 : list A) :
  List.find p (l1 ++ l2) =
  match List.find p l1 with
  | Some x => Some x
  | None => List.find p l2
  end.
Proof. induction l1 as [|x l1 IH]; simpl; [done|]. by destruct (p x). Qed.

Lemma found_items n s :
  deref s <$> found n s =
  List.find (λ o, strict_eq_num (get_prop o "id") n) (deref s <$> inv_list s).
Proof. unfold found. symmetry. apply find_fmap. Qed.

Lemma formatted_id o : get_prop (formatted o) "id" = get_prop o "id".
Proof. unfold FlatRun.formatted. by rewrite get_set_prop_ne. Qed.

Lemma shown_id o k :
  get_prop o "id" = VNum k → get_prop (to_json (formatted o)) "id" = VNum k.
Proof.
  intros Hk. rewrite get_prop_to_json; rewrite formatted_id; by rewrite Hk.
Qed.

Lemma get_item_items req s :
  (get_item cfg req s).1.1 =
  match deref s <$> found (Number (params_id req)) s with
  | Some o => {| status := 200; content := Json (JObject (to_json (formatted o))) |}
  | None => absent
  end.
Proof. rewrite get_item_run. by destruct (found _ _). Qed.

Lemma get_photo_items req s :
  (get_photo cfg req s).1.1 =
  match deref s <$> found (Number (params_id req)) s with
  | Some o =>
      if decide (get_prop o "photo" = VNull)
      then {| status := 404; content := Json (JString "Inventory has no photo") |}
      else
        let p := path_join (uploadsPath cfg) (to_string (get_prop o "photo")) in
        if bool_decide (p ∈ files s)
        then sendFile cfg p (files s)
        else {| status := 404; content := Text "Photo not found" |}
  | None => absent
  end.
Proof. rewrite get_photo_run. by destruct (found _ _). Qed.

Lemma search_items req s :
  (search cfg req s).1.1 =
  match deref s <$> found (parseInt (get_prop (req_body req) "id")) s with
  | Some o =>
      {| status := 200;
         content := Json (JObject (to_json
           (search_view cfg (get_prop (req_body req) "has_photo") o))) |}
  | None => absent
  end.
Proof. rewrite search_response. by destruct (found _ _). Qed.

Lemma list_all_items req s :
  wf s →
  (list_all cfg req s).1.1 =
  {| status := 200;
     content := Json (JArray ((λ o, to_json (formatted o)) <$> (deref s <$> inv_list s))) |}.
Proof.
  intros W. pose proof (flat_list_refines cfg req s W) as H. cbn [serve] in H.
  change (list_all cfg (no_upload req) s) with (list_all cfg req s) in H.
  destruct (list_all cfg req s) as [[resp s'] t]. by destruct H as [-> _].
Qed.

(** The reading routes answer from the items and the files alone. *)
Lemma reads_from_items r req s1 s2 :
  wf s1 → wf s2 → reads_only r = true →
  deref s1 <$> inv_list s1 = deref s2 <$> inv_list s2 → files s1 = files s2 →
  (serve cfg r req s1).1.1 = (serve cfg r req s2).1.1.
Proof.
  intros W1 W2 Hr Hi Hf. destruct r; try discriminate; cbn [serve].
  - by rewrite !list_all_items, Hi.
  - by rewrite !get_item_items, !found_items, Hi.
  - by rewrite !get_photo_items, !found_items, Hi, Hf.
  - by rewrite !search_items, !found_items, Hi.
Qed.

(** **** A new item and its id *)

Lemma register_answer req s :
  truthy (get_prop (req_body req) "inventory_name") = true →
  (serve cfg PostRegister req s).1.1 =
    {| status := 200;
       content := Json (JObject (to_json (formatted (new_item req (uploaded req s))))) |} ∧
  extends (registered req (uploaded req s)) (serve cfg PostRegister req s).1.2.
Proof.
  intros Hn. rewrite serve_register, register_run by done. cbn [fst snd].
  split; [done | apply extends_alloc].
Qed.

Lemma inv_nextId_uploaded req s : inv_nextId (uploaded req s) = inv_nextId s.
Proof. unfold FlatRun.uploaded. by destruct (req_file req). Qed.

Lemma new_item_id req s : get_prop (new_item req s) "id" = VNum (inv_nextId s).
Proof. reflexivity. Qed.

Lemma found_registered req s :
  wf s → inv_nextId s < 2 ^ 53 →
  found (binary64 false (inv_nextId s) 1) (registered req s) = Some (length (heap s)).
Proof.
  intros W Hb. destruct (wf_ids s W Hb) as [Wa _]. pose proof (wf_next s W) as Hn.
  unfold found.
  assert (inv_list (registered req s) = inv_list s ++ [length (heap s)]) as -> by done.
  rewrite find_app_first.
  assert (List.find
            (λ l, strict_eq_num (get_prop (deref (registered req s) l) "id")
                    (binary64 false (inv_nextId s) 1)) (inv_list s) = None) as ->.
  { destruct (List.find _ _) as [l|] eqn:E; [|done]. exfalso.
    apply find_some in E as [Hl%list_elem_of_In E].
    rewrite deref_registered_old in E by (by apply (wf_locs s W)).
    rewrite strict_eq_num_binary64 in E by lia.
    destruct (Wa l Hl) as (k & Hk & Hr). unfold item_id in Hk. rewrite Hk in E.
    apply Z.eqb_eq in E. lia. }
  cbn [List.find]. rewrite deref_registered_new, new_item_id.
  rewrite strict_eq_num_binary64 by lia. by rewrite Z.eqb_refl.
Qed.

Lemma register_then_get req q s :
  wf s → inv_nextId s < 2 ^ 53 →
  truthy (get_prop (req_body req) "inventory_name") = true →
  params_id q = to_string (body_id (serve cfg PostRegister req s).1.1) →
  status (serve cfg PostRegister req s).1.1 = 200 ∧
  body_id (serve cfg PostRegister req s).1.1 = VNum (inv_nextId s) ∧
  found (Number (params_id q)) (registered req (uploaded req s))
    = Some (length (heap s)) ∧
  (serve cfg GetInventoryId q (serve cfg PostRegister req s).1.2).1.1 =
    (serve cfg PostRegister req s).1.1.
Proof.
  intros W Hb Hn. destruct (register_answer req s Hn) as [Hr E]. rewrite Hr.
  pose proof (wf_uploaded cfg req s W) as Wu.
  pose proof (wf_registered req _ Wu) as Wr.
  assert (body_id {| status := 200;
            content := Json (JObject (to_json (formatted (new_item req (uploaded req s))))) |}
          = VNum (inv_nextId s)) as Hid.
  { unfold body_id. cbn [content]. rewrite (shown_id _ (inv_nextId (uploaded req s))).
    - by rewrite inv_nextId_uploaded.
    - apply new_item_id. }
  rewrite Hid. cbn [to_string]. intros Hq.
  assert (found (Number (params_id q)) (registered req (uploaded req s))
          = Some (length (heap s))) as Hf.
  { rewrite Hq, Number_pretty by (pose proof (wf_next s W); lia).
    rewrite <- (inv_nextId_uploaded req s), <- (heap_uploaded req s).
    apply found_registered; [done | by rewrite inv_nextId_uploaded]. }
  split; [done|]. split; [done|]. split; [done|].
  change (serve cfg GetInventoryId q) with (get_item cfg (no_upload q)).
  change (params_id q) with (params_id (no_upload q)) in Hf.
  rewrite (get_item_extends cfg (no_upload q) _ _ Wr E).
  rewrite get_item_run, Hf. cbn [fst]. unfold FlatRun.answer.
  rewrite <- (heap_uploaded req s), deref_registered_new. done.
Qed.

(** **** The list and the single items *)

Lemma list_then_get req s :
  wf s → inv_nextId s < 2 ^ 53 →
  ∃ bodies,
    (serve cfg GetInventory req s).1.1 =
      {| status := 200; content := Json (JArray bodies) |} ∧
    (λ o, get_prop o "id") <$> bodies = stored_ids s ∧
    ∀ o q, o ∈ bodies → params_id q = to_string (get_prop o "id") →
           (serve cfg GetInventoryId q s).1.1 =
             {| status := 200; content := Json (JObject o) |}.
Proof.
  intros W Hb. destruct (wf_ids s W Hb) as [Wa _].
  exists ((λ o, to_json (formatted o)) <$> (deref s <$> inv_list s)).
  split; [cbn [serve]; by apply list_all_items|]. split.
  - unfold stored_ids. rewrite <- !list_fmap_compose.
    apply list_fmap_ext. intros i l Hi. cbn.
    destruct (Wa l) as (k & Hk & _); [by eapply list_elem_of_lookup_2|].
    rewrite Hk. by apply shown_id.
  - intros o q (o' & -> & (l & -> & Hl)%list_elem_of_fmap)%list_elem_of_fmap.
    destruct (Wa l Hl) as (k & Hk & Hr). rewrite (shown_id _ k Hk). cbn [to_string].
    intros Hq. cbn [serve]. rewrite get_item_run. cbn [no_upload params_id].
    rewrite Hq, (found_numeral s l k) by done. done.
Qed.

(** **** Reading after a request *)

Lemma items_extends s s' :
  wf s → extends s s' → deref s' <$> inv_list s' = deref s <$> inv_list s.
Proof.
  intros W E. pose proof (flat_table_extends s s' W E) as H.
  by injection H as H _.
Qed.

Lemma reads_extends r req s s' :
  wf s → extends s s' → reads_only r = true →
  (serve cfg r req s').1.1 = (serve cfg r req s).1.1.
Proof.
  intros W E Hr. apply reads_from_items; try done.
  - by eapply wf_extends.
  - by apply items_extends.
  - apply E.
Qed.

(** A request is read against the store the one before it left. *)
Lemma reads_after r q r0 req s :
  wf s → reads_only r = true →
  (serve cfg r q (serve cfg r0 req s).1.2).1.1 = (serve cfg r q (effect r0 req s)).1.1.
Proof.
  intros W Hr. destruct (serve_effect r0 req s W) as [We E]. by apply reads_extends.
Qed.

Lemma found_same_ids n s s' :
  inv_list s' = inv_list s → (∀ l, l ∈ inv_list s → item_id s' l = item_id s l) →
  found n s' = found n s.
Proof.
  intros Hi Hd. unfold found. rewrite Hi.
  assert (∀ ls, (∀ l, l ∈ ls → l ∈ inv_list s) →
    List.find (λ l, strict_eq_num (get_prop (deref s' l) "id") n) ls =
    List.find (λ l, strict_eq_num (get_prop (deref s l) "id") n) ls) as H.
  { induction ls as [|l ls IH]; intros Hin; [done|]. cbn [List.find].
    change (get_prop (deref s' l) "id") with (item_id s' l).
    rewrite Hd by (apply Hin; left). change (item_id s l) with (get_prop (deref s l) "id").
    destruct (strict_eq_num _ _); [done|]. apply IH. intros; apply Hin. by right. }
  by apply H.
Qed.

Lemma found_updated n req item s : found n (updated req item s) = found n s.
Proof.
  apply found_same_ids; [done|]. intros l _. rewrite !item_id_heap.
  unfold updated. cbv zeta. proj_simpl. by rewrite !heap_id_set.
Qed.

Lemma found_replaced n req item s : found n (replaced req item s) = found n s.
Proof.
  apply found_same_ids; [apply inv_list_replaced|]. intros l _. rewrite !item_id_heap.
  unfold FlatRun.replaced. cbv zeta. proj_simpl. rewrite heap_id_set by done.
  by destruct (drop_photo_mem cfg (deref s item) s) as (-> & _).
Qed.

Lemma find_filter_other {A} (p q : A → bool) (l : list A) :
  (∀ x, List.find p l = Some x → q x = true) →
  List.find p (List.filter q l) = List.find p l.
Proof.
  induction l as [|y l IH]; intros H; [done|]. cbn [List.find List.filter] in *.
  destruct (p y) eqn:Hp.
  - rewrite (H y eq_refl). cbn [List.find]. by rewrite Hp.
  - destruct (q y); cbn [List.find]; rewrite ?Hp; by apply IH.
Qed.

Lemma find_pointwise {A} (p q : A → bool) (l : list A) :
  (∀ x, p x = q x) → List.find p l = List.find q l.
Proof.
  intros H. induction l as [|x l IH]; [done|]. cbn [List.find]. by rewrite H, IH.
Qed.

Lemma found_deleted_other n item s :
  found n s ≠ Some item → found n (deleted item s) = found n s.
Proof.
  intros Hne. unfold found. rewrite inv_list_deleted.
  erewrite (find_filter_other _ _ (inv_list s)).
  - apply find_pointwise. intros l. by rewrite deref_deleted.
  - intros l Hl. apply negb_true_iff, Nat.eqb_neq. intros ->.
    apply Hne. unfold found. rewrite <- Hl. apply find_pointwise. intros l.
    by rewrite deref_deleted.
Qed.

(** **** [update] *)

Lemma update_then_get req q s item :
  wf s → found (Number (params_id req)) s = Some item → params_id q = params_id req →
  serve cfg PutInventoryId req s =
    (answer (updated req item s) item, answered (updated req item s) item,
     [WriteDb (dbFile (updated req item s))]) ∧
  (serve cfg GetInventoryId q (serve cfg PutInventoryId req s).1.2).1.1 =
    answer (updated req item s) item.
Proof.
  intros W Hf Hq.
  assert (serve cfg PutInventoryId req s =
    (answer (updated req item s) item, answered (updated req item s) item,
     [WriteDb (dbFile (updated req item s))])) as Hrun.
  { cbn [serve]. by rewrite (update_run cfg (no_upload req) s item). }
  split; [exact Hrun|].
  rewrite reads_after by done. cbn [Store.effect serve]. rewrite Hf.
  rewrite get_item_run. cbn [no_upload params_id]. rewrite Hq, found_updated, Hf. done.
Qed.

(** **** [search] *)

Lemma search_numeral req s l k t :
  wf s → inv_nextId s < 2 ^ 53 → l ∈ inv_list s → item_id s l = VNum k →
  stops t = true →
  get_prop (req_body req) "id" = VStr (pretty k +:+ t) ∨
  get_prop (req_body req) "id" = VNum k →
  (serve cfg PostSearch req s).1.1 =
  {| status := 200;
     content := Json (JObject (to_json
       (search_view cfg (get_prop (req_body req) "has_photo") (deref s l)))) |}.
Proof.
  intros W Hb Hl Hk Ht Hid. cbn [serve]. rewrite search_response.
  cbn [no_upload req_body].
  destruct (wf_ids s W Hb) as [Wa _].
  destruct (Wa l Hl) as (k' & Hk' & Hr). rewrite Hk in Hk'. injection Hk' as <-.
  assert (parseInt (get_prop (req_body req) "id") = binary64 false k 1) as ->.
  { destruct Hid as [-> | ->]; unfold parseInt; cbn [to_string].
    - apply parseInt_pretty; [lia | done].
    - rewrite <- (append_nil_r (pretty k)). apply parseInt_pretty; [lia | done]. }
  by rewrite (found_number s l k).
Qed.

(** **** [replace_photo] *)

Lemma replace_then_photo req q s item :
  wf s → shaped_all s → photos_kept s →
  (∀ p, upload_path cfg PutInventoryIdPhoto req = Some p → p ∉ files s) →
  found (Number (params_id req)) s = Some item → params_id q = params_id req →
  (serve cfg GetInventoryIdPhoto q (serve cfg PutInventoryIdPhoto req s).1.2).1.1 =
    match req_file req with
    | Some f => sendFile cfg (path_join (uploadsPath cfg) f)
                  (files (serve cfg PutInventoryIdPhoto req s).1.2)
    | None => {| status := 404; content := Json (JString "Inventory has no photo") |}
    end ∧
  (∀ f, req_file req = Some f →
        path_join (uploadsPath cfg) f ∈ files (serve cfg PutInventoryIdPhoto req s).1.2) ∧
  (∀ p, photo_file (deref s item) = Some p → truthy (get_prop (deref s item) "photo") = true →
        p ∉ files (serve cfg PutInventoryIdPhoto req s).1.2).
Proof.
  intros W Hs K Hfresh Hf Hq.
  pose proof (photos_kept_effect PutInventoryIdPhoto req s W Hs K Hfresh) as Ke.
  pose proof (shaped_all_effect PutInventoryIdPhoto req s W Hs) as Se.
  destruct (serve_effect PutInventoryIdPhoto req s W) as [We E].
  pose proof (wf_uploaded cfg req s W) as Wu.
  assert (item ∈ inv_list s) as Hitem by (by eapply found_elem).
  assert (effect PutInventoryIdPhoto req s = replaced req item (uploaded req s)) as He.
  { cbn [Store.effect]. cbv zeta. by rewrite found_uploaded, Hf. }
  assert (deref (replaced req item (uploaded req s)) item =
          set_prop (deref (uploaded req s) item) "photo"
            (match req_file req with Some f => VStr f | None => VNull end)) as Hd.
  { rewrite deref_replaced by (rewrite heap_uploaded; by apply (wf_locs s W)).
    by rewrite decide_True. }
  destruct E as (_ & _ & _ & _ & Hfiles). split_and!.
  - rewrite Hfiles. rewrite reads_after by done. cbn [serve].
    rewrite get_photo_kept by done. cbn [no_upload params_id].
    rewrite Hq, He, found_replaced, found_uploaded, Hf, Hd, photo_file_set_photo.
    by destruct (req_file req).
  - intros f Hrf. rewrite Hfiles. apply (proj1 Ke item).
    + rewrite He, inv_list_replaced. unfold FlatRun.uploaded. by destruct (req_file req).
    + by rewrite He, Hd, photo_file_set_photo, Hrf.
  - intros p Hp Ht. rewrite Hfiles, He, files_replaced.
    assert (deref (uploaded req s) item = deref s item) as ->.
    { unfold FlatRun.uploaded. by destruct (req_file req). }
    rewrite files_drop_photo, Hp, Ht. intros [_ Hn]%elem_of_difference.
    apply Hn. by apply elem_of_singleton.
Qed.

(** **** [delete] *)

Lemma delete_frame req s item :
  wf s → inv_nextId s < 2 ^ 53 → found (Number (params_id req)) s = Some item →
  (serve cfg DeleteInventoryId req s).1.2 = deleted item s ∧
  (∀ q, found (Number (params_id q)) s = Some item →
        (serve cfg GetInventoryId q (deleted item s)).1.1 = absent) ∧
  (∀ q, found (Number (params_id q)) s ≠ Some item →
        (serve cfg GetInventoryId q (deleted item s)).1.1 =
        (serve cfg GetInventoryId q s).1.1).
Proof.
  intros W Hb Hf. split; [|split].
  - cbn [serve]. by rewrite (delete_run cfg (no_upload req) s item).
  - intros q Hq. cbn [serve]. rewrite get_item_run. cbn [no_upload params_id].
    by rewrite (found_deleted cfg _ s item).
  - intros q Hq. cbn [serve]. rewrite !get_item_run. cbn [no_upload params_id].
    rewrite found_deleted_other by done.
    destruct (found (Number (params_id q)) s) as [l|]; [|done].
    cbn [fst]. unfold FlatRun.answer. by rewrite deref_deleted.
Qed.

(** **** Small facts the theorems on single routes use *)

Lemma with_metadata_props n d o :
  get_prop (Contract.with_metadata n d o) "inventory_name"
    = nullish_or n (get_prop o "inventory_name") ∧
  get_prop (Contract.with_metadata n d o) "description"
    = nullish_or d (get_prop o "description") ∧
  ∀ k, k ≠ "inventory_name" → k ≠ "description" →
       get_prop (Contract.with_metadata n d o) k = get_prop o k.
Proof.
  unfold Contract.with_metadata. cbv zeta. split_and!.
  - by rewrite get_set_prop_ne, get_set_prop_eq.
  - by rewrite get_set_prop_eq, get_set_prop_ne.
  - intros k H1 H2. by rewrite !get_set_prop_ne.
Qed.

Lemma flat_reads_only r req s :
  wf s → reads_only r = true →
  let '(_, s', t) := serve cfg r req s in
  t = [] ∧ inv_list s' = inv_list s ∧ inv_nextId s' = inv_nextId s ∧
  dbFile s' = dbFile s ∧ files s' = files s ∧
  ∀ l, l ∈ inv_list s → deref s' l = deref s l.
Proof.
  intros W Hr.
  assert (let '(_, s', t) := serve cfg r req s in extends s s' ∧ t = []) as H.
  { destruct r; try discriminate; cbn [serve].
    - apply list_all_frame.
    - apply get_item_frame.
    - apply get_photo_frame.
    - apply search_frame. }
  destruct (serve cfg r req s) as [[resp s'] t]. destruct H as [E ->].
  pose proof E as (_ & Hn & Hl & Hd & Hf). split_and!; try done.
  intros l Hin. apply extends_deref; [done | by apply (wf_locs s W)].
Qed.

Lemma fresh_uploads_app ops o s :
  fresh_uploads cfg (ops ++ [o]) s =
  fresh_uploads cfg ops s && fresh_uploads cfg [o] (run cfg ops s).
Proof.
  revert s. induction ops as [|o' ops IH]; intros s.
  - cbn [app fresh_uploads run fold_left]. by rewrite andb_true_r.
  - cbn [app fresh_uploads run fold_left]. rewrite IH. by rewrite andb_assoc.
Qed.

Lemma register_photo_url req s :
  truthy (get_prop (req_body req) "inventory_name") = true →
  Order.body_prop (serve cfg PostRegister req s).1.1 "photo" =
  match req_file req with
  | Some f =>
      if negb (String.eqb f "") then
        VStr ("http://" +:+ host cfg +:+ ":" +:+ port cfg +:+ "/inventory/"
              +:+ pretty (inv_nextId s) +:+ "/photo")
      else VNull
  | None => VNull
  end.
Proof.
  intros Hn. destruct (register_answer req s Hn) as [-> _].
  unfold Order.body_prop. cbn [content].
  unfold FlatRun.formatted, new_item. cbn [get_prop String.eqb Ascii.eqb Bool.eqb].
  rewrite inv_nextId_uploaded.
  rewrite get_prop_to_json; rewrite get_set_prop_eq;
    destruct (req_file req) as [f|]; cbn [truthy to_string]; try done;
    by destruct (negb (String.eqb f "")).
Qed.

(** **** [update], twice *)

Lemma with_metadata_idem n d o :
  shaped o = true →
  Contract.with_metadata n d (Contract.with_metadata n d o) = Contract.with_metadata n d o.
Proof.
  intros (k & n0 & d0 & p & -> & _)%shaped_spec.
  unfold Contract.with_metadata. cbn. by destruct n, d.
Qed.

Lemma found_extends n s s' : wf s → extends s s' → found n s' = found n s.
Proof. intros W E. apply (extends_find s s' n (wf_locs s W) E). Qed.

Lemma update_twice req s :
  wf s → shaped_all s →
  let '(r1, s1, t1) := serve cfg PutInventoryId req s in
  let '(r2, s2, t2) := serve cfg PutInventoryId req s1 in
  r2 = r1 ∧ deref s2 <$> inv_list s2 = deref s1 <$> inv_list s1 ∧
  inv_nextId s2 = inv_nextId s1 ∧ dbFile s2 = dbFile s1 ∧ files s2 = files s1 ∧
  unlinks t1 = [] ∧ unlinks t2 = [].
Proof.
  intros W Hs. cbn [serve].
  destruct (found (Number (params_id (no_upload req))) s) as [item|] eqn:Hf.
  2:{ rewrite update_absent by done. by rewrite update_absent by done. }
  rewrite (update_run cfg _ s item) by done.
  pose proof (wf_updated (no_upload req) item s W) as Wu.
  pose proof (wf_answered cfg _ item Wu) as Wa.
  assert (item ∈ inv_list s) as Hitem by (by eapply found_elem).
  set (u1 := updated (no_upload req) item s) in *.
  set (a1 := answered u1 item) in *.
  assert (extends u1 a1) as E1 by apply extends_alloc.
  assert (found (Number (params_id (no_upload req))) a1 = Some item) as Hf1.
  { rewrite (found_extends _ u1 a1 Wu E1). unfold u1. by rewrite found_updated. }
  rewrite (update_run cfg _ a1 item) by done.
  assert (∀ l, l ∈ inv_list s →
            deref (updated (no_upload req) item a1) l = deref a1 l) as Hd.
  { intros l Hl.
    assert (l < length (heap u1))%nat as Hlt by (by apply (wf_locs u1 Wu)).
    rewrite deref_updated by (by apply (wf_locs a1 Wa)).
    destruct (decide (l = item)) as [->|]; [|done].
    rewrite (extends_deref u1 a1) by done. unfold u1.
    rewrite deref_updated by (by apply (wf_locs s W)). rewrite decide_True by done.
    apply with_metadata_idem. by apply Hs. }
  pose proof (wf_updated (no_upload req) item a1 Wa) as Wu2.
  assert (extends (updated (no_upload req) item a1)
                  (answered (updated (no_upload req) item a1) item)) as E2
    by apply extends_alloc.
  assert (deref (updated (no_upload req) item a1) <$> inv_list s =
          deref a1 <$> inv_list s) as Hitems.
  { apply list_fmap_ext. intros i l Hi. apply Hd. by eapply list_elem_of_lookup_2. }
  split_and!; try done.
  - unfold FlatRun.answer. rewrite (Hd item Hitem).
    by rewrite (extends_deref u1 a1) by (done || by apply (wf_locs u1 Wu)).
  - rewrite (items_extends _ _ Wu2 E2). exact Hitems.
  - change (dbFile (answered (updated (no_upload req) item a1) item))
      with (dbFile (updated (no_upload req) item a1)).
    rewrite (wf_disk _ Wu2), (wf_disk _ Wa). unfold stringify.
    change (inv_list (updated (no_upload req) item a1)) with (inv_list s).
    change (inv_list a1) with (inv_list s).
    change (inv_nextId (updated (no_upload req) item a1)) with (inv_nextId a1).
    f_equal. apply map_ext_in. intros l Hl%list_elem_of_In. f_equal. by apply Hd.
Qed.

(** **** The order of the list *)

Lemma id_of_item s l k : item_id s l = VNum k → id_of (deref s l) = k.
Proof. unfold item_id, id_of. by intros ->. Qed.

Lemma id_numbers_stored s :
  wf s → inv_nextId s < 2 ^ 53 → stored_ids s = VNum <$> id_numbers s.
Proof.
  intros W Hb. destruct (wf_ids s W Hb) as [Wa _].
  unfold stored_ids, id_numbers. rewrite <- !list_fmap_compose.
  apply list_fmap_ext. intros i l Hi. cbn.
  destruct (Wa l) as (k & Hk & _); [by eapply list_elem_of_lookup_2|].
  by rewrite Hk, (id_of_item s l k).
Qed.

Lemma id_numbers_below s k :
  wf s → inv_nextId s < 2 ^ 53 → k ∈ id_numbers s → k < inv_nextId s.
Proof.
  intros W Hb. destruct (wf_ids s W Hb) as [Wa _]. unfold id_numbers.
  rewrite <- list_fmap_compose.
  intros (l & -> & Hl)%list_elem_of_fmap. cbn.
  destruct (Wa l Hl) as (k & Hk & ?). rewrite (id_of_item s l k Hk). lia.
Qed.

Lemma id_numbers_same s s' :
  inv_list s' = inv_list s →
  (∀ l, l ∈ inv_list s → id_of (deref s' l) = id_of (deref s l)) →
  id_numbers s' = id_numbers s.
Proof.
  intros Hi Hd. unfold id_numbers. rewrite Hi, <- !list_fmap_compose.
  apply list_fmap_ext. intros i l Hl. cbn. apply Hd. by eapply list_elem_of_lookup_2.
Qed.

Lemma StronglySorted_filter_fmap {A} (f : A → Z) (p : A → bool) (l : list A) :
  StronglySorted Z.lt (f <$> l) → StronglySorted Z.lt (f <$> List.filter p l).
Proof.
  induction l as [|x l IH]; [done|]. cbn [List.filter fmap list_fmap].
  intros [Hx Hl]%StronglySorted_cons. specialize (IH Hl).
  destruct (p x); [|done]. apply StronglySorted_cons. split; [|done].
  apply Forall_forall. intros y (z & -> & [Hz _]%list_elem_of_In%filter_In)%list_elem_of_fmap.
  rewrite Forall_forall in Hx. apply Hx. apply list_elem_of_fmap_2.
  by apply list_elem_of_In.
Qed.

Lemma id_of_with_metadata n d o : id_of (Contract.with_metadata n d o) = id_of o.
Proof.
  unfold id_of. destruct (with_metadata_props n d o) as (_ & _ & H). by rewrite H.
Qed.

Lemma id_of_set_photo o v : id_of (set_prop o "photo" v) = id_of o.
Proof. unfold id_of. by rewrite get_set_prop_ne. Qed.

Lemma ascending_effect r req s :
  wf s → inv_nextId s < 2 ^ 53 →
  StronglySorted Z.lt (id_numbers s) → StronglySorted Z.lt (id_numbers (effect r req s)).
Proof.
  intros W Hb Ha.
  assert (id_numbers (uploaded req s) = id_numbers s) as Hu.
  { apply id_numbers_same; [apply inv_list_uploaded|].
    intros. unfold FlatRun.uploaded. by destruct (req_file req). }
  destruct r; cbn [Store.effect]; try done.
  - destruct (truthy _); [|by rewrite Hu].
    assert (id_numbers (registered req (uploaded req s)) = id_numbers s ++ [inv_nextId s])
      as ->.
    { unfold id_numbers.
      assert (inv_list (registered req (uploaded req s)) = inv_list s ++ [length (heap s)])
        as ->.
      { unfold registered. cbv zeta. proj_simpl.
        by rewrite inv_list_uploaded, heap_uploaded. }
      rewrite !fmap_app. cbn [fmap list_fmap]. f_equal.
      - rewrite <- !list_fmap_compose. apply list_fmap_ext. intros i l Hi. cbn.
        rewrite deref_registered_old.
        + unfold FlatRun.uploaded. by destruct (req_file req).
        + rewrite heap_uploaded. apply (wf_locs s W). by eapply list_elem_of_lookup_2.
      - rewrite <- (heap_uploaded req s), deref_registered_new.
        unfold id_of. rewrite new_item_id. by rewrite inv_nextId_uploaded. }
    apply StronglySorted_app_2; [|done|repeat constructor].
    intros k1 k2 Hk1 ->%list_elem_of_singleton. by apply id_numbers_below.
  - destruct (found _ _) as [item|]; [|done].
    rewrite (id_numbers_same s (updated req item s)); [done..|].
    intros l Hl. rewrite deref_updated by (by apply (wf_locs s W)).
    destruct (decide _); [apply id_of_with_metadata | done].
  - cbv zeta.
    pose proof (wf_uploaded cfg req s W) as Wu. rewrite <- Hu in Ha.
    destruct (found _ _) as [item|].
    + rewrite (id_numbers_same (uploaded req s) (replaced req item (uploaded req s)));
        [done | apply inv_list_replaced |].
      intros l Hl. rewrite deref_replaced by (by apply (wf_locs _ Wu)).
      destruct (decide _); [apply id_of_set_photo | done].
    + by destruct (req_file req).
  - destruct (found _ _) as [item|]; [|done].
    unfold id_numbers. rewrite inv_list_deleted, <- !list_fmap_compose.
    erewrite (list_fmap_ext _ (id_of ∘ deref s)).
    + apply StronglySorted_filter_fmap. unfold id_numbers in Ha.
      by rewrite <- list_fmap_compose in Ha.
    + intros i l Hl. cbn. by rewrite deref_deleted.
Qed.

Lemma ascending_step o s :
  wf s → shaped_all s → inv_nextId (step cfg o s) < 2 ^ 53 →
  (inv_nextId s < 2 ^ 53 → StronglySorted Z.lt (id_numbers s)) →
  StronglySorted Z.lt (id_numbers (step cfg o s)).
Proof.
  intros W Hs Hb' Ha.
  assert (inv_nextId s < 2 ^ 53) as Hb.
  { pose proof (wf_next s W) as Hn. destruct (add1_bounds _ Hn) as [_ ?].
    destruct (step_counter cfg o s W) as [[_ E]|[_ E]]; rewrite E in Hb'; lia. }
  specialize (Ha Hb). destruct o as [r req|].
  - destruct (serve_effect r req s W) as [We E]. cbn [step].
    rewrite (id_numbers_same (effect r req s) _).
    + by apply ascending_effect.
    + apply E.
    + intros l Hl. f_equal. apply extends_deref; [done | by apply (wf_locs _ We)].
  - cbn [step]. unfold id_numbers. by rewrite restart_items.
Qed.

Lemma ascending_run ops s :
  wf s → shaped_all s → inv_nextId (run cfg ops s) < 2 ^ 53 →
  (inv_nextId s < 2 ^ 53 → StronglySorted Z.lt (id_numbers s)) →
  StronglySorted Z.lt (id_numbers (run cfg ops s)).
Proof.
  revert s. induction ops as [|o ops IH]; intros s W Hs Hb Ha; [by apply Ha|].
  cbn [run fold_left] in *. apply IH; [by apply wf_step | by apply shaped_all_step | done |].
  intros Hb'. by apply ascending_step.
Qed.

End FlatStore.

(** ** The relational variant under failing queries *)

Section RelFaults.
Import Rel Faults.
Context (cfg : config).

Local Abbreviation referenced := (referenced cfg).
Local Abbreviation discarded := (discarded cfg).
Local Abbreviation uploaded := (uploaded cfg).
Local Abbreviation drop_photo := (drop_photo cfg).

Lemma spent_nil s : faults s = [] → spent s = s.
Proof. unfold spent. intros H. destruct s. cbn in *. by subst. Qed.

Lemma pool_query_run q s :
  pool_query cfg q s =
  match (if planned_fault s then None else exec cfg q (spent s)) with
  | Some (rs, s2) => (Some rs, s2, [Sql q true])
  | None => (None, spent s, [Sql q false])
  end.
Proof.
  unfold pool_query, planned_fault.
  destruct (faults s) as [|[] fs] eqn:E.
  - by rewrite spent_nil.
  - unfold spent. by rewrite E.
  - unfold spent. by rewrite E.
Qed.

Lemma select_item_run idv s :
  select_item cfg idv s =
  match (if planned_fault s then None else where_id cfg idv) with
  | Some sel =>
      (Some (row_obj <$> head (List.filter sel (rows s))), spent s,
       [Sql (SelectById idv) true])
  | None => (None, spent s, [Sql (SelectById idv) false])
  end.
Proof.
  unfold select_item, bind. rewrite pool_query_run.
  destruct (planned_fault s); [done|]. cbn [exec].
  by destruct (where_id cfg idv).
Qed.

Lemma discard_upload_run req s :
  discard_upload cfg req s =
  (tt, discarded req s,
   match req_file req with
   | Some f => [Unlink (path_join (CACHE cfg) f)]
   | None => []
   end).
Proof. unfold discard_upload, Faults.discarded. by destruct (req_file req). Qed.

(** *** The routes that only read *)

Lemma rel_reads_only r req s :
  Store.reads_only r = true →
  let '(_, s', t) := serve cfg r req s in
  (∀ f, with_faults f s' = with_faults f s) ∧ unlinks t = [] ∧
  ∃ ok, t = [Sql (first_query r req) ok].
Proof.
  intros Hr. destruct r; try discriminate.
  - cbn [serve]. unfold list_all, bind. rewrite pool_query_run.
    destruct (planned_fault s); cbn; (split; [done|]); (split; [done|]); by eexists.
  - cbn [serve]. unfold get_item. cbv zeta. unfold bind. rewrite select_item_run.
    cbn [no_upload params_id first_query id_param].
    destruct (planned_fault s); [|destruct (where_id _ _)]; cbn;
      repeat match goal with |- context [head ?l] => destruct (head l) end;
      cbn; (split; [done|]); (split; [done|]); by eexists.
  - cbn [serve]. unfold get_photo. cbv zeta. unfold bind at 1. rewrite select_item_run.
    cbn [no_upload params_id first_query id_param].
    destruct (planned_fault s); [|destruct (where_id _ _)]; cbn;
      repeat match goal with |- context [head ?l] => destruct (head l) end;
      cbn; repeat case_decide; unfold bind, existsSync, gets; cbn;
      repeat case_bool_decide; cbn;
      (split; [done|]); (split; [done|]); by eexists.
  - apply (rel_search_readonly cfg req s).
Qed.

(** *** The first query fails *)

Lemma first_query_fails_spec r req s :
  first_query_fails cfg r req s =
  planned_fault s ||
  match first_query r req with
  | SelectById i => match where_id cfg i with Some _ => false | None => true end
  | _ => false
  end.
Proof.
  unfold first_query_fails, planned_fault. by destruct (faults s) as [|[] ?].
Qed.

Lemma files_discarded_uploaded req s p :
  p ∈ files (discarded req (spent (uploaded req s))) ↔
  p ∈ files s ∧ path_join (CACHE cfg) <$> req_file req ≠ Some p.
Proof.
  unfold Faults.discarded, Rel.uploaded. destruct (req_file req) as [f|]; cbn.
  - rewrite elem_of_difference, elem_of_union, elem_of_singleton.
    split; [intros [[->|?] Hne]; [done|split; [done|]; by intros [= <-]]
           | intros [? Hne]; split; [by right | by intros ->]].
  - split; [by intros ? | by intros [? _]].
Qed.

Lemma table_discarded_uploaded req s :
  rows (discarded req (spent (uploaded req s))) = rows s ∧
  serial (discarded req (spent (uploaded req s))) = serial s ∧
  faults (discarded req (spent (uploaded req s))) = tail (faults s).
Proof. unfold Faults.discarded, Rel.uploaded. by destruct (req_file req). Qed.

Lemma planned_fault_uploaded req s : planned_fault (uploaded req s) = planned_fault s.
Proof. unfold Rel.uploaded. by destruct (req_file req). Qed.

Lemma rel_first_query_fails r req s :
  first_query_fails cfg r req s = true → Store.rejected r req = false →
  let '(resp, s', t) := serve cfg r req s in
  resp = {| status := 500; content := ErrorMessage |} ∧
  rows s' = rows s ∧ serial s' = serial s ∧ faults s' = tail (faults s) ∧
  (∀ p, p ∈ files s' ↔ p ∈ files s ∧ upload_path cfg r req ≠ Some p) ∧
  t = Sql (first_query r req) false ::
      match upload_path cfg r req with Some p => [Unlink p] | None => [] end.
Proof.
  rewrite first_query_fails_spec. intros Hfail Hrej.
  destruct r; cbn [first_query id_param] in Hfail; cbn [Store.rejected] in Hrej.
  - rewrite orb_false_r in Hfail. apply negb_false_iff in Hrej.
    rewrite rel_serve_register. unfold register. rewrite Hrej. cbn [negb].
    unfold bind at 1. rewrite pool_query_run, planned_fault_uploaded, Hfail.
    unfold bind. rewrite discard_upload_run. cbn [fst snd].
    unfold upload_path. cbn [Store.takes_upload].
    destruct (table_discarded_uploaded req s) as (Hr & Hs & Hf).
    split_and!; try done.
    + apply files_discarded_uploaded.
    + cbn. by destruct (req_file req).
  - rewrite orb_false_r in Hfail. cbn [serve]. unfold list_all, bind.
    rewrite pool_query_run, Hfail. cbn. split_and!; try done; (intros p; split; [by split | by intros [? _]]).
  - cbn [serve]. unfold get_item. cbv zeta. unfold bind. rewrite select_item_run.
    cbn [no_upload params_id].
    destruct (planned_fault s); [|destruct (where_id _ _); [done|]];
      cbn; split_and!; try done; (intros p; split; [by split | by intros [? _]]).
  - cbn [serve]. unfold update. cbv zeta. unfold bind at 1. rewrite select_item_run.
    cbn [no_upload params_id].
    destruct (planned_fault s); [|destruct (where_id _ _); [done|]];
      cbn; split_and!; try done; (intros p; split; [by split | by intros [? _]]).
  - cbn [serve]. unfold get_photo. cbv zeta. unfold bind at 1. rewrite select_item_run.
    cbn [no_upload params_id].
    destruct (planned_fault s); [|destruct (where_id _ _); [done|]];
      cbn; split_and!; try done; (intros p; split; [by split | by intros [? _]]).
  - rewrite rel_serve_replace_photo. unfold replace_photo. cbv zeta.
    unfold bind at 1. rewrite select_item_run, planned_fault_uploaded.
    assert ((if planned_fault s then None else where_id cfg (VStr (params_id req))) = None)
      as ->.
    { destruct (planned_fault s); [done|]. by destruct (where_id _ _). }
    unfold bind. rewrite discard_upload_run. cbn [fst snd].
    unfold upload_path. cbn [Store.takes_upload].
    destruct (table_discarded_uploaded req s) as (Hr & Hs & Hf).
    split_and!; try done.
    + apply files_discarded_uploaded.
    + cbn. by destruct (req_file req).
  - cbn [serve]. unfold delete. cbv zeta. unfold bind at 1. rewrite select_item_run.
    cbn [no_upload params_id].
    destruct (planned_fault s); [|destruct (where_id _ _); [done|]];
      cbn; split_and!; try done; (intros p; split; [by split | by intros [? _]]).
  - cbn [serve]. unfold search. cbv zeta. unfold bind at 1. rewrite select_item_run.
    cbn [no_upload req_body].
    destruct (planned_fault s); [|destruct (where_id _ _); [done|]];
      cbn; split_and!; try done; (intros p; split; [by split | by intros [? _]]).
Qed.

(** *** The second query fails *)

Lemma planned_fault_files f s : planned_fault (with_files f s) = planned_fault s.
Proof. reflexivity. Qed.

Lemma rel_drop_photo_table o s :
  rows (drop_photo o s).1 = rows s ∧ serial (drop_photo o s).1 = serial s ∧
  faults (drop_photo o s).1 = faults s.
Proof. destruct (rel_drop_photo_store cfg o s) as [f ->]. done. Qed.

Lemma rel_files_drop_photo o s p : p ∈ files (drop_photo o s).1 → p ∈ files s.
Proof.
  unfold Rel.drop_photo. destruct (truthy _); [|done]. cbv zeta.
  destruct (bool_decide _); [|done]. cbn. by intros [? _]%elem_of_difference.
Qed.

Lemma rel_files_drop_photo_gone (r0 : row) f0 s :
  photo r0 = Some f0 → f0 ≠ "" →
  path_join (CACHE cfg) f0 ∉ files (drop_photo (row_obj r0) s).1.
Proof.
  intros Hp Hne. unfold Rel.drop_photo, row_obj. cbn [get_prop String.eqb Ascii.eqb].
  cbn. rewrite Hp. cbn.
  destruct (String.eqb_spec f0 ""); [done|]. cbn.
  destruct (bool_decide _) eqn:Hd; cbn.
  - intros [_ Hn]%elem_of_difference. apply Hn. by apply elem_of_singleton.
  - by apply bool_decide_eq_false in Hd.
Qed.

(** [replace_photo] once the SELECT has found the row. *)
Lemma rel_replace_photo_found req s sel r0 :
  (if planned_fault s then None else where_id cfg (VStr (params_id req))) = Some sel →
  head (List.filter sel (rows s)) = Some r0 →
  replace_photo cfg req s =
  let s1 := (drop_photo (row_obj r0) (spent s)).1 in
  let newp := match req_file req with Some f => VStr f | None => VNull end in
  if planned_fault s1
  then ({| status := 500; content := ErrorMessage |}, discarded req (spent s1),
        Sql (SelectById (VStr (params_id req))) true ::
        (drop_photo (row_obj r0) (spent s)).2 ++
        Sql (UpdatePhoto newp (VStr (params_id req))) false ::
        match req_file req with
        | Some f => [Unlink (path_join (CACHE cfg) f)]
        | None => []
        end)
  else ({| status := 200;
           content := Json (JObject (to_json (formatItemResponse
                               (set_prop (row_obj r0) "photo" newp)))) |},
        with_table
          (List.map (λ r, if sel r then
             {| id := id r; inventory_name := inventory_name r;
                description := description r; photo := param newp |} else r) (rows s))
          (serial s) (spent s1),
        Sql (SelectById (VStr (params_id req))) true ::
        (drop_photo (row_obj r0) (spent s)).2 ++
        [Sql (UpdatePhoto newp (VStr (params_id req))) true]).
Proof.
  intros Hsel Hr0. unfold replace_photo. cbv zeta.
  unfold bind at 1. rewrite select_item_run, Hsel, Hr0.
  cbn [fmap option_fmap option_map].
  unfold bind at 1. rewrite rel_drop_photo_run.
  unfold bind at 1. rewrite pool_query_run.
  assert (where_id cfg (VStr (params_id req)) = Some sel) as Hw.
  { by destruct (planned_fault s). }
  destruct (rel_drop_photo_table (row_obj r0) (spent s)) as (Hrw & Hsr & Hft).
  rewrite get_set_prop_eq.
  destruct (planned_fault (drop_photo (row_obj r0) (spent s)).1) eqn:Hpf.
  - cbv beta iota. unfold bind. rewrite discard_upload_run.
    unfold server_error, send, ret. cbv beta iota. cbn [app]. by rewrite ?app_nil_r.
  - cbn [exec]. rewrite Hw. cbv beta iota.
    change (rows (spent ?x)) with (rows x) in *.
    change (serial (spent ?x)) with (serial x) in *. rewrite Hrw, Hsr.
    unfold json_obj, send, ret. cbv beta iota. cbn [app]. by rewrite ?app_nil_r.
Qed.

(** [delete] once the SELECT has found the row. *)
Lemma rel_delete_found req s sel r0 :
  (if planned_fault s then None else where_id cfg (VStr (params_id req))) = Some sel →
  head (List.filter sel (rows s)) = Some r0 →
  delete cfg req s =
  let s1 := (drop_photo (row_obj r0) (spent s)).1 in
  if planned_fault s1
  then ({| status := 500; content := ErrorMessage |}, spent s1,
        Sql (SelectById (VStr (params_id req))) true ::
        (drop_photo (row_obj r0) (spent s)).2 ++
        [Sql (DeleteById (VStr (params_id req))) false])
  else ({| status := 200; content := Empty |},
        with_table (List.filter (λ r, negb (sel r)) (rows s)) (serial s) (spent s1),
        Sql (SelectById (VStr (params_id req))) true ::
        (drop_photo (row_obj r0) (spent s)).2 ++
        [Sql (DeleteById (VStr (params_id req))) true]).
Proof.
  intros Hsel Hr0. unfold delete. cbv zeta.
  unfold bind at 1. rewrite select_item_run, Hsel, Hr0.
  cbn [fmap option_fmap option_map].
  unfold bind at 1. rewrite rel_drop_photo_run.
  unfold bind at 1. rewrite pool_query_run.
  assert (where_id cfg (VStr (params_id req)) = Some sel) as Hw.
  { by destruct (planned_fault s). }
  destruct (rel_drop_photo_table (row_obj r0) (spent s)) as (Hrw & Hsr & Hft).
  destruct (planned_fault (drop_photo (row_obj r0) (spent s)).1) eqn:Hpf.
  - unfold server_error, send, ret. cbv beta iota. cbn [app]. by rewrite ?app_nil_r.
  - cbn [exec]. rewrite Hw. cbv beta iota.
    change (rows (spent ?x)) with (rows x) in *.
    change (serial (spent ?x)) with (serial x) in *. rewrite Hrw, Hsr.
    unfold send, ret. cbv beta iota. cbn [app]. by rewrite ?app_nil_r.
Qed.

(** *** New files and the rows that reference them *)

Lemma rel_elem_of_referenced s p :
  p ∈ referenced s ↔ ∃ r, r ∈ rows s ∧ path_join (CACHE cfg) <$> photo r = Some p.
Proof. unfold Faults.referenced. rewrite list_elem_of_omap. naive_solver. Qed.

Lemma rel_files_uploaded req s p :
  p ∈ files (uploaded req s) ↔
  p ∈ files s ∨ path_join (CACHE cfg) <$> req_file req = Some p.
Proof.
  unfold Rel.uploaded. destruct (req_file req) as [f|]; cbn.
  - rewrite elem_of_union, elem_of_singleton. split.
    + intros [->|?]; [by right | by left].
    + intros [?|[= <-]]; [by right | by left].
  - split; [by left | by intros [?|?]].
Qed.

Lemma rel_files_discarded req s p :
  p ∈ files (discarded req s) ↔
  p ∈ files s ∧ path_join (CACHE cfg) <$> req_file req ≠ Some p.
Proof.
  unfold Faults.discarded. destruct (req_file req) as [f|]; cbn.
  - rewrite elem_of_difference, elem_of_singleton. split.
    + intros [? Hne]. split; [done|]. by intros [= <-].
    + intros [? Hne]. split; [done|]. by intros ->.
  - split; [by split | by intros [? _]].
Qed.

Lemma rel_new_files_referenced r req s p :
  p ∈ files (serve cfg r req s).1.2 →
  p ∈ files s ∨ p ∈ referenced (serve cfg r req s).1.2.
Proof.
  destruct r.
  - (* register *)
    rewrite rel_serve_register.
    destruct (register cfg req (uploaded req s)) as [[resp s'] t] eqn:E. cbn [fst snd].
    unfold register in E. destruct (negb (truthy _)) eqn:Hn.
    + unfold bind in E. rewrite discard_upload_run in E. cbn [fst snd] in E.
      injection E as <- <- <-.
      intros [Hp Hne]%rel_files_discarded. apply rel_files_uploaded in Hp as [?|?]; by left.
    + unfold bind at 1 in E. rewrite pool_query_run, planned_fault_uploaded in E.
      destruct (planned_fault s).
      * unfold bind in E. rewrite discard_upload_run in E. cbn [fst snd] in E.
        injection E as <- <- <-.
        intros [Hp Hne]%rel_files_discarded.
        change (files (spent (uploaded req s))) with (files (uploaded req s)) in Hp.
        apply rel_files_uploaded in Hp as [?|?]; by left.
      * cbn [exec fst snd json_obj send ret] in E. injection E as <- <- <-.
        change (files (with_table ?r ?n (spent (uploaded req s))))
          with (files (uploaded req s)).
        intros [?|Hp]%rel_files_uploaded; [by left|right].
        apply rel_elem_of_referenced. eexists. split.
        -- cbn [rows with_table]. apply elem_of_app. right. by apply list_elem_of_singleton.
        -- cbn [photo]. by destruct (req_file req).
  - pose proof (rel_reads_only GetInventory req s eq_refl) as H.
    destruct (serve _ _ _ _) as [[? s'] ?]. destruct H as [H _]. cbn [fst snd].
    specialize (H []). apply (f_equal files) in H. cbn in H. rewrite H. by left.
  - pose proof (rel_reads_only GetInventoryId req s eq_refl) as H.
    destruct (serve _ _ _ _) as [[? s'] ?]. destruct H as [H _]. cbn [fst snd].
    specialize (H []). apply (f_equal files) in H. cbn in H. rewrite H. by left.
  - (* update *)
    cbn [serve].
    destruct (update cfg (no_upload req) s) as [[resp s'] t] eqn:E. cbn [fst snd].
    assert (files s' = files s) as ->; [|by left].
    unfold update in E. cbv zeta in E. unfold bind at 1 in E. rewrite select_item_run in E.
    destruct (if planned_fault s then None else _) as [sel|];
      [|by injection E as <- <- <-].
    destruct (head _) as [r0|]; cbn [fmap option_fmap option_map] in E;
      [|by injection E as <- <- <-].
    unfold bind in E. rewrite pool_query_run in E.
    destruct (planned_fault (spent s)); [by injection E as <- <- <-|]. cbn [exec] in E.
    destruct (where_id _ _); by injection E as <- <- <-.
  - pose proof (rel_reads_only GetInventoryIdPhoto req s eq_refl) as H.
    destruct (serve _ _ _ _) as [[? s'] ?]. destruct H as [H _]. cbn [fst snd].
    specialize (H []). apply (f_equal files) in H. cbn in H. rewrite H. by left.
  - (* replace_photo *)
    rewrite rel_serve_replace_photo.
    destruct (if planned_fault (uploaded req s) then None
              else where_id cfg (VStr (params_id req))) as [sel|] eqn:Hsel.
    + destruct (head (List.filter sel (rows (uploaded req s)))) as [r0|] eqn:Hr0.
      * rewrite (rel_replace_photo_found req _ sel r0) by done. cbv zeta.
        destruct (planned_fault (drop_photo (row_obj r0) (spent (uploaded req s))).1);
          cbn [fst snd].
        -- intros [Hp Hne]%rel_files_discarded.
           change (files (spent ?x)) with (files x) in Hp.
           apply rel_files_drop_photo in Hp.
           change (files (spent ?x)) with (files x) in Hp.
           apply rel_files_uploaded in Hp as [?|?]; by left.
        -- change (files (with_table ?r ?n (spent ?x))) with (files x).
           intros Hp%rel_files_drop_photo.
           change (files (spent ?x)) with (files x) in Hp.
           apply rel_files_uploaded in Hp as [?|Hp]; [by left|right].
           apply rel_elem_of_referenced.
           assert (r0 ∈ rows (uploaded req s) ∧ sel r0 = true) as [Hin Hs].
           { by apply head_filter_Some in Hr0. }
           eexists. split.
           ++ cbn [rows with_table]. apply list_elem_of_In, in_map_iff.
              exists r0. split; [reflexivity | by apply list_elem_of_In].
           ++ rewrite Hs. cbn [photo]. by destruct (req_file req).
      * destruct (replace_photo cfg req (uploaded req s)) as [[resp s'] t] eqn:E.
        cbn [fst snd]. unfold replace_photo in E. cbv zeta in E. unfold bind at 1 in E.
        rewrite select_item_run, Hsel, Hr0 in E. cbn [fmap option_fmap option_map] in E.
        unfold bind in E. rewrite discard_upload_run in E. cbn [fst snd] in E.
        injection E as <- <- <-.
        intros [Hp Hne]%rel_files_discarded.
        change (files (spent ?x)) with (files x) in Hp.
        apply rel_files_uploaded in Hp as [?|?]; by left.
    + destruct (replace_photo cfg req (uploaded req s)) as [[resp s'] t] eqn:E.
      cbn [fst snd]. unfold replace_photo in E. cbv zeta in E. unfold bind at 1 in E.
      rewrite select_item_run, Hsel in E.
      unfold bind in E. rewrite discard_upload_run in E. cbn [fst snd] in E.
      injection E as <- <- <-.
      intros [Hp Hne]%rel_files_discarded.
      change (files (spent ?x)) with (files x) in Hp.
      apply rel_files_uploaded in Hp as [?|?]; by left.
  - (* delete *)
    cbn [serve].
    destruct (if planned_fault s then None
              else where_id cfg (VStr (params_id req))) as [sel|] eqn:Hsel.
    + destruct (head (List.filter sel (rows s))) as [r0|] eqn:Hr0.
      * rewrite (rel_delete_found (no_upload req) _ sel r0) by done. cbv zeta.
        destruct (planned_fault (drop_photo (row_obj r0) (spent s)).1); cbn [fst snd].
        -- change (files (spent ?x)) with (files x).
           intros Hp%rel_files_drop_photo. by left.
        -- change (files (with_table ?r ?n (spent ?x))) with (files x).
           intros Hp%rel_files_drop_photo. by left.
      * destruct (delete cfg (no_upload req) s) as [[resp s'] t] eqn:E.
        cbn [fst snd]. unfold delete in E. cbv zeta in E. unfold bind at 1 in E.
        rewrite select_item_run in E. cbn [no_upload params_id] in E.
        rewrite Hsel, Hr0 in E. injection E as <- <- <-. by left.
    + destruct (delete cfg (no_upload req) s) as [[resp s'] t] eqn:E.
      cbn [fst snd]. unfold delete in E. cbv zeta in E. unfold bind at 1 in E.
      rewrite select_item_run in E. cbn [no_upload params_id] in E.
      rewrite Hsel in E. injection E as <- <- <-. by left.
  - pose proof (rel_reads_only PostSearch req s eq_refl) as H.
    destruct (serve _ _ _ _) as [[? s'] ?]. destruct H as [H _]. cbn [fst snd].
    specialize (H []). apply (f_equal files) in H. cbn in H. rewrite H. by left.
Qed.

(** *** After a failed write *)

Lemma rel_get_photo_run req s k :
  faults s = [] → int_in cfg (params_id req) = Some k →
  (serve cfg GetInventoryIdPhoto req s).1.1 =
  match head (List.filter (λ r, id r =? k) (rows s)) with
  | Some r =>
      if decide (column (photo r) = VNull)
      then {| status := 404; content := Json (JString "Inventory has no photo") |}
      else
        let p := path_join (CACHE cfg) (to_string (column (photo r))) in
        if bool_decide (p ∈ files s)
        then sendFile cfg p (files s)
        else {| status := 404; content := Text "Photo not found" |}
  | None => {| status := 404; content := Json (JString "Inventory with this id not found") |}
  end.
Proof.
  intros Hf Hk. cbn [serve]. unfold get_photo. cbv zeta. unfold bind at 1.
  rewrite (select_item_ok cfg _ k) by done.
  destruct (head _) as [r|]; cbn [fmap option_fmap option_map]; [|done].
  change (get_prop (row_obj r) "photo") with (column (photo r)).
  destruct (decide _); [done|]. unfold bind, existsSync, gets. cbn [fst snd].
  by destruct (bool_decide _).
Qed.

Lemma rel_get_item_run req s k :
  faults s = [] → int_in cfg (params_id req) = Some k →
  (serve cfg GetInventoryId req s).1.1 =
  match head (List.filter (λ r, id r =? k) (rows s)) with
  | Some r =>
      {| status := 200;
         content := Json (JObject (to_json (formatItemResponse (row_obj r)))) |}
  | None => {| status := 404; content := Json (JString "Inventory with this id not found") |}
  end.
Proof.
  intros Hf Hk. cbn [serve]. unfold get_item. cbv zeta. unfold bind.
  rewrite (select_item_ok cfg _ k) by done.
  by destruct (head _) as [r|].
Qed.

Lemma where_id_text (i : string) k :
  int_in cfg i = Some k → where_id cfg (VStr i) = Some (λ r, id r =? k).
Proof. intros Hk. unfold where_id, param. cbn [to_string]. by rewrite Hk. Qed.

Lemma rel_unlinks_cons_sql q ok t : unlinks (Sql q ok :: t) = unlinks t.
Proof. reflexivity. Qed.

Lemma rel_failed_photo_update req q s k r0 f0 :
  faults s = [false; true] → int_in cfg (params_id req) = Some k →
  head (List.filter (λ r, id r =? k) (rows s)) = Some r0 →
  photo r0 = Some f0 → f0 ≠ "" → path_join (CACHE cfg) f0 ∈ files s →
  (∀ f, req_file req = Some f → path_join (CACHE cfg) f ∉ files s) →
  params_id q = params_id req →
  let '(resp, s', t) := serve cfg PutInventoryIdPhoto req s in
  resp = {| status := 500; content := ErrorMessage |} ∧
  rows s' = rows s ∧ serial s' = serial s ∧ faults s' = [] ∧
  (path_join (CACHE cfg) f0 ∉ files s') ∧
  (∀ f, req_file req = Some f → path_join (CACHE cfg) f ∉ files s') ∧
  unlinks t = (path_join (CACHE cfg) f0 ::
               match req_file req with
               | Some f => [path_join (CACHE cfg) f]
               | None => []
               end) ∧
  (serve cfg GetInventoryIdPhoto q s').1.1 =
    {| status := 404; content := Text "Photo not found" |}.
Proof.
  intros Hf Hk Hr0 Hp Hne Hon Hfresh Hq. rewrite rel_serve_replace_photo.
  assert (faults (uploaded req s) = [false; true]) as Hfu.
  { unfold Rel.uploaded. by destruct (req_file req). }
  assert (rows (uploaded req s) = rows s) as Hru.
  { unfold Rel.uploaded. by destruct (req_file req). }
  assert (serial (uploaded req s) = serial s) as Hsu.
  { unfold Rel.uploaded. by destruct (req_file req). }
  rewrite (rel_replace_photo_found req _ (λ r, id r =? k) r0).
  2:{ unfold planned_fault. rewrite Hfu. by apply where_id_text. }
  2:{ by rewrite Hru. }
  cbv zeta.
  destruct (rel_drop_photo_table (row_obj r0) (spent (uploaded req s))) as (Hrw & Hsr & Hft).
  assert (planned_fault (drop_photo (row_obj r0) (spent (uploaded req s))).1 = true) as ->.
  { unfold planned_fault. rewrite Hft. unfold spent. cbn [faults with_faults].
    by rewrite Hfu. }
  assert (path_join (CACHE cfg) f0
            ∉ files (discarded req (spent (drop_photo (row_obj r0)
                                             (spent (uploaded req s))).1))) as Hgone.
  { intros [Hin _]%rel_files_discarded. change (files (spent ?x)) with (files x) in Hin.
    by apply (rel_files_drop_photo_gone r0 f0) in Hin. }
  assert (rows (discarded req (spent (drop_photo (row_obj r0)
                                        (spent (uploaded req s))).1)) = rows s) as Hrows.
  { unfold Faults.discarded. destruct (req_file req); cbn [rows with_files spent with_faults];
      by rewrite Hrw. }
  assert (faults (discarded req (spent (drop_photo (row_obj r0)
                                          (spent (uploaded req s))).1)) = []) as Hfl.
  { unfold Faults.discarded.
    destruct (req_file req); cbn [faults with_files spent with_faults];
      rewrite Hft; cbn [faults spent with_faults]; by rewrite Hfu. }
  split_and!; try done.
  - unfold Faults.discarded. destruct (req_file req); cbn [serial with_files spent with_faults];
      by rewrite Hsr.
  - intros f Hrf [_ Hn]%rel_files_discarded. apply Hn. by rewrite Hrf.
  - rewrite rel_unlinks_cons_sql, unlinks_app, rel_unlinks_drop_photo.
    change (get_prop (row_obj r0) "photo") with (column (photo r0)). rewrite Hp.
    cbn [column truthy to_string]. destruct (String.eqb_spec f0 ""); [done|]. cbn [negb andb].
    rewrite bool_decide_eq_true_2.
    2:{ change (files (spent ?x)) with (files x). apply rel_files_uploaded. by left. }
    rewrite rel_unlinks_cons_sql. by destruct (req_file req).
  - rewrite (rel_get_photo_run q _ k) by (by rewrite ?Hq).
    rewrite Hrows, Hr0, Hp. cbn [column to_string]. rewrite decide_False by done.
    cbv zeta. by rewrite bool_decide_eq_false_2.
Qed.

Lemma rel_failed_delete req q s k r0 :
  faults s = [false; true] → int_in cfg (params_id req) = Some k →
  head (List.filter (λ r, id r =? k) (rows s)) = Some r0 →
  params_id q = params_id req →
  let '(resp, s', t) := serve cfg DeleteInventoryId req s in
  resp = {| status := 500; content := ErrorMessage |} ∧
  rows s' = rows s ∧ serial s' = serial s ∧ faults s' = [] ∧
  (∀ p, p ∈ files s' → p ∈ files s) ∧
  (∀ f0, photo r0 = Some f0 → f0 ≠ "" → path_join (CACHE cfg) f0 ∉ files s') ∧
  (serve cfg GetInventoryId q s').1.1 =
    {| status := 200;
       content := Json (JObject (to_json (formatItemResponse (row_obj r0)))) |} ∧
  (∀ f0, photo r0 = Some f0 → f0 ≠ "" →
         (serve cfg GetInventoryIdPhoto q s').1.1 =
           {| status := 404; content := Text "Photo not found" |}).
Proof.
  intros Hf Hk Hr0 Hq.
  change (serve cfg DeleteInventoryId req s) with (delete cfg (no_upload req) s).
  rewrite (rel_delete_found (no_upload req) _ (λ r, id r =? k) r0).
  2:{ unfold planned_fault. rewrite Hf. by apply where_id_text. }
  2:{ done. }
  cbv zeta.
  destruct (rel_drop_photo_table (row_obj r0) (spent s)) as (Hrw & Hsr & Hft).
  assert (planned_fault (drop_photo (row_obj r0) (spent s)).1 = true) as ->.
  { unfold planned_fault. rewrite Hft. unfold spent. cbn [faults with_faults].
    by rewrite Hf. }
  assert (faults (spent (drop_photo (row_obj r0) (spent s)).1) = []) as Hfl.
  { unfold spent at 1. cbn [faults with_faults]. rewrite Hft. unfold spent.
    cbn [faults with_faults]. by rewrite Hf. }
  assert (rows (spent (drop_photo (row_obj r0) (spent s)).1) = rows s) as Hrows.
  { change (rows (spent ?x)) with (rows x). by rewrite Hrw. }
  assert (∀ f0, photo r0 = Some f0 → f0 ≠ "" →
            path_join (CACHE cfg) f0 ∉ files (spent (drop_photo (row_obj r0) (spent s)).1))
    as Hgone.
  { intros f0 Hp Hne. change (files (spent ?x)) with (files x).
    by apply rel_files_drop_photo_gone. }
  split_and!; try done.
  - intros p. change (files (spent ?x)) with (files x). apply rel_files_drop_photo.
  - rewrite (rel_get_item_run q _ k) by (by rewrite ?Hq). by rewrite Hrows, Hr0.
  - intros f0 Hp Hne. rewrite (rel_get_photo_run q _ k) by (by rewrite ?Hq).
    rewrite Hrows, Hr0, Hp. cbn [column to_string]. rewrite decide_False by done.
    cbv zeta. rewrite bool_decide_eq_false_2; [done|]. by apply Hgone.
Qed.

Lemma rel_failed_update req q s k r0 :
  faults s = [false; true] → int_in cfg (params_id req) = Some k →
  head (List.filter (λ r, id r =? k) (rows s)) = Some r0 →
  params_id q = params_id req →
  let '(resp, s', t) := serve cfg PutInventoryId req s in
  resp = {| status := 500; content := ErrorMessage |} ∧
  rows s' = rows s ∧ serial s' = serial s ∧ faults s' = [] ∧ files s' = files s ∧
  unlinks t = [] ∧
  (serve cfg GetInventoryId q s').1.1 =
    {| status := 200;
       content := Json (JObject (to_json (formatItemResponse (row_obj r0)))) |}.
Proof.
  intros Hf Hk Hr0 Hq.
  change (serve cfg PutInventoryId req s) with (update cfg (no_upload req) s).
  unfold update. cbv zeta. unfold bind at 1. rewrite select_item_run.
  cbn [no_upload params_id req_body].
  assert (planned_fault s = false) as -> by (unfold planned_fault; by rewrite Hf).
  rewrite (where_id_text _ k Hk), Hr0. cbn [fmap option_fmap option_map].
  unfold bind. rewrite pool_query_run.
  assert (planned_fault (spent s) = true) as ->.
  { unfold planned_fault, spent. cbn [faults with_faults]. by rewrite Hf. }
  unfold server_error, send, ret. cbn [fst snd app].
  assert (faults (spent (spent s)) = []) as Hfl.
  { unfold spent. cbn [faults with_faults]. by rewrite Hf. }
  split_and!; try done.
  rewrite (rel_get_item_run q _ k) by (by rewrite ?Hq).
  change (rows (spent (spent s))) with (rows s). by rewrite Hr0.
Qed.

End RelFaults.

(** ** Further properties of the handlers *)

Section Further.
Import Flat FlatRun Store.

(** X1.  Register, then get.  In the flat-file variant, after any history
    that keeps the counter below 2^53, a registration with a name answers
    200 with the id read from [nextId], and [GET /inventory/<that id>],
    asked right after, answers with the very same body. *)
Theorem registered_item_is_retrievable (cfg : config) (ops : list op) (req q : request) :
  let s := run cfg ops init in
  let r := (serve cfg PostRegister req s).1.1 in
  inv_nextId s < 2 ^ 53 →
  truthy (get_prop (req_body req) "inventory_name") = true →
  params_id q = to_string (body_id r) →
  status r = 200 ∧ body_id r = VNum (inv_nextId s) ∧
  (serve cfg GetInventoryId q (serve cfg PostRegister req s).1.2).1.1 = r.
Proof.
  intros s r Hb Hn Hq.
  destruct (register_then_get cfg req q s (wf_run cfg ops init wf_init) Hb Hn Hq)
    as (H1 & H2 & _ & H3).
  done.
Qed.

(** X2.  The list and the single items agree.  After any history that keeps
    the counter below 2^53, [GET /inventory] answers 200 with one entry per
    stored item, in list order, and [GET /inventory/<id>] for the id of any
    entry answers 200 with exactly that entry. *)
Theorem inventory_list_agrees_with_get (cfg : config) (ops : list op) (req : request) :
  let s := run cfg ops init in
  inv_nextId s < 2 ^ 53 →
  ∃ bodies,
    (serve cfg GetInventory req s).1.1 =
      {| status := 200; content := Json (JArray bodies) |} ∧
    (λ o, get_prop o "id") <$> bodies = stored_ids s ∧
    ∀ o q, o ∈ bodies → params_id q = to_string (get_prop o "id") →
           (serve cfg GetInventoryId q s).1.1 =
             {| status := 200; content := Json (JObject o) |}.
Proof.
  intros s Hb. apply list_then_get; [apply wf_run, wf_init | done].
Qed.

(** X3.  The reading routes ([GET /inventory], [GET /inventory/:id],
    [GET /inventory/:id/photo], [POST /search]) change nothing.  Flat-file
    store: no outside effect; list, counter, file, uploads and every stored
    object as before.  Relational store: table and files as before, and the
    one statement issued is the route's SELECT, whether it succeeds or
    not. *)
Theorem reading_routes_change_nothing
    (cfg : config) (ops : list op) (r : route) (req : request)
    (rcfg : Rel.config) (rs : Rel.state) :
  let s := run cfg ops init in
  reads_only r = true →
  (let '(_, s', t) := serve cfg r req s in
   t = [] ∧ inv_list s' = inv_list s ∧ inv_nextId s' = inv_nextId s ∧
   dbFile s' = dbFile s ∧ files s' = files s ∧
   ∀ l, l ∈ inv_list s → deref s' l = deref s l) ∧
  (let '(_, rs', t) := Rel.serve rcfg r req rs in
   (∀ f, Rel.with_faults f rs' = Rel.with_faults f rs) ∧ unlinks t = [] ∧
   ∃ ok, t = [Sql (Faults.first_query r req) ok]).
Proof.
  intros s Hr. split.
  - apply flat_reads_only; [apply wf_run, wf_init | done].
  - by apply rel_reads_only.
Qed.

(** X4.  Text stays text.  Over any history of requests and restarts in
    which every request sends its name and its description as strings, or
    not at all, every item the flat-file store holds is an object
    [{ id, inventory_name, description, photo }] with a number for id,
    strings for name and description, and [null] or a file name for photo;
    [JSON.stringify] writes each of its properties as it is.  (A JSON body
    may carry numbers that do not come back from the file as they went in;
    the hypothesis keeps to what a form sends.) *)
Theorem stored_items_keep_their_shape (cfg : config) (ops : list op) :
  let s := run cfg ops init in
  textual_history ops = true →
  Forall (λ l, text_shaped (deref s l) = true ∧ to_json (deref s l) = deref s l)
         (inv_list s).
Proof.
  intros s Ht. apply Forall_forall. intros l Hl.
  assert (text_shaped (deref s l) = true) as H.
  { by apply (text_shaped_all_run cfg ops init wf_init Ht text_shaped_all_init). }
  split; [done | by apply shaped_to_json, text_shaped_shaped].
Qed.

(** X5.  A restart loses nothing of what was sent as text.  After any
    history in which every request sends its name and its description as
    strings, or not at all, parsing inventory.json gives back the items that
    were in memory, in order, and the counter; the file and the uploads are
    untouched; and every reading route answers after the restart as it did
    before. *)
Theorem restart_keeps_the_inventory (cfg : config) (ops : list op) :
  let s := run cfg ops init in
  textual_history ops = true →
  deref (restart s) <$> inv_list (restart s) = deref s <$> inv_list s ∧
  inv_nextId (restart s) = inv_nextId s ∧
  dbFile (restart s) = dbFile s ∧ files (restart s) = files s ∧
  ∀ r req, reads_only r = true →
           (serve cfg r req (restart s)).1.1 = (serve cfg r req s).1.1.
Proof.
  intros s Ht.
  pose proof (wf_run cfg ops init wf_init) as W. fold s in W.
  pose proof (text_shaped_all_run cfg ops init wf_init Ht text_shaped_all_init) as Hs.
  fold s in Hs. apply text_shaped_all_shaped in Hs.
  pose proof (restart_items s W Hs) as Hi.
  split_and!; try done.
  - unfold restart. cbn [inv_nextId]. by rewrite (wf_disk s W).
  - intros r req Hr. apply reads_from_items; try done. by apply wf_restart.
Qed.

(** X6.  No photo reference dangles.  After any history in which multer
    gave every upload a name no file in the uploads directory bore, every
    photo reference of a stored item names a file that is on disk; so
    [GET /inventory/:id/photo] answers not-found for an unknown id, "has no
    photo" for an item without one, and otherwise hands the item's file to
    [res.sendFile] -- never "Photo not found".  What Express then answers
    is its own: it looks the path up under [__dirname]. *)
Theorem referenced_photos_are_on_disk (cfg : config) (ops : list op) (req : request) :
  let s := run cfg ops init in
  fresh_uploads cfg ops init = true →
  Forall (λ p, p ∈ files s) (referenced cfg s) ∧
  (serve cfg GetInventoryIdPhoto req s).1.1 =
    match found (Number (params_id req)) s with
    | None => absent
    | Some item =>
        match photo_file cfg (deref s item) with
        | Some p => sendFile cfg p (files s)
        | None => {| status := 404; content := Json (JString "Inventory has no photo") |}
        end
    end.
Proof.
  intros s Hfr.
  pose proof (shaped_all_run cfg ops init wf_init shaped_all_init) as Hs. fold s in Hs.
  pose proof (photos_kept_run cfg ops init wf_init shaped_all_init
                (photos_kept_init cfg) Hfr) as K. fold s in K.
  split.
  - apply Forall_forall. intros p (l & Hl & Hp)%elem_of_referenced.
    by apply (proj1 K l).
  - cbn [serve]. by rewrite get_photo_kept.
Qed.

(** X7.  The photo sent with a registration is the one handed to
    [res.sendFile].  After any history that keeps the counter below 2^53, a
    registration with a name and a photo answers with the photo URL
    [http://host:port/inventory/<id>/photo]; the uploaded file is then on
    disk, and [GET /inventory/<id>/photo] passes both of its checks and
    answers with whatever [res.sendFile] makes of that file's path. *)
Theorem uploaded_photo_is_handed_to_sendFile
    (cfg : config) (ops : list op) (req q : request) (f : string) :
  let s := run cfg ops init in
  let r := (serve cfg PostRegister req s).1.1 in
  let s' := (serve cfg PostRegister req s).1.2 in
  inv_nextId s < 2 ^ 53 →
  truthy (get_prop (req_body req) "inventory_name") = true →
  req_file req = Some f → f ≠ "" →
  params_id q = to_string (body_id r) →
  Order.body_prop r "photo" =
    VStr ("http://" +:+ host cfg +:+ ":" +:+ port cfg +:+ "/inventory/"
          +:+ params_id q +:+ "/photo") ∧
  path_join (uploadsPath cfg) f ∈ files s' ∧
  (serve cfg GetInventoryIdPhoto q s').1.1 =
    sendFile cfg (path_join (uploadsPath cfg) f) (files s').
Proof.
  intros s r s' Hb Hn Hrf Hne Hq.
  pose proof (wf_run cfg ops init wf_init) as W. fold s in W.
  destruct (register_then_get cfg req q s W Hb Hn Hq) as (_ & Hid & Hf & _).
  fold r in Hid. rewrite Hid in Hq. cbn [to_string] in Hq.
  destruct (serve_effect cfg PostRegister req s W) as [_ (_ & _ & _ & _ & Hfiles)].
  fold s' in Hfiles. cbn [Store.effect] in Hfiles. rewrite Hn in Hfiles.
  change (files (registered req (uploaded cfg req s)))
    with (files (uploaded cfg req s)) in Hfiles.
  assert (path_join (uploadsPath cfg) f ∈ files (uploaded cfg req s)) as Hin.
  { rewrite files_after_upload, Hrf.
    apply elem_of_union. left. by apply elem_of_singleton. }
  split_and!; [|by rewrite Hfiles|].
  - unfold r. rewrite register_photo_url by done. rewrite Hrf, Hq.
    by destruct (String.eqb_spec f "").
  - rewrite Hfiles. unfold s'. rewrite reads_after by done.
    cbn [Store.effect serve]. rewrite Hn.
    rewrite get_photo_run. cbn [fst no_upload params_id]. rewrite Hf.
    rewrite <- (heap_uploaded cfg req s), deref_registered_new.
    unfold new_item. cbn [get_prop String.eqb Ascii.eqb Bool.eqb]. rewrite Hrf.
    rewrite decide_False by done. cbn [to_string]. cbv zeta.
    change (files (registered req (uploaded cfg req s))) with (files (uploaded cfg req s)).
    by rewrite bool_decide_eq_true_2.
Qed.

(** X8.  No request but a rejected registration leaves an upload behind
    unreferenced.  After any history, every file that is in the uploads
    directory once a request has been served was there before, or is
    referenced by a stored item -- unless the request is a registration that
    [register] turned down with 400. *)
Theorem uploads_end_up_referenced
    (cfg : config) (ops : list op) (r : route) (req : request) (p : string) :
  let s := run cfg ops init in
  let s' := (serve cfg r req s).1.2 in
  rejected r req = false →
  p ∈ files s' → p ∈ files s ∨ p ∈ referenced cfg s'.
Proof.
  intros s s' Hrej.
  pose proof (wf_run cfg ops init wf_init) as W. fold s in W.
  pose proof (shaped_all_run cfg ops init wf_init shaped_all_init) as Hs. fold s in Hs.
  destruct (serve_effect cfg r req s W) as [We E]. fold s' in E.
  destruct E as (Hh & Hn & Hl & Hd & Hf). rewrite Hf.
  intros [?|Hp]%new_files_referenced; try done; [by left | right].
  eapply referenced_extends; [exact We | | exact Hp]. by split.
Qed.

(** X9.  [PUT /inventory/:id] on an item it finds changes the name and the
    description of that item and nothing else: a field that is absent or
    [null] keeps its value, every other property and every other item is as
    before, no file is unlinked, inventory.json is rewritten with the
    result, and [GET /inventory/:id] then answers what the update
    answered. *)
Theorem update_changes_name_and_description_only
    (cfg : config) (ops : list op) (req q : request) (item : loc) :
  let s := run cfg ops init in
  let r := (serve cfg PutInventoryId req s).1.1 in
  let s' := (serve cfg PutInventoryId req s).1.2 in
  found (Number (params_id req)) s = Some item →
  params_id q = params_id req →
  status r = 200 ∧ unlinks (serve cfg PutInventoryId req s).2 = [] ∧
  inv_list s' = inv_list s ∧ inv_nextId s' = inv_nextId s ∧ files s' = files s ∧
  dbFile s' = stringify s' ∧
  (∀ l, l ∈ inv_list s → l ≠ item → deref s' l = deref s l) ∧
  get_prop (deref s' item) "inventory_name" =
    nullish_or (get_prop (req_body req) "inventory_name")
               (get_prop (deref s item) "inventory_name") ∧
  get_prop (deref s' item) "description" =
    nullish_or (get_prop (req_body req) "description")
               (get_prop (deref s item) "description") ∧
  (∀ k, k ≠ "inventory_name" → k ≠ "description" →
        get_prop (deref s' item) k = get_prop (deref s item) k) ∧
  (serve cfg GetInventoryId q s').1.1 = r.
Proof.
  intros s r s' Hf Hq.
  pose proof (wf_run cfg ops init wf_init) as W. fold s in W.
  destruct (update_then_get cfg req q s item W Hf Hq) as [Hrun Hget].
  unfold r, s'. rewrite Hrun in Hget |- *. cbn [fst snd] in Hget |- *.
  pose proof (wf_updated req item s W) as Wu.
  pose proof (wf_answered cfg _ item Wu) as Wa.
  assert (∀ l, l ∈ inv_list s →
            deref (answered cfg (updated req item s) item) l =
            if decide (l = item)
            then Contract.with_metadata (get_prop (req_body req) "inventory_name")
                   (get_prop (req_body req) "description") (deref s l)
            else deref s l) as Hd.
  { intros l Hl. rewrite (extends_deref (updated req item s)).
    - apply deref_updated. by apply (wf_locs s W).
    - apply extends_alloc.
    - by apply (wf_locs _ Wu). }
  assert (item ∈ inv_list s) as Hitem by (by eapply found_elem).
  destruct (with_metadata_props (get_prop (req_body req) "inventory_name")
              (get_prop (req_body req) "description") (deref s item)) as (P1 & P2 & P3).
  split_and!; try done.
  - apply (wf_disk _ Wa).
  - intros l Hl Hne. rewrite Hd by done. by rewrite decide_False.
  - rewrite Hd by done. by rewrite decide_True.
  - rewrite Hd by done. by rewrite decide_True.
  - intros k H1 H2. rewrite Hd by done. rewrite decide_True by done. by apply P3.
Qed.

(** X10.  [POST /search] reads the id the way [parseInt] does.  After any
    history that keeps the counter below 2^53, the item with id [k] is found
    by the number [k], by its decimal numeral, and by the numeral followed
    by anything that does not start with a digit ("1 saw", "1.5", "1abc" all
    find item 1); the answer is the item without its photo field, the
    description marked when has_photo is "on". *)
Theorem search_reads_leading_digits
    (cfg : config) (ops : list op) (req : request) (l : loc) (k : Z) (t : string) :
  let s := run cfg ops init in
  inv_nextId s < 2 ^ 53 →
  l ∈ inv_list s → item_id s l = VNum k → stops t = true →
  get_prop (req_body req) "id" = VStr (pretty k +:+ t) ∨
  get_prop (req_body req) "id" = VNum k →
  (serve cfg PostSearch req s).1.1 =
  {| status := 200;
     content := Json (JObject (to_json
       (search_view cfg (get_prop (req_body req) "has_photo") (deref s l)))) |}.
Proof.
  intros s Hb Hl Hk Ht Hid.
  by apply (search_numeral cfg req s l k t (wf_run cfg ops init wf_init)).
Qed.

(** X11.  After [PUT /inventory/:id/photo] on an item it finds, in a history
    where multer names every upload afresh: the new file is on disk and
    [GET /inventory/:id/photo] hands it to [res.sendFile], or answers "has
    no photo" when the request carried none; and the file of the old photo
    is gone from the uploads directory. *)
Theorem replaced_photo_is_handed_to_sendFile
    (cfg : config) (ops : list op) (req q : request) (item : loc) :
  let s := run cfg ops init in
  let s' := (serve cfg PutInventoryIdPhoto req s).1.2 in
  fresh_uploads cfg (ops ++ [Call PutInventoryIdPhoto req]) init = true →
  found (Number (params_id req)) s = Some item →
  params_id q = params_id req →
  (serve cfg GetInventoryIdPhoto q s').1.1 =
    match req_file req with
    | Some f => sendFile cfg (path_join (uploadsPath cfg) f) (files s')
    | None => {| status := 404; content := Json (JString "Inventory has no photo") |}
    end ∧
  (∀ f, req_file req = Some f → path_join (uploadsPath cfg) f ∈ files s') ∧
  (∀ p, photo_file cfg (deref s item) = Some p →
        truthy (get_prop (deref s item) "photo") = true → p ∉ files s').
Proof.
  intros s s' Hfr Hf Hq.
  rewrite fresh_uploads_app in Hfr. apply andb_true_iff in Hfr as [Hfr Hlast].
  pose proof (wf_run cfg ops init wf_init) as W. fold s in W.
  pose proof (shaped_all_run cfg ops init wf_init shaped_all_init) as Hs. fold s in Hs.
  pose proof (photos_kept_run cfg ops init wf_init shaped_all_init
                (photos_kept_init cfg) Hfr) as K. fold s in K.
  apply (replace_then_photo cfg req q s item); try done.
  intros p Hp. cbn [fresh_uploads] in Hlast. fold s in Hlast. rewrite Hp in Hlast.
  rewrite andb_true_r in Hlast. by apply bool_decide_eq_true in Hlast.
Qed.

(** X12.  [DELETE /inventory/:id] on an item it finds removes that item
    from the list and touches no other: the other items are the same
    objects in the same order, the counter is as before, inventory.json
    holds the result, and [GET /inventory/<any id>] answers not-found if the
    id denoted the deleted item and as it did before otherwise. *)
Theorem delete_leaves_the_other_items
    (cfg : config) (ops : list op) (req q : request) (item : loc) :
  let s := run cfg ops init in
  let s' := (serve cfg DeleteInventoryId req s).1.2 in
  inv_nextId s < 2 ^ 53 →
  found (Number (params_id req)) s = Some item →
  inv_list s' = List.filter (λ i, negb (i =? item)%nat) (inv_list s) ∧
  (∀ l, deref s' l = deref s l) ∧
  inv_nextId s' = inv_nextId s ∧ dbFile s' = stringify s' ∧
  (serve cfg GetInventoryId q s').1.1 =
    if decide (found (Number (params_id q)) s = Some item)
    then absent else (serve cfg GetInventoryId q s).1.1.
Proof.
  intros s s' Hb Hf.
  pose proof (wf_run cfg ops init wf_init) as W. fold s in W.
  destruct (delete_frame cfg req s item W Hb Hf) as (Hrun & Hgone & Hkept).
  unfold s'. rewrite Hrun. split_and!.
  - apply inv_list_deleted.
  - intros l. apply deref_deleted.
  - unfold FlatRun.deleted. cbv zeta. cbn [inv_nextId with_dbFile with_list].
    apply drop_photo_mem.
  - apply (wf_disk _ (wf_deleted cfg item s W)).
  - destruct (decide _); [by apply Hgone | by apply Hkept].
Qed.

(** X13.  Relational variant: when the first query of a request throws --
    the database fails, or does not read the id -- the handler answers 500
    with the error message, the table is as before, and the photo that came
    with the request, if any, has been unlinked again. *)
Theorem failed_query_answers_500
    (rcfg : Rel.config) (r : route) (req : request) (rs : Rel.state) :
  Faults.first_query_fails rcfg r req rs = true →
  rejected r req = false →
  let '(resp, rs', t) := Rel.serve rcfg r req rs in
  resp = {| status := 500; content := ErrorMessage |} ∧
  Rel.rows rs' = Rel.rows rs ∧ Rel.serial rs' = Rel.serial rs ∧
  Rel.faults rs' = tail (Rel.faults rs) ∧
  (∀ p, p ∈ Rel.files rs' ↔ p ∈ Rel.files rs ∧ Faults.upload_path rcfg r req ≠ Some p) ∧
  t = Sql (Faults.first_query r req) false ::
      match Faults.upload_path rcfg r req with
      | Some p => [Unlink p]
      | None => []
      end.
Proof. apply rel_first_query_fails. Qed.

(** X14.  Relational variant: when [PUT /inventory/:id/photo] finds the
    row, whose photo is on disk, and the UPDATE then throws, the handler
    answers 500 and the row is as before -- but the old photo has already
    been unlinked, and the new upload is unlinked too: the row now
    references a file that is gone, and [GET /inventory/:id/photo] answers
    "Photo not found". *)
Theorem failed_photo_update_loses_the_old_photo
    (rcfg : Rel.config) (req q : request) (rs : Rel.state) (k : Z)
    (r0 : Rel.row) (f0 : string) :
  Rel.faults rs = [false; true] →
  Rel.int_in rcfg (params_id req) = Some k →
  head (List.filter (λ r, Rel.id r =? k) (Rel.rows rs)) = Some r0 →
  Rel.photo r0 = Some f0 → f0 ≠ "" →
  path_join (Rel.CACHE rcfg) f0 ∈ Rel.files rs →
  (∀ f, req_file req = Some f → path_join (Rel.CACHE rcfg) f ∉ Rel.files rs) →
  params_id q = params_id req →
  let '(resp, rs', t) := Rel.serve rcfg PutInventoryIdPhoto req rs in
  resp = {| status := 500; content := ErrorMessage |} ∧
  Rel.rows rs' = Rel.rows rs ∧ Rel.serial rs' = Rel.serial rs ∧ Rel.faults rs' = [] ∧
  (path_join (Rel.CACHE rcfg) f0 ∉ Rel.files rs') ∧
  (∀ f, req_file req = Some f → path_join (Rel.CACHE rcfg) f ∉ Rel.files rs') ∧
  unlinks t = (path_join (Rel.CACHE rcfg) f0 ::
               match req_file req with
               | Some f => [path_join (Rel.CACHE rcfg) f]
               | None => []
               end) ∧
  (Rel.serve rcfg GetInventoryIdPhoto q rs').1.1 =
    {| status := 404; content := Text "Photo not found" |}.
Proof. apply rel_failed_photo_update. Qed.

(** X15.  Relational variant: when [DELETE /inventory/:id] finds the row and
    the DELETE then throws, the handler answers 500 and the row stays --
    [GET /inventory/:id] still shows the item -- but its photo, if it had
    one, has been unlinked, and [GET /inventory/:id/photo] answers "Photo
    not found". *)
Theorem failed_delete_keeps_the_record
    (rcfg : Rel.config) (req q : request) (rs : Rel.state) (k : Z) (r0 : Rel.row) :
  Rel.faults rs = [false; true] →
  Rel.int_in rcfg (params_id req) = Some k →
  head (List.filter (λ r, Rel.id r =? k) (Rel.rows rs)) = Some r0 →
  params_id q = params_id req →
  let '(resp, rs', t) := Rel.serve rcfg DeleteInventoryId req rs in
  resp = {| status := 500; content := ErrorMessage |} ∧
  Rel.rows rs' = Rel.rows rs ∧ Rel.serial rs' = Rel.serial rs ∧ Rel.faults rs' = [] ∧
  (∀ p, p ∈ Rel.files rs' → p ∈ Rel.files rs) ∧
  (∀ f0, Rel.photo r0 = Some f0 → f0 ≠ "" →
         path_join (Rel.CACHE rcfg) f0 ∉ Rel.files rs') ∧
  (Rel.serve rcfg GetInventoryId q rs').1.1 =
    {| status := 200;
       content := Json (JObject (to_json (Rel.formatItemResponse (Rel.row_obj r0)))) |} ∧
  (∀ f0, Rel.photo r0 = Some f0 → f0 ≠ "" →
         (Rel.serve rcfg GetInventoryIdPhoto q rs').1.1 =
           {| status := 404; content := Text "Photo not found" |}).
Proof. apply rel_failed_delete. Qed.

(** X16.  Relational variant: no request leaves an upload behind
    unreferenced, whatever queries fail.  Every file that is in the cache
    directory once a request has been served was there before, or is
    referenced by a row of the table. *)
Theorem rel_uploads_end_up_referenced
    (rcfg : Rel.config) (r : route) (req : request) (rs : Rel.state) :
  let rs' := (Rel.serve rcfg r req rs).1.2 in
  Forall (λ p, p ∈ Rel.files rs ∨ p ∈ Faults.referenced rcfg rs')
         (elements (Rel.files rs')).
Proof.
  intros rs'. apply Forall_forall. intros p Hp%elem_of_elements.
  by apply rel_new_files_referenced.
Qed.

(** X17.  [GET /inventory] lists the items in the order they were
    registered.  After any history that keeps the counter below 2^53, the
    ids of the entries it answers with are strictly ascending numbers.
    Deleting and restarting never reorder the list. *)
Theorem inventory_lists_in_registration_order
    (cfg : config) (ops : list op) (req : request) :
  let s := run cfg ops init in
  inv_nextId s < 2 ^ 53 →
  ∃ bodies,
    (serve cfg GetInventory req s).1.1 =
      {| status := 200; content := Json (JArray bodies) |} ∧
    (λ o, get_prop o "id") <$> bodies = VNum <$> id_numbers s ∧
    StronglySorted Z.lt (id_numbers s).
Proof.
  intros s Hb.
  pose proof (wf_run cfg ops init wf_init) as W. fold s in W.
  destruct (list_then_get cfg req s W Hb) as (bodies & H1 & H2 & _).
  exists bodies. split; [done|]. split.
  - rewrite H2. by apply id_numbers_stored.
  - apply (ascending_run cfg ops init wf_init shaped_all_init Hb).
    intros _. constructor.
Qed.

(** X18.  Relational variant: when [PUT /inventory/:id] finds the row and
    the UPDATE then throws, the handler answers 500 and nothing has changed:
    the table and the files are as before, nothing was unlinked, and
    [GET /inventory/:id] shows the item as it was. *)
Theorem failed_update_changes_nothing
    (rcfg : Rel.config) (req q : request) (rs : Rel.state) (k : Z) (r0 : Rel.row) :
  Rel.faults rs = [false; true] →
  Rel.int_in rcfg (params_id req) = Some k →
  head (List.filter (λ r, Rel.id r =? k) (Rel.rows rs)) = Some r0 →
  params_id q = params_id req →
  let '(resp, rs', t) := Rel.serve rcfg PutInventoryId req rs in
  resp = {| status := 500; content := ErrorMessage |} ∧
  Rel.rows rs' = Rel.rows rs ∧ Rel.serial rs' = Rel.serial rs ∧ Rel.faults rs' = [] ∧
  Rel.files rs' = Rel.files rs ∧ unlinks t = [] ∧
  (Rel.serve rcfg GetInventoryId q rs').1.1 =
    {| status := 200;
       content := Json (JObject (to_json (Rel.formatItemResponse (Rel.row_obj r0)))) |}.
Proof. apply rel_failed_update. Qed.

(** X19.  [PUT /inventory/:id] is idempotent.  After any history, sending
    the same update a second time answers exactly as the first time and
    leaves the items, the counter, inventory.json and the uploads as the
    first left them; neither call unlinks a file. *)
Theorem update_twice_is_update_once (cfg : config) (ops : list op) (req : request) :
  let s := run cfg ops init in
  let '(r1, s1, t1) := serve cfg PutInventoryId req s in
  let '(r2, s2, t2) := serve cfg PutInventoryId req s1 in
  r2 = r1 ∧ deref s2 <$> inv_list s2 = deref s1 <$> inv_list s1 ∧
  inv_nextId s2 = inv_nextId s1 ∧ dbFile s2 = dbFile s1 ∧ files s2 = files s1 ∧
  unlinks t1 = [] ∧ unlinks t2 = [].
Proof.
  intros s. apply update_twice.
  - apply wf_run, wf_init.
  - apply shaped_all_run; [apply wf_init | apply shaped_all_init].
Qed.

End Further.

(** ** Further worked examples *)

Section FurtherWorked.
Import Flat FlatRun Store Example.

Lemma registered_item_is_retrievable_witness :
  inv_nextId flat_saw < 2 ^ 53 ∧
  body_id (serve flat_cfg PostRegister drill flat_saw).1.1 = VNum 2 ∧
  (serve flat_cfg GetInventoryId by_id_2
     (serve flat_cfg PostRegister drill flat_saw).1.2).1.1 =
  (serve flat_cfg PostRegister drill flat_saw).1.1.
Proof.
  assert (inv_nextId flat_saw < 2 ^ 53) as Hb by (vm_compute; reflexivity).
  assert (params_id by_id_2 =
          to_string (body_id (serve flat_cfg PostRegister drill flat_saw).1.1)) as Hq
    by (vm_compute; reflexivity).
  destruct (registered_item_is_retrievable flat_cfg [Call PostRegister saw] drill by_id_2
              Hb eq_refl Hq) as (_ & H2 & H3).
  split; [exact Hb|]. split; [exact H2 | exact H3].
Defined.

Lemma inventory_list_agrees_with_get_witness :
  inv_nextId flat_both < 2 ^ 53 ∧
  ∃ bodies,
    content (serve flat_cfg GetInventory by_id flat_both).1.1 = Json (JArray bodies) ∧
    (λ o, get_prop o "id") <$> bodies = [VNum 1; VNum 2].
Proof.
  assert (inv_nextId flat_both < 2 ^ 53) as Hb by (vm_compute; reflexivity).
  split; [exact Hb|].
  destruct (inventory_list_agrees_with_get flat_cfg
              [Call PostRegister saw; Call PostRegister drill] by_id Hb)
    as (bodies & H1 & H2 & _).
  exists bodies. split.
  - change (run flat_cfg [Call PostRegister saw; Call PostRegister drill] init)
      with flat_both in H1. by rewrite H1.
  - rewrite H2. vm_compute. reflexivity.
Defined.

Lemma reading_routes_change_nothing_witness :
  reads_only GetInventoryIdPhoto = true ∧
  (serve flat_cfg GetInventoryIdPhoto by_id flat_saw).2 = [] ∧
  files (serve flat_cfg GetInventoryIdPhoto by_id flat_saw).1.2 = files flat_saw.
Proof.
  split; [reflexivity|].
  destruct (reading_routes_change_nothing flat_cfg [Call PostRegister saw]
              GetInventoryIdPhoto by_id rel_cfg rel_saw eq_refl) as [H _].
  change (run flat_cfg [Call PostRegister saw] init) with flat_saw in H.
  destruct (serve flat_cfg GetInventoryIdPhoto by_id flat_saw) as [[r s'] t].
  destruct H as (Ht & _ & _ & _ & Hf & _). cbn [fst snd].
  split; [exact Ht | exact Hf].
Defined.

Lemma stored_items_keep_their_shape_witness :
  textual_history history_then_restart = true ∧
  stored_ids (run flat_cfg history_then_restart init) = [VNum 2; VNum 3] ∧
  Forall (λ l, text_shaped (deref (run flat_cfg history_then_restart init) l) = true ∧
               to_json (deref (run flat_cfg history_then_restart init) l) =
               deref (run flat_cfg history_then_restart init) l)
         (inv_list (run flat_cfg history_then_restart init)).
Proof.
  assert (textual_history history_then_restart = true) as Ht by (vm_compute; reflexivity).
  split; [exact Ht|]. split; [vm_compute; reflexivity|].
  exact (stored_items_keep_their_shape flat_cfg history_then_restart Ht).
Defined.

Lemma restart_keeps_the_inventory_witness :
  textual_history history = true ∧
  deref (restart (run flat_cfg history init)) <$> inv_list (restart (run flat_cfg history init))
    = deref (run flat_cfg history init) <$> inv_list (run flat_cfg history init) ∧
  (serve flat_cfg GetInventory everything (restart (run flat_cfg history init))).1.1 =
  (serve flat_cfg GetInventory everything (run flat_cfg history init)).1.1.
Proof.
  assert (textual_history history = true) as Ht by (vm_compute; reflexivity).
  split; [exact Ht|].
  destruct (restart_keeps_the_inventory flat_cfg history Ht) as (H1 & _ & _ & _ & H5).
  split; [exact H1 | by apply H5].
Defined.

Lemma referenced_photos_are_on_disk_witness :
  fresh_uploads flat_cfg history init = true ∧
  referenced flat_cfg (run flat_cfg history init) = ["cache/uploads/8f3a"] ∧
  Forall (λ p, p ∈ files (run flat_cfg history init))
         (referenced flat_cfg (run flat_cfg history init)) ∧
  (serve flat_cfg GetInventoryIdPhoto by_id_3 (run flat_cfg history init)).1.1 =
    sendFile flat_cfg "cache/uploads/8f3a" (files (run flat_cfg history init)).
Proof.
  assert (fresh_uploads flat_cfg history init = true) as Hfr by (vm_compute; reflexivity).
  split; [exact Hfr|]. split; [vm_compute; reflexivity|].
  destruct (referenced_photos_are_on_disk flat_cfg history by_id_3 Hfr) as [H1 H2].
  split; [exact H1|]. rewrite H2. vm_compute. reflexivity.
Defined.

Lemma uploaded_photo_is_handed_to_sendFile_witness :
  req_file saw = Some "8f3a" ∧
  Order.body_prop (serve flat_cfg PostRegister saw init).1.1 "photo" =
    VStr "http://localhost:3000/inventory/1/photo" ∧
  "cache/uploads/8f3a" ∈ files (serve flat_cfg PostRegister saw init).1.2 ∧
  (serve flat_cfg GetInventoryIdPhoto by_id (serve flat_cfg PostRegister saw init).1.2).1.1 =
    sendFile flat_cfg "cache/uploads/8f3a" (files (serve flat_cfg PostRegister saw init).1.2) ∧
  sendFile flat_cfg "cache/uploads/8f3a" (files (serve flat_cfg PostRegister saw init).1.2) =
    {| status := 200; content := File "cache/uploads/8f3a" |}.
Proof.
  split; [reflexivity|].
  assert (inv_nextId (run flat_cfg [] init) < 2 ^ 53) as Hb by (vm_compute; reflexivity).
  assert ("8f3a" ≠ "") as Hne by discriminate.
  assert (params_id by_id =
          to_string (body_id (serve flat_cfg PostRegister saw (run flat_cfg [] init)).1.1))
    as Hq by (vm_compute; reflexivity).
  destruct (uploaded_photo_is_handed_to_sendFile flat_cfg [] saw by_id "8f3a"
              Hb eq_refl eq_refl Hne Hq) as (H1 & H2 & H3).
  split; [exact H1|]. split; [exact H2|]. split; [exact H3|].
  vm_compute. reflexivity.
Defined.

Lemma uploads_end_up_referenced_witness :
  rejected PostRegister saw = false ∧
  "cache/uploads/8f3a" ∈ files (serve flat_cfg PostRegister saw flat_drill).1.2 ∧
  ("cache/uploads/8f3a" ∉ files flat_drill) ∧
  "cache/uploads/8f3a" ∈ referenced flat_cfg (serve flat_cfg PostRegister saw flat_drill).1.2.
Proof.
  assert ("cache/uploads/8f3a" ∈ files (serve flat_cfg PostRegister saw flat_drill).1.2)
    as Hin by (vm_compute; reflexivity).
  assert ("cache/uploads/8f3a" ∉ files flat_drill) as Hout
    by (vm_compute; discriminate).
  split; [reflexivity|]. split; [exact Hin|]. split; [exact Hout|].
  destruct (uploads_end_up_referenced flat_cfg [Call PostRegister drill] PostRegister saw
              "cache/uploads/8f3a" eq_refl Hin) as [H|H]; [by destruct Hout | exact H].
Defined.

Lemma update_changes_name_and_description_only_witness :
  found (Number (params_id rename)) flat_saw = Some 0%nat ∧
  deref (serve flat_cfg PutInventoryId rename flat_saw).1.2 0%nat =
    [("id", VNum 1); ("inventory_name", VStr "Hand saw"); ("description", VStr "");
     ("photo", VStr "8f3a")] ∧
  (serve flat_cfg GetInventoryId by_id (serve flat_cfg PutInventoryId rename flat_saw).1.2).1.1 =
  (serve flat_cfg PutInventoryId rename flat_saw).1.1.
Proof.
  assert (found (Number (params_id rename)) flat_saw = Some 0%nat) as Hf
    by (vm_compute; reflexivity).
  split; [exact Hf|]. split; [vm_compute; reflexivity|].
  destruct (update_changes_name_and_description_only flat_cfg [Call PostRegister saw]
              rename by_id 0%nat Hf eq_refl) as (_ & _ & _ & _ & _ & _ & _ & _ & _ & _ & H).
  exact H.
Defined.

Lemma search_reads_leading_digits_witness :
  stops " saw" = true ∧
  get_prop (req_body sloppy_search) "id" = VStr "1 saw" ∧
  status (serve flat_cfg PostSearch sloppy_search flat_saw).1.1 = 200 ∧
  Order.body_prop (serve flat_cfg PostSearch sloppy_search flat_saw).1.1 "inventory_name"
    = VStr "Saw".
Proof.
  split; [reflexivity|]. split; [reflexivity|].
  assert (inv_nextId flat_saw < 2 ^ 53) as Hb by (vm_compute; reflexivity).
  assert (0%nat ∈ inv_list flat_saw) as Hl by (vm_compute; constructor).
  assert (item_id flat_saw 0%nat = VNum 1) as Hk by (vm_compute; reflexivity).
  assert (get_prop (req_body sloppy_search) "id" = VStr (pretty 1 +:+ " saw") ∨
          get_prop (req_body sloppy_search) "id" = VNum 1) as Hid
    by (left; vm_compute; reflexivity).
  pose proof (search_reads_leading_digits flat_cfg [Call PostRegister saw] sloppy_search
                0%nat 1 " saw" Hb Hl Hk eq_refl Hid) as H.
  change (run flat_cfg [Call PostRegister saw] init) with flat_saw in H.
  rewrite H. split; [reflexivity | vm_compute; reflexivity].
Defined.

Lemma replaced_photo_is_handed_to_sendFile_witness :
  fresh_uploads flat_cfg [Call PostRegister saw; Call PutInventoryIdPhoto new_photo] init
    = true ∧
  (serve flat_cfg GetInventoryIdPhoto by_id
     (serve flat_cfg PutInventoryIdPhoto new_photo flat_saw).1.2).1.1 =
    sendFile flat_cfg "cache/uploads/b7c1"
      (files (serve flat_cfg PutInventoryIdPhoto new_photo flat_saw).1.2) ∧
  "cache/uploads/b7c1" ∈ files (serve flat_cfg PutInventoryIdPhoto new_photo flat_saw).1.2 ∧
  "cache/uploads/8f3a" ∉ files (serve flat_cfg PutInventoryIdPhoto new_photo flat_saw).1.2.
Proof.
  assert (fresh_uploads flat_cfg
            ([Call PostRegister saw] ++ [Call PutInventoryIdPhoto new_photo]) init = true)
    as Hfr by (vm_compute; reflexivity).
  assert (found (Number (params_id new_photo)) flat_saw = Some 0%nat) as Hf
    by (vm_compute; reflexivity).
  split; [exact Hfr|].
  destruct (replaced_photo_is_handed_to_sendFile flat_cfg [Call PostRegister saw]
              new_photo by_id 0%nat Hfr Hf eq_refl) as (H1 & H2 & H3).
  split; [exact H1|]. split; [by apply H2|].
  apply H3; vm_compute; reflexivity.
Defined.

Lemma delete_leaves_the_other_items_witness :
  inv_nextId flat_both < 2 ^ 53 ∧
  found (Number (params_id by_id)) flat_both = Some 0%nat ∧
  stored_ids (serve flat_cfg DeleteInventoryId by_id flat_both).1.2 = [VNum 2] ∧
  (serve flat_cfg GetInventoryId by_id_2
     (serve flat_cfg DeleteInventoryId by_id flat_both).1.2).1.1 =
  (serve flat_cfg GetInventoryId by_id_2 flat_both).1.1.
Proof.
  assert (inv_nextId flat_both < 2 ^ 53) as Hb by (vm_compute; reflexivity).
  assert (found (Number (params_id by_id)) flat_both = Some 0%nat) as Hf
    by (vm_compute; reflexivity).
  split; [exact Hb|]. split; [exact Hf|]. split; [vm_compute; reflexivity|].
  destruct (delete_leaves_the_other_items flat_cfg
              [Call PostRegister saw; Call PostRegister drill] by_id by_id_2 0%nat Hb Hf)
    as (_ & _ & _ & _ & H).
  change (run flat_cfg [Call PostRegister saw; Call PostRegister drill] init)
    with flat_both in H.
  rewrite H. apply decide_False. vm_compute. discriminate.
Defined.

Lemma failed_query_answers_500_witness :
  Faults.first_query_fails rel_cfg GetInventoryId by_word rel_saw = true ∧
  status (Rel.serve rel_cfg GetInventoryId by_word rel_saw).1.1 = 500 ∧
  Rel.rows (Rel.serve rel_cfg GetInventoryId by_word rel_saw).1.2 = Rel.rows rel_saw.
Proof.
  assert (Faults.first_query_fails rel_cfg GetInventoryId by_word rel_saw = true) as Hfail
    by (vm_compute; reflexivity).
  split; [exact Hfail|].
  pose proof (failed_query_answers_500 rel_cfg GetInventoryId by_word rel_saw Hfail eq_refl)
    as H.
  destruct (Rel.serve rel_cfg GetInventoryId by_word rel_saw) as [[resp rs'] t].
  destruct H as (-> & Hrows & _). cbn [fst snd]. split; [reflexivity | exact Hrows].
Defined.

Lemma failed_photo_update_loses_the_old_photo_witness :
  Rel.faults rel_saw_failing = [false; true] ∧
  "cache/8f3a" ∈ Rel.files rel_saw_failing ∧
  status (Rel.serve rel_cfg PutInventoryIdPhoto new_photo rel_saw_failing).1.1 = 500 ∧
  Rel.rows (Rel.serve rel_cfg PutInventoryIdPhoto new_photo rel_saw_failing).1.2 =
    [{| Rel.id := 1; Rel.inventory_name := Some "Saw"; Rel.description := Some "";
        Rel.photo := Some "8f3a" |}] ∧
  "cache/8f3a" ∉ Rel.files (Rel.serve rel_cfg PutInventoryIdPhoto new_photo rel_saw_failing).1.2.
Proof.
  assert (path_join (Rel.CACHE rel_cfg) "8f3a" ∈ Rel.files rel_saw_failing) as Hin
    by (vm_compute; reflexivity).
  assert ("8f3a" ≠ "") as Hne by discriminate.
  assert (∀ f, req_file new_photo = Some f →
               path_join (Rel.CACHE rel_cfg) f ∉ Rel.files rel_saw_failing) as Hfresh.
  { intros f [= <-]. vm_compute. discriminate. }
  split; [reflexivity|]. split; [exact Hin|].
  pose proof (failed_photo_update_loses_the_old_photo rel_cfg new_photo by_id
                rel_saw_failing 1
                {| Rel.id := 1; Rel.inventory_name := Some "Saw";
                   Rel.description := Some ""; Rel.photo := Some "8f3a" |}
                "8f3a" eq_refl eq_refl eq_refl eq_refl Hne Hin Hfresh eq_refl) as H.
  destruct (Rel.serve rel_cfg PutInventoryIdPhoto new_photo rel_saw_failing)
    as [[resp rs'] t].
  destruct H as (-> & Hrows & _ & _ & Hgone & _). cbn [fst snd].
  split; [reflexivity|]. split; [by rewrite Hrows | exact Hgone].
Defined.

Lemma failed_delete_keeps_the_record_witness :
  Rel.faults rel_saw_failing = [false; true] ∧
  status (Rel.serve rel_cfg DeleteInventoryId by_id rel_saw_failing).1.1 = 500 ∧
  status (Rel.serve rel_cfg GetInventoryId by_id
            (Rel.serve rel_cfg DeleteInventoryId by_id rel_saw_failing).1.2).1.1 = 200 ∧
  (Rel.serve rel_cfg GetInventoryIdPhoto by_id
     (Rel.serve rel_cfg DeleteInventoryId by_id rel_saw_failing).1.2).1.1 =
    {| status := 404; content := Text "Photo not found" |}.
Proof.
  split; [reflexivity|].
  pose proof (failed_delete_keeps_the_record rel_cfg by_id by_id rel_saw_failing 1
                {| Rel.id := 1; Rel.inventory_name := Some "Saw";
                   Rel.description := Some ""; Rel.photo := Some "8f3a" |}
                eq_refl eq_refl eq_refl eq_refl) as H.
  destruct (Rel.serve rel_cfg DeleteInventoryId by_id rel_saw_failing) as [[resp rs'] t].
  destruct H as (-> & _ & _ & _ & _ & _ & Hget & Hphoto). cbn [fst snd].
  split; [reflexivity|]. split; [by rewrite Hget|].
  apply (Hphoto "8f3a"); [reflexivity | discriminate].
Defined.

Lemma inventory_lists_in_registration_order_witness :
  inv_nextId (run flat_cfg history init) < 2 ^ 53 ∧
  id_numbers (run flat_cfg history init) = [2; 3] ∧
  StronglySorted Z.lt (id_numbers (run flat_cfg history init)).
Proof.
  assert (inv_nextId (run flat_cfg history init) < 2 ^ 53) as Hb
    by (vm_compute; reflexivity).
  split; [exact Hb|]. split; [vm_compute; reflexivity|].
  destruct (inventory_lists_in_registration_order flat_cfg history by_id Hb)
    as (bodies & _ & _ & H).
  exact H.
Defined.

Lemma failed_update_changes_nothing_witness :
  Rel.faults rel_saw_failing = [false; true] ∧
  status (Rel.serve rel_cfg PutInventoryId rename rel_saw_failing).1.1 = 500 ∧
  Rel.rows (Rel.serve rel_cfg PutInventoryId rename rel_saw_failing).1.2 =
    [{| Rel.id := 1; Rel.inventory_name := Some "Saw"; Rel.description := Some "";
        Rel.photo := Some "8f3a" |}].
Proof.
  split; [reflexivity|].
  pose proof (failed_update_changes_nothing rel_cfg rename by_id rel_saw_failing 1
                {| Rel.id := 1; Rel.inventory_name := Some "Saw";
                   Rel.description := Some ""; Rel.photo := Some "8f3a" |}
                eq_refl eq_refl eq_refl eq_refl) as H.
  destruct (Rel.serve rel_cfg PutInventoryId rename rel_saw_failing) as [[resp rs'] t].
  destruct H as (-> & Hrows & _). cbn [fst snd].
  split; [reflexivity | by rewrite Hrows].
Defined.

End FurtherWorked.
